(** * loony-postgres: a shallow embedding of the wire-protocol core

    The first part follows the layout of the sources:
    - [Buf]       : the Node [Buffer] operations the code relies on;
    - [JS]        : the JavaScript string, number and object primitives used;
    - [Parser]    : src/src/messageParser.mjs;
    - [Crypto]    : the crypto provider (SHA-256, HMAC, PBKDF2, base64);
    - [Scram]     : src/src/scramAuth.mjs;
    - [Builder]   : src/src/messageBuilder.mjs;
    - [Framer]    : the framing loop of src/src/pgConnection.mjs;
    - [Conn]      : the connection object of src/src/pgConnection.mjs.

    The second part holds what the statements need beside the code: the
    wire form of the data the decoder reads ([Wire], [Stream]), the
    exchange of RFC 7677 ([ScramSpec]), runs of a connection ([Trace],
    [Samples]), and what further properties are stated with: the text
    the protocol carries ([Text]), the messages a server sends ([Server])
    and whole exchanges ([Session]).  The third part proves facts module
    by module; [Claims] states the properties of the specification and
    [Extras] further properties of the code.

    Representation.  A [Buffer] is a [list byte].  A JavaScript string is
    represented by the sequence of bytes of its UTF-8 encoding, as a Rocq
    [string]; decoding a well-formed UTF-8 buffer and encoding a string are
    then both the identity on the underlying bytes.  Numbers produced by
    [parseInt] are mathematical integers or [NaN].  A function that may
    throw returns an [option], [None] standing for the exception. *)

From Stdlib Require Import ZArith NArith Strings.Byte Ascii String List Lia Uint63.
From stdpp Require Import base option list gmap strings pretty.
Import ListNotations.

Local Open Scope Z_scope.

(* ===================================================================== *)
(** ** Buffers *)
(* ===================================================================== *)

Module Buf.

Definition Buffer := list byte.

Definition byteZ (b : byte) : Z := Z.of_N (Byte.to_N b).

Definition zbyte (z : Z) : byte :=
  match Byte.of_N (Z.to_N (z mod 256)) with
  | Some b => b
  | None => x00
  end.

Definition len (b : Buffer) : Z := Z.of_nat (length b).

(** [buf.slice(start)] and [buf.slice(start, end)] for in-range,
    non-negative arguments (the only way the sources call them);
    an [end] past the buffer is clamped, as Node does. *)
Definition sliceFrom (b : Buffer) (start : Z) : Buffer :=
  drop (Z.to_nat start) b.

Definition slice (b : Buffer) (start stop : Z) : Buffer :=
  take (Z.to_nat (stop - start)) (drop (Z.to_nat start) b).

(** Big-endian unsigned value of a byte sequence. *)
Fixpoint be_value (acc : Z) (bs : list byte) : Z :=
  match bs with
  | [] => acc
  | b :: r => be_value (acc * 256 + byteZ b) r
  end.

(** Two's complement reading of an unsigned [w]-bit value. *)
Definition to_signed (w : Z) (u : Z) : Z :=
  if u <? 2 ^ (w - 1) then u else u - 2 ^ w.

(** [buf.readInt32BE(off)]: throws [RangeError] (here [None]) unless
    [0 <= off] and [off + 4 <= buf.length]. *)
Definition readInt32BE (b : Buffer) (off : Z) : option Z :=
  if (0 <=? off) && (off + 4 <=? len b)
  then Some (to_signed 32 (be_value 0 (slice b off (off + 4))))
  else None.

Definition readInt16BE (b : Buffer) (off : Z) : option Z :=
  if (0 <=? off) && (off + 2 <=? len b)
  then Some (to_signed 16 (be_value 0 (slice b off (off + 2))))
  else None.

(** [writeInt32BE] / [writeInt16BE] into a fresh buffer of the right size:
    the two's complement big-endian bytes of the value. *)
Definition int32BE (z : Z) : Buffer :=
  [zbyte (z / 16777216); zbyte (z / 65536); zbyte (z / 256); zbyte z].

Definition int16BE (z : Z) : Buffer :=
  [zbyte (z / 256); zbyte z].

(** [buf.toString("utf8", start, end)], with Node's clamping of the two
    indices.  On the UTF-8 representation of strings the decoding of a
    well-formed byte sequence is that sequence itself. *)
Definition toString (b : Buffer) (start stop : Z) : string :=
  let stop' := if len b <? stop then len b else stop in
  if start <=? 0 then
    if stop' <=? 0 then EmptyString
    else string_of_list_byte (slice b 0 stop')
  else if len b <=? start then EmptyString
  else if stop' <=? start then EmptyString
  else string_of_list_byte (slice b start stop').

Definition toStringAll (b : Buffer) : string := string_of_list_byte b.

(** [Buffer.from(str, "utf8")]. *)
Definition fromString (s : string) : Buffer := list_byte_of_string s.

(** [a.equals(b)]. *)
Fixpoint equals (a b : Buffer) : bool :=
  match a, b with
  | [], [] => true
  | x :: a', y :: b' => Byte.eqb x y && equals a' b'
  | _, _ => false
  end.

End Buf.

(* ===================================================================== *)
(** ** JavaScript primitives *)
(* ===================================================================== *)

Module JS.

(** A JavaScript number as returned by [parseInt]. *)
Inductive num : Type :=
| NaN : num
| Int : Z -> num.

Definition isNaN (n : num) : bool :=
  match n with NaN => true | Int _ => false end.

(** A column value: [null] or a string. *)
Inductive value : Type :=
| Null : value
| Str : string -> value.

Definition is_null (v : value) : bool :=
  match v with Null => true | Str _ => false end.

(** *** Strings *)

(** [s.split(c)] for a one-character separator [c]. *)
Fixpoint split_aux (c : ascii) (cur : string) (s : string) : list string :=
  match s with
  | EmptyString => [String.rev cur]
  | String a r =>
      if Ascii.eqb a c then String.rev cur :: split_aux c EmptyString r
      else split_aux c (String a cur) r
  end.

Definition split (c : ascii) (s : string) : list string :=
  split_aux c EmptyString s.

(** [s.split(c, limit)]: the first [limit] pieces of [s.split(c)]; the
    remainder of the string is NOT kept in the last piece. *)
Definition split_limit (c : ascii) (limit : nat) (s : string) : list string :=
  take limit (split c s).

(** [arr.join(sep)]. *)
Fixpoint join (sep : string) (l : list string) : string :=
  match l with
  | [] => EmptyString
  | [x] => x
  | x :: r => x +:+ sep +:+ join sep r
  end.

(** [s.startsWith(p)]. *)
Definition startsWith (s p : string) : bool := String.prefix p s.

(** [s.toLowerCase()].  Only the ASCII letters are mapped; the sources
    compare the result with the ASCII word "insert", and no non-ASCII
    character lower-cases to one of its letters alone, so the outcome of
    that comparison is the one JavaScript computes. *)
Definition lower_ascii (a : ascii) : ascii :=
  let n := N_of_ascii a in
  if ((65 <=? n) && (n <=? 90))%N then ascii_of_N (n + 32) else a.

Fixpoint toLowerCase (s : string) : string :=
  match s with
  | EmptyString => EmptyString
  | String a r => String (lower_ascii a) (toLowerCase r)
  end.

(** [s.length]: the number of UTF-16 code units of the string, counted on
    its UTF-8 representation (a lead byte of a four-byte sequence stands
    for a surrogate pair, continuation bytes count for nothing). *)
Definition units_of_byte (a : ascii) : Z :=
  let n := N_of_ascii a in
  if (n <? 128)%N then 1
  else if (n <? 192)%N then 0
  else if (n <? 240)%N then 1
  else 2.

Fixpoint length16 (s : string) : Z :=
  match s with
  | EmptyString => 0
  | String a r => units_of_byte a + length16 r
  end.

(** *** parseInt(s, 10) *)

(** White space skipped by [parseInt]: the ASCII one, and the Unicode
    space and line-terminator characters in their UTF-8 form. *)
Definition ascii_ws (a : ascii) : bool :=
  let n := N_of_ascii a in
  ((9 <=? n) && (n <=? 13) || (n =? 32))%N.

Definition ws3 (a b c : ascii) : bool :=
  let x := N_of_ascii a in
  let y := N_of_ascii b in
  let z := N_of_ascii c in
  ((x =? 225) && (y =? 154) && (z =? 128)           (* U+1680 *)
   || (x =? 226) && (y =? 128)
      && ((128 <=? z) && (z <=? 138)                 (* U+2000..200A *)
          || (z =? 168) || (z =? 169) || (z =? 175)) (* U+2028 2029 202F *)
   || (x =? 226) && (y =? 129) && (z =? 159)         (* U+205F *)
   || (x =? 227) && (y =? 128) && (z =? 128)         (* U+3000 *)
   || (x =? 239) && (y =? 187) && (z =? 191))%N.     (* U+FEFF *)

Fixpoint skip_ws (fuel : nat) (s : string) : string :=
  match fuel with
  | O => s
  | S k =>
      match s with
      | String a r =>
          if ascii_ws a then skip_ws k r
          else
            match r with
            | String b r' =>
                if ((N_of_ascii a =? 194) && (N_of_ascii b =? 160))%N
                then skip_ws k r'                     (* U+00A0 *)
                else
                  match r' with
                  | String c r'' => if ws3 a b c then skip_ws k r'' else s
                  | EmptyString => s
                  end
            | EmptyString => s
            end
      | EmptyString => s
      end
  end.

Definition digit_of (a : ascii) : option Z :=
  let n := N_of_ascii a in
  if ((48 <=? n) && (n <=? 57))%N then Some (Z.of_N n - 48) else None.

(** Longest prefix of decimal digits, as a number; [None] when empty. *)
Fixpoint digits (acc : option Z) (s : string) : option Z :=
  match s with
  | EmptyString => acc
  | String a r =>
      match digit_of a with
      | Some d => digits (Some (default 0 acc * 10 + d)) r
      | None => acc
      end
  end.

Definition parseInt (s : string) : num :=
  let s1 := skip_ws (String.length s) s in
  let '(neg, s2) :=
    match s1 with
    | String "-" r => (true, r)
    | String "+" r => (false, r)
    | _ => (false, s1)
    end in
  match digits None s2 with
  | None => NaN
  | Some n => Int (if neg then - n else n)
  end.

(** *** Plain objects used as maps *)

(** An object created by [{}]: its own properties, and whether it still
    has [Object.prototype] as prototype.  Assigning the key [__proto__]
    on such an object runs the inherited setter: [null] detaches the
    prototype, any other primitive is ignored; once detached, the key is
    an ordinary one. *)
Record obj (V : Type) : Type := mkObj {
  props : gmap string V;
  has_proto : bool
}.
Arguments mkObj {V} _ _.
Arguments props {V} _.
Arguments has_proto {V} _.

Definition empty_obj {V : Type} : obj V := mkObj ∅ true.

Definition obj_set {V : Type} (isnull : V -> bool)
           (k : string) (v : V) (o : obj V) : obj V :=
  if String.eqb k "__proto__" && has_proto o then
    if isnull v then mkObj (props o) false else o
  else mkObj (<[k := v]> (props o)) (has_proto o).

(** [o[k]] for a key that [Object.prototype] does not define (every key
    the sources read): the own property, or [undefined] ([None]). *)
Definition obj_get {V : Type} (k : string) (o : obj V) : option V :=
  props o !! k.

End JS.

(* ===================================================================== *)
(** ** src/messageParser.mjs *)
(* ===================================================================== *)

Module Parser.
Import Buf JS.

(** [while (end < buffer.length && buffer[end] !== 0) end++] *)
Fixpoint scan_nonzero (bs : list byte) : Z :=
  match bs with
  | [] => 0
  | b :: r => if Byte.eqb b x00 then 0 else 1 + scan_nonzero r
  end.

Definition readCString (buffer : Buffer) (offset : Z) : string :=
  let stop := offset + scan_nonzero (sliceFrom buffer offset) in
  toString buffer offset stop.

(** The loop of [parseNullTerminatedPairs]; every turn advances [offset]
    by at least one, so [length buffer] turns are enough. *)
Fixpoint pairsLoop (fuel : nat) (buffer : Buffer) (offset : Z)
         (result : obj string) : obj string :=
  match fuel with
  | O => result
  | S k =>
      if (offset <? len buffer)
         && negb (match sliceFrom buffer offset with
                  | b :: _ => Byte.eqb b x00
                  | [] => false
                  end)
      then
        let key := toString buffer offset (offset + 1) in
        let offset1 := offset + 1 in
        let value := readCString buffer offset1 in
        let offset2 := offset1 + (length16 value + 1) in
        pairsLoop k buffer offset2 (obj_set (fun _ => false) key value result)
      else result
  end.

Definition parseNullTerminatedPairs (buffer : Buffer) : obj string :=
  pairsLoop (length buffer) buffer 0 empty_obj.

Record commandResult : Type := mkCommand {
  command : string;
  rowCount : num;
  oid : option num;       (* [None] is [null] *)
  commandTag : string
}.

Definition parseCommandComplete (message : Buffer) : commandResult :=
  let tag := readCString message 0 in
  let parts := split " " tag in
  if (length parts =? 3)%nat
     && String.eqb (toLowerCase (default EmptyString (parts !! 0%nat))) "insert"
  then
    mkCommand (default EmptyString (parts !! 0%nat))
              (parseInt (default EmptyString (parts !! 2%nat)))
              (Some (parseInt (default EmptyString (parts !! 1%nat))))
              tag
  else if (2 <=? length parts)%nat then
    (* [parts.pop()] removes the last token; [parts[0]] is read after it *)
    let rc := parseInt (List.last parts EmptyString) in
    let parts' := removelast parts in
    mkCommand (default EmptyString (parts' !! 0%nat))
              (if isNaN rc then Int 0 else rc) None tag
  else
    mkCommand (default EmptyString (parts !! 0%nat)) (Int 0) None tag.

Record field : Type := mkField {
  name : string;
  tableOID : Z;
  columnAttrNum : Z;
  dataTypeOID : Z;
  dataTypeSize : Z;
  typeModifier : Z;
  format : Z
}.

(** The [for] loop of [parseRowDescription], [fuel] being the number of
    turns left ([fieldCount - i]). *)
Fixpoint rowDescLoop (fuel : nat) (message : Buffer) (offset : Z)
         (fields : list field) : option (list field) :=
  match fuel with
  | O => Some fields
  | S k =>
      let nm := readCString message offset in
      let offset1 := offset + (length16 nm + 1) in
      if len message <? offset1 + 18 then Some fields
      else
        t ← readInt32BE message offset1;
        c ← readInt16BE message (offset1 + 4);
        d ← readInt32BE message (offset1 + 6);
        s ← readInt16BE message (offset1 + 10);
        m ← readInt32BE message (offset1 + 12);
        f ← readInt16BE message (offset1 + 16);
        rowDescLoop k message (offset1 + 18)
                    (fields ++ [mkField nm t c d s m f])
  end.

Definition parseRowDescription (message : Buffer) : option (list field) :=
  fieldCount ← readInt16BE message 0;
  rowDescLoop (Z.to_nat fieldCount) message 2 [].

(** A row: an object from column name to [null] or a string. *)
Definition row := obj value.

(** The [for] loop of [parseDataRow]; [rest] is [fields.slice(i)], so the
    test [i < fields.length] is [rest] being non-empty. *)
Fixpoint dataRowLoop (message : Buffer) (fieldCount : Z) (rest : list field)
         (i : Z) (offset : Z) (r : row) : option row :=
  match rest with
  | [] => Some r
  | f :: rest' =>
      if i <? fieldCount then
        if len message <? offset + 4 then Some r
        else
          length ← readInt32BE message offset;
          let offset1 := offset + 4 in
          if length =? -1 then
            dataRowLoop message fieldCount rest' (i + 1) offset1
                        (obj_set is_null (name f) Null r)
          else if len message <? offset1 + length then Some r
          else
            let v := toString message offset1 (offset1 + length) in
            dataRowLoop message fieldCount rest' (i + 1) (offset1 + length)
                        (obj_set is_null (name f) (Str v) r)
      else Some r
  end.

(** [fields] is [None] when the caller passes [null] (no RowDescription
    was received): reading [fields.length] then throws, unless the loop
    test fails first on [i < fieldCount]. *)
Definition parseDataRow (message : Buffer) (fields : option (list field))
  : option row :=
  fieldCount ← readInt16BE message 0;
  match fields with
  | Some fs => dataRowLoop message fieldCount fs 0 2 empty_obj
  | None => if 0 <? fieldCount then None else Some empty_obj
  end.

Definition scramStep (params : obj string) (pair : string) : obj string :=
  match split_limit "=" 2 pair with
  | [key; v] =>
      if negb (String.eqb key EmptyString)
      then obj_set (fun _ => false) key v params
      else params
  | _ => params
  end.

Definition parseSCRAMParams (str : string) : obj string :=
  fold_left scramStep (split "," str) empty_obj.

End Parser.

(* ===================================================================== *)
(** ** The crypto provider *)
(* ===================================================================== *)

(** Node's [crypto] module is an external collaborator.  The functions the
    sources call are given here by their standards: SHA-256 (FIPS 180-4),
    HMAC (RFC 2104), PBKDF2 (RFC 8018) and base64 (RFC 4648).  Words of the
    hash are machine integers, masked to 32 bits after each addition. *)

Module Crypto.
Local Open Scope uint63_scope.

Definition mask32 : int := 4294967295.
Definition add32 (a b : int) : int := (a + b) land mask32.
Definition rotr (n : int) (x : int) : int :=
  (x >> n) lor ((x << (32 - n)) land mask32).
Definition shr (n : int) (x : int) : int := x >> n.
Definition Ch (x y z : int) : int :=
  (x land y) lxor ((x lxor mask32) land z).
Definition Maj (x y z : int) : int :=
  ((x land y) lxor (x land z)) lxor (y land z).
Definition Sigma0 x := ((rotr 2 x) lxor (rotr 13 x)) lxor (rotr 22 x).
Definition Sigma1 x := ((rotr 6 x) lxor (rotr 11 x)) lxor (rotr 25 x).
Definition sigma0 x := ((rotr 7 x) lxor (rotr 18 x)) lxor (shr 3 x).
Definition sigma1 x := ((rotr 17 x) lxor (rotr 19 x)) lxor (shr 10 x).

(** The constants of FIPS 180-4, by their definition there: the first
    32 bits of the fractional parts of the cube roots (for the round
    constants) and of the square roots (for the initial hash value) of
    the first prime numbers. *)
Definition isPrime (p : Z) : bool :=
  forallb (fun d => negb (p mod d =? 0)%Z)
          (map Z.of_nat (seq 2 (Z.to_nat p - 2))).

Definition firstPrimes (n : nat) : list Z :=
  firstn n (filter isPrime (map Z.of_nat (seq 2 400))).

(** The integer cube root, one bit at a time from bit [bits - 1] down. *)
Fixpoint cubeRoot (bits : nat) (n r : Z) : Z :=
  match bits with
  | O => r
  | S k =>
      let r' := (r + 2 ^ Z.of_nat k)%Z in
      cubeRoot k n (if (r' * r' * r' <=? n)%Z then r' else r)
  end.

Definition fractionOfCubeRoot (p : Z) : int :=
  Uint63.of_Z ((cubeRoot 40 (p * 2 ^ 96) 0) mod 2 ^ 32)%Z.

Definition fractionOfSquareRoot (p : Z) : int :=
  Uint63.of_Z ((Z.sqrt (p * 2 ^ 64)) mod 2 ^ 32)%Z.

Definition K256 : list int :=
  Eval vm_compute in map fractionOfCubeRoot (firstPrimes 64).

Definition H0 : list int :=
  Eval vm_compute in map fractionOfSquareRoot (firstPrimes 8).

Definition b2i (b : byte) : int := Uint63.of_Z (Z.of_N (Byte.to_N b)).

Definition i2b (n : int) : byte :=
  match Byte.of_N (Z.to_N (Uint63.to_Z (n land 255))) with
  | Some b => b
  | None => x00
  end.

Fixpoint words (bs : list byte) : list int :=
  match bs with
  | a :: b :: c :: d :: r =>
      ((b2i a << 24) lor (b2i b << 16) lor (b2i c << 8) lor b2i d) :: words r
  | _ => []
  end.

Definition word_bytes (w : int) : list byte :=
  [i2b (w >> 24); i2b (w >> 16); i2b (w >> 8); i2b w].

(** Message schedule: [n] further words from a window of sixteen. *)
Fixpoint expand (n : nat) (win : list int) : list int :=
  match n with
  | O => win
  | S k =>
      match win with
      | w0 :: rest =>
          let wnew := add32 (add32 (sigma1 (nth 14 win 0)) (nth 9 win 0))
                            (add32 (sigma0 (nth 1 win 0)) w0) in
          w0 :: expand k (rest ++ [wnew])
      | [] => []
      end
  end.

Record regs : Type := mkRegs {
  ra : int; rb : int; rc : int; rd : int;
  re : int; rf : int; rg : int; rh : int
}.

Definition round (s : regs) (k w : int) : regs :=
  let t1 := add32 (add32 (add32 (rh s) (Sigma1 (re s)))
                         (add32 (Ch (re s) (rf s) (rg s)) k)) w in
  let t2 := add32 (Sigma0 (ra s)) (Maj (ra s) (rb s) (rc s)) in
  mkRegs (add32 t1 t2) (ra s) (rb s) (rc s)
         (add32 (rd s) t1) (re s) (rf s) (rg s).

Fixpoint rounds (s : regs) (ks ws : list int) : regs :=
  match ks, ws with
  | k :: ks', w :: ws' => rounds (round s k w) ks' ws'
  | _, _ => s
  end.

Definition compress (h : list int) (block : list byte) : list int :=
  match h with
  | [a; b; c; d; e; f; g; hh] =>
      let s := rounds (mkRegs a b c d e f g hh) K256
                      (expand 48 (words block)) in
      [add32 a (ra s); add32 b (rb s); add32 c (rc s); add32 d (rd s);
       add32 e (re s); add32 f (rf s); add32 g (rg s); add32 hh (rh s)]
  | _ => h
  end.

Definition pad (msg : list byte) : list byte :=
  let l := N.of_nat (length msg) in
  let zeros := N.to_nat ((119 - l mod 64) mod 64)%N in
  let bits := Uint63.of_Z (Z.of_N (l * 8)) in
  msg ++ [x80] ++ repeat x00 zeros
      ++ word_bytes (bits >> 32) ++ word_bytes (bits land mask32).

Fixpoint blocks (fuel : nat) (h : list int) (bs : list byte) : list int :=
  match fuel with
  | O => h
  | S k =>
      match bs with
      | [] => h
      | _ => blocks k (compress h (firstn 64 bs)) (skipn 64 bs)
      end
  end.

Definition sha256 (msg : list byte) : list byte :=
  let p := pad msg in
  concat (map word_bytes (blocks (length p) H0 p)).

Definition xor_byte (a b : byte) : byte := i2b (b2i a lxor b2i b).

Definition hmac_sha256 (key msg : list byte) : list byte :=
  let k0 := if (64 <? N.of_nat (length key))%N then sha256 key else key in
  let k := k0 ++ repeat x00 (64 - length k0)%nat in
  let ipad := map (xor_byte x36) k in
  let opad := map (xor_byte x5c) k in
  sha256 (opad ++ sha256 (ipad ++ msg)).

Fixpoint xor_bytes (a b : list byte) : list byte :=
  match a, b with
  | x :: a', y :: b' => xor_byte x y :: xor_bytes a' b'
  | _, _ => []
  end.

Definition pbkdf2_F (p s : list byte) (c : N) (i : N) : list byte :=
  let u1 := hmac_sha256 p (s ++ word_bytes (Uint63.of_Z (Z.of_N i))) in
  snd (N.iter (c - 1)%N
              (fun '(u, acc) =>
                 let u' := hmac_sha256 p u in (u', xor_bytes acc u'))
              (u1, u1)).

Fixpoint pbkdf2_blocks (p s : list byte) (c : N) (i : N) (n : nat)
  : list byte :=
  match n with
  | O => []
  | S k => pbkdf2_F p s c i ++ pbkdf2_blocks p s c (i + 1)%N k
  end.

Definition pbkdf2_sha256 (p s : list byte) (c : N) (dkLen : nat)
  : list byte :=
  firstn dkLen (pbkdf2_blocks p s c 1 (Nat.div (dkLen + 31) 32)).

(** [crypto.pbkdf2Sync(password, salt, iterations, keylen, "sha256")]:
    the iteration count must be an integer between 1 and 2^31 - 1,
    otherwise the call throws (here [None]). *)
Definition pbkdf2Sync (password : string) (salt : list byte)
           (iterations : JS.num) (keylen : nat) : option (list byte) :=
  match iterations with
  | JS.NaN => None
  | JS.Int c =>
      if ((1 <=? c) && (c <=? 2147483647))%Z
      then Some (pbkdf2_sha256 (Buf.fromString password) salt
                               (Z.to_N c) keylen)
      else None
  end.

(** *** base64 *)

Definition b64_chars : list ascii :=
  list_ascii_of_string
    "ABCDEFGHIJKLMNOPQRSTUVWXYZabcdefghijklmnopqrstuvwxyz0123456789+/".

Definition b64_char (n : N) : ascii :=
  nth (N.to_nat n) b64_chars "="%char.

Definition nb (b : byte) : N := Byte.to_N b.

Fixpoint base64_encode_list (bs : list byte) : list ascii :=
  match bs with
  | [] => []
  | [a] =>
      [b64_char (nb a / 4); b64_char ((nb a mod 4) * 16);
       "="%char; "="%char]
  | [a; b] =>
      [b64_char (nb a / 4);
       b64_char ((nb a mod 4) * 16 + nb b / 16);
       b64_char ((nb b mod 16) * 4); "="%char]
  | a :: b :: c :: r =>
      b64_char (nb a / 4)
      :: b64_char ((nb a mod 4) * 16 + nb b / 16)
      :: b64_char ((nb b mod 16) * 4 + nb c / 64)
      :: b64_char (nb c mod 64)
      :: base64_encode_list r
  end%N.

(** [buf.toString("base64")]. *)
Definition base64_encode (bs : list byte) : string :=
  string_of_list_ascii (base64_encode_list bs).

(** The value of a base64 character; Node also accepts the URL-safe
    [-] and [_]. *)
Definition b64_value (a : ascii) : option N :=
  let n := N_of_ascii a in
  if ((65 <=? n) && (n <=? 90))%N then Some (n - 65)%N
  else if ((97 <=? n) && (n <=? 122))%N then Some (n - 71)%N
  else if ((48 <=? n) && (n <=? 57))%N then Some (n + 4)%N
  else if ((n =? 43) || (n =? 45))%N then Some 62%N
  else if ((n =? 47) || (n =? 95))%N then Some 63%N
  else None.

Definition nbyte (n : N) : byte :=
  match Byte.of_N (n mod 256) with Some b => b | None => x00 end.

Fixpoint base64_decode_values (vs : list N) : list byte :=
  match vs with
  | a :: b :: c :: d :: r =>
      nbyte (a * 4 + b / 16) :: nbyte ((b mod 16) * 16 + c / 4)
      :: nbyte ((c mod 4) * 64 + d) :: base64_decode_values r
  | [a; b; c] => [nbyte (a * 4 + b / 16); nbyte ((b mod 16) * 16 + c / 4)]
  | [a; b] => [nbyte (a * 4 + b / 16)]
  | _ => []
  end%N.

(** [Buffer.from(str, "base64")]: characters outside the alphabet are
    skipped, and a final group may lack its padding. *)
Definition base64_decode (s : string) : list byte :=
  base64_decode_values (omap b64_value (list_ascii_of_string s)).

End Crypto.

(* ===================================================================== *)
(** ** src/scramAuth.mjs *)
(* ===================================================================== *)

Module Scram.
Import Buf JS Parser.

Record scramState : Type := mkScram {
  clientNonce : option string;
  serverNonce : option string;
  salt : option Buffer;
  iterations : num;
  clientFirstMessage : option string;
  clientFirstMessageBare : option string;
  clientFinalMessage : option string;
  clientFinalMessageWithoutProof : option string;
  serverFirstMessage : option string;
  serverFinalMessage : option string;
  saltedPassword : option Buffer;
  authMessage : option string
}.

(** The object the constructor of the connection installs. *)
Definition initialScram : scramState :=
  mkScram None None None (Int 0) None None None None None None None None.

(** A [null] spliced into a string or passed where a string is expected
    reads "null"; an element of [join] that is [null] reads as empty. *)
Definition strOf (o : option string) : string := default "null" o.
Definition joinOf (o : option string) : string := default EmptyString o.

(** [name.replace(/=/g, "=3D").replace(/,/g, "=2C")] *)
Fixpoint replaceChar (c : ascii) (by_ : string) (s : string) : string :=
  match s with
  | EmptyString => EmptyString
  | String a r =>
      if Ascii.eqb a c then by_ +:+ replaceChar c by_ r
      else String a (replaceChar c by_ r)
  end.

Definition saslName (name : string) : string :=
  replaceChar "," "=2C" (replaceChar "=" "=3D" name).

(** [random] is the result of [crypto.randomBytes(18)]. *)
Definition startSCRAMSHA256 (random : Buffer) (st : scramState)
           (user : string) : scramState :=
  let nonce := Crypto.base64_encode random in
  let gs2Header := "n,," in
  let bare := "n=" +:+ saslName user +:+ ",r=" +:+ nonce in
  mkScram (Some nonce) (serverNonce st) (salt st) (iterations st)
          (Some (gs2Header +:+ bare)) (Some bare)
          (clientFinalMessage st) (clientFinalMessageWithoutProof st)
          (serverFirstMessage st) (serverFinalMessage st)
          (saltedPassword st) (authMessage st).

(** [for (i = 0; i < clientKey.length; i++)
       clientProof[i] = clientKey[i] ^ clientSignature[i]];
    an index past the end of [clientSignature] reads [undefined], which
    [^] takes as 0; the store keeps the low eight bits. *)
Fixpoint xorLoop (turns : nat) (i : nat) (clientKey clientSignature : Buffer)
         (clientProof : Buffer) : Buffer :=
  match turns with
  | O => clientProof
  | S k =>
      let a := default 0 (byteZ <$> clientKey !! i) in
      let b := default 0 (byteZ <$> clientSignature !! i) in
      xorLoop k (S i) clientKey clientSignature
              (<[i := zbyte (Z.lxor a b)]> clientProof)
  end.

Definition hmac (key : Buffer) (data : string) : Buffer :=
  Crypto.hmac_sha256 key (fromString data).

Section WithNormalization.

(** [String.prototype.normalize("NFKC")], a Unicode algorithm of the
    JavaScript engine. *)
Variable NFKC : string -> string.

Definition normalizePassword (password : string) : string :=
  NFKC password.

(** The result is [None] when the call throws, and otherwise the state
    object (mutated in place by the code) with the returned error. *)
Definition processSASLContinue (st : scramState) (message : Buffer)
           (password : string) : option (scramState * option string) :=
  let serverFirst := toStringAll message in
  let st1 :=
    mkScram (clientNonce st) (serverNonce st) (salt st) (iterations st)
            (clientFirstMessage st) (clientFirstMessageBare st)
            (clientFinalMessage st) (clientFinalMessageWithoutProof st)
            (Some serverFirst) (serverFinalMessage st)
            (saltedPassword st) (authMessage st) in
  let params := parseSCRAMParams serverFirst in
  let r := default EmptyString (obj_get "r" params) in
  let s := default EmptyString (obj_get "s" params) in
  let i := default EmptyString (obj_get "i" params) in
  if String.eqb r EmptyString
     || negb (startsWith r (strOf (clientNonce st1)))
  then Some (st1, Some "Server nonce does not start with client nonce")
  else if String.eqb s EmptyString || String.eqb i EmptyString
  then Some (st1,
             Some "Server first message missing salt or iteration count")
  else
    let salt' := Crypto.base64_decode s in
    let iterations' := parseInt i in
    let normalizedPassword := normalizePassword password in
    salted ← Crypto.pbkdf2Sync normalizedPassword salt' iterations' 32;
    let clientKey := hmac salted "Client Key" in
    let storedKey := Crypto.sha256 clientKey in
    let withoutProof := "c=biws,r=" +:+ r in
    let auth := join "," [joinOf (clientFirstMessageBare st1);
                          serverFirst; withoutProof] in
    let clientSignature := hmac storedKey auth in
    let clientProof :=
      xorLoop (length clientKey) 0 clientKey clientSignature
              (replicate (length clientKey) x00) in
    let final := withoutProof +:+ ",p=" +:+ Crypto.base64_encode clientProof in
    Some (mkScram (clientNonce st1) (Some r) (Some salt') iterations'
                  (clientFirstMessage st1) (clientFirstMessageBare st1)
                  (Some final) (Some withoutProof)
                  (Some serverFirst) (serverFinalMessage st1)
                  (Some salted) (Some auth),
          None).

End WithNormalization.

Definition processSASLFinal (st : scramState) (message : Buffer)
  : option (scramState * option string) :=
  let serverFinal := toStringAll message in
  let st1 :=
    mkScram (clientNonce st) (serverNonce st) (salt st) (iterations st)
            (clientFirstMessage st) (clientFirstMessageBare st)
            (clientFinalMessage st) (clientFinalMessageWithoutProof st)
            (serverFirstMessage st) (Some serverFinal)
            (saltedPassword st) (authMessage st) in
  if startsWith serverFinal "e=" then
    Some (st1, Some ("SCRAM authentication failed: " +:+ serverFinal))
  else
    let params := parseSCRAMParams serverFinal in
    let v := default EmptyString (obj_get "v" params) in
    if String.eqb v EmptyString then
      Some (st1, Some "Server final message missing signature (v)")
    else
      let serverSignature := Crypto.base64_decode v in
      (* [createHmac] throws on a [null] key, [update] on [null] data *)
      salted ← saltedPassword st1;
      let serverKey := hmac salted "Server Key" in
      auth ← authMessage st1;
      let expectedServerSignature := hmac serverKey auth in
      if equals serverSignature expectedServerSignature
      then Some (st1, None)
      else Some (st1, Some "Server signature verification failed").

End Scram.

(* ===================================================================== *)
(** ** src/messageBuilder.mjs *)
(* ===================================================================== *)

Module Builder.
Import Buf.

(** ['Q'], ['p'] and ['X'] of [MESSAGE_TYPES]. *)
Definition QUERY : byte := x51.
Definition PASSWORD_MESSAGE : byte := x70.
Definition TERMINATE : byte := x58.

Definition createStartupPacket (user database encoding : string) : Buffer :=
  let protocolVersion := 196608 in
  let params := [("user", user); ("database", database);
                 ("client_encoding",
                  if String.eqb encoding EmptyString then "utf8" else encoding)]
  in
  let body :=
    fold_left (fun body kv =>
                 (body ++ fromString (fst kv) ++ [x00])
                   ++ fromString (snd kv) ++ [x00])
              params (int32BE protocolVersion) in
  let body := body ++ [x00] in
  int32BE (len body + 4) ++ body.

Definition createSimpleQueryPacket (sql : string) : Buffer :=
  let queryBuffer := fromString sql in
  [QUERY] ++ int32BE (4 + len queryBuffer + 1) ++ queryBuffer ++ [x00].

Definition createPasswordPacket (password : string)
           (addNullTerminator : bool) : Buffer :=
  let passwordBuffer := fromString password in
  let nullTermLength := if addNullTerminator then 1 else 0 in
  [PASSWORD_MESSAGE]
    ++ int32BE (4 + len passwordBuffer + nullTermLength)
    ++ passwordBuffer
    ++ (if addNullTerminator then [x00] else []).

Definition createTerminationPacket : Buffer :=
  [TERMINATE; x00; x00; x00; x04].

Definition createSASLInitialResponsePacket (mechanism clientFirstMessage : string)
  : Buffer :=
  let clientFirstMessageBuffer := fromString clientFirstMessage in
  let body := fromString mechanism ++ [x00]
              ++ int32BE (len clientFirstMessageBuffer)
              ++ clientFirstMessageBuffer in
  [PASSWORD_MESSAGE] ++ int32BE (4 + len body) ++ body.

End Builder.

(* ===================================================================== *)
(** ** The framing loop of src/pgConnection.mjs *)
(* ===================================================================== *)

Module Framer.
Import Buf.

(** One turn of the [while] loop of [_processIncomingData]. *)
Inductive turn : Type :=
| Wait : turn                                     (* leave the loop *)
| Resync (rest : Buffer) : turn                   (* drop one byte, go on *)
| Dispatch (message rest : Buffer) : turn.        (* a complete frame *)

Definition frameTurn (buffer : Buffer) : turn :=
  if len buffer <? 5 then Wait
  else
    match readInt32BE buffer 1 with
    | None => Wait
    | Some length =>
        if length <? 4 then Resync (sliceFrom buffer 1)
        else
          let totalMessageLength := length + 1 in
          if len buffer <? totalMessageLength then Wait
          else Dispatch (slice buffer 0 totalMessageLength)
                        (sliceFrom buffer totalMessageLength)
    end.

(** The loop, over any receiver state [St]: [handle] stands for
    [this._processMessage], which may throw ([None]).  Each turn that
    goes on shortens the buffer, so [length buffer] turns are enough. *)
Fixpoint frameLoop {St : Type} (handle : Buffer -> St -> option St)
         (fuel : nat) (buffer : Buffer) (s : St) : option (Buffer * St) :=
  match fuel with
  | O => Some (buffer, s)
  | S k =>
      match frameTurn buffer with
      | Wait => Some (buffer, s)
      | Resync rest => frameLoop handle k rest s
      | Dispatch message rest =>
          s' ← handle message s;
          frameLoop handle k rest s'
      end
  end.

Definition processIncomingData {St : Type} (handle : Buffer -> St -> option St)
           (buffer : Buffer) (s : St) : option (Buffer * St) :=
  frameLoop handle (length buffer) buffer s.

(** The ["data"] listener: append the chunk, then run the loop. *)
Definition onData {St : Type} (handle : Buffer -> St -> option St)
           (buffer : Buffer) (s : St) (data : Buffer) : option (Buffer * St) :=
  processIncomingData handle (buffer ++ data) s.

(** Feeding a sequence of chunks, one ["data"] event each. *)
Fixpoint feed {St : Type} (handle : Buffer -> St -> option St)
         (buffer : Buffer) (s : St) (chunks : list Buffer)
  : option (Buffer * St) :=
  match chunks with
  | [] => Some (buffer, s)
  | data :: more =>
      '(buffer', s') ← onData handle buffer s data;
      feed handle buffer' s' more
  end.

(** A receiver that only records what it is handed. *)
Definition record (message : Buffer) (log : list Buffer)
  : option (list Buffer) := Some (log ++ [message]).

(** The wire form of a typed server message: the type byte, the length
    of the rest (the four length bytes included), the body. *)
Definition frame (type : byte) (body : Buffer) : Buffer :=
  type :: int32BE (4 + len body) ++ body.

End Framer.

(* ===================================================================== *)
(** ** The connection object of src/pgConnection.mjs *)
(* ===================================================================== *)

Module Conn.
Import Buf JS Parser Scram Builder Framer.

(** The [config] argument of the constructor; [None] is an absent field. *)
Record config : Type := mkConfig {
  cfg_host : option string;
  cfg_port : option Z;
  cfg_database : option string;
  cfg_user : option string;
  cfg_password : option string
}.

(** [x || d] on an optional string: absent and empty both give [d]. *)
Definition strOr (x : option string) (d : string) : string :=
  match x with
  | Some v => if String.eqb v EmptyString then d else v
  | None => d
  end.

Definition numOr (x : option Z) (d : Z) : Z :=
  match x with
  | Some v => if v =? 0 then d else v
  | None => d
  end.

(** The values [this.state] takes. *)
Inductive connState : Type := disconnected | connected | error.

(** An [Error]: its message and, for a server error, its [fields]. *)
Record jsError : Type := mkError {
  message : string;
  errFields : option (obj string)
}.

Definition newError (msg : string) : jsError := mkError msg None.

Inductive promise (A : Type) : Type :=
| Pending : promise A
| Resolved : A -> promise A
| Rejected : jsError -> promise A.
Arguments Pending {A}.
Arguments Resolved {A} _.
Arguments Rejected {A} _.

(** Settling a promise: only the first call of [resolve] or [reject]
    counts. *)
Definition settle {A : Type} (p new : promise A) : promise A :=
  match p with Pending => new | _ => p end.

(** What [query] resolves with.  [qoid] is [None] for [undefined]. *)
Record queryResult : Type := mkResult {
  qrows : list row;
  qfields : option (list field);
  qcommand : string;
  qrowCount : num;
  qcommandTag : string;
  qoid : option (option num)
}.

(** The variables one call of [query] closes over, with the promise it
    returned and whether its timer is still armed. *)
Record closure : Type := mkClosure {
  results : list row;
  fields : option (list field);
  commandCompleteMessage : option Buffer;
  outcome : promise queryResult;
  timer : bool
}.

(** Listeners registered on the socket. *)
Inductive readyListener : Type :=
| ConnectReady : readyListener             (* [onReadyForQuery] of [connect] *)
| QueryReady (q : nat) : readyListener.    (* [onReadyForQuery] of call [q] *)

Inductive errorListener : Type :=
| ConnectError : errorListener             (* the ["error"] listener of [connect] *)
| QueryError (q : nat) : errorListener.    (* [onError] of call [q] *)

Definition readyListener_eqb (a b : readyListener) : bool :=
  match a, b with
  | ConnectReady, ConnectReady => true
  | QueryReady x, QueryReady y => Nat.eqb x y
  | _, _ => false
  end.

Definition errorListener_eqb (a b : errorListener) : bool :=
  match a, b with
  | ConnectError, ConnectError => true
  | QueryError x, QueryError y => Nat.eqb x y
  | _, _ => false
  end.

(** [removeListener]: the first registered instance goes (every listener
    function is registered at most once here). *)
Fixpoint removeFirst {A : Type} (eqb : A -> A -> bool) (x : A) (l : list A)
  : list A :=
  match l with
  | [] => []
  | y :: r => if eqb x y then r else y :: removeFirst eqb x r
  end.

Record socket : Type := mkSocket {
  written : list Buffer;              (* what [socket.write] was given *)
  onReady : list readyListener;       (* "readyForQuery" *)
  onError : list errorListener;       (* "error" *)
  onAuthError : bool                  (* "authenticationError": [connect]'s *)
}.

Record conn : Type := mkConn {
  host : string;
  port : Z;
  database : string;
  user : string;
  password : string;
  sock : option socket;               (* [this.socket] *)
  buffer : Buffer;
  processId : Z;
  secretKey : Z;
  encoding : string;
  state : connState;
  readyForQuery : bool;
  currentQuery : option nat;          (* the call whose closures it holds *)
  scram : scramState;
  queries : list closure;             (* the calls of [query], in order *)
  connecting : promise unit;          (* the promise of [connect] *)
  draws : nat                         (* calls of [crypto.randomBytes] *)
}.

(** [new PostgreSQLConnection(config)] *)
Definition new (cfg : config) : conn :=
  mkConn (strOr (cfg_host cfg) "localhost")
         (numOr (cfg_port cfg) 5432)
         (strOr (cfg_database cfg) "postgres")
         (strOr (cfg_user cfg) "postgres")
         (strOr (cfg_password cfg) EmptyString)
         None [] 0 0 "utf8"
         disconnected
         true
         None
         initialScram
         [] Pending 0.

(** Field updates. *)
Definition with_sock (v : option socket) (c : conn) : conn :=
  mkConn (host c) (port c) (database c) (user c) (password c) v (buffer c)
         (processId c) (secretKey c) (encoding c) (state c) (readyForQuery c)
         (currentQuery c) (scram c) (queries c) (connecting c) (draws c).
Definition with_buffer (v : Buffer) (c : conn) : conn :=
  mkConn (host c) (port c) (database c) (user c) (password c) (sock c) v
         (processId c) (secretKey c) (encoding c) (state c) (readyForQuery c)
         (currentQuery c) (scram c) (queries c) (connecting c) (draws c).
Definition with_keys (pid key : Z) (c : conn) : conn :=
  mkConn (host c) (port c) (database c) (user c) (password c) (sock c)
         (buffer c) pid key (encoding c) (state c) (readyForQuery c)
         (currentQuery c) (scram c) (queries c) (connecting c) (draws c).
Definition with_state (v : connState) (c : conn) : conn :=
  mkConn (host c) (port c) (database c) (user c) (password c) (sock c)
         (buffer c) (processId c) (secretKey c) (encoding c) v
         (readyForQuery c) (currentQuery c) (scram c) (queries c)
         (connecting c) (draws c).
Definition with_readyForQuery (v : bool) (c : conn) : conn :=
  mkConn (host c) (port c) (database c) (user c) (password c) (sock c)
         (buffer c) (processId c) (secretKey c) (encoding c) (state c) v
         (currentQuery c) (scram c) (queries c) (connecting c) (draws c).
Definition with_currentQuery (v : option nat) (c : conn) : conn :=
  mkConn (host c) (port c) (database c) (user c) (password c) (sock c)
         (buffer c) (processId c) (secretKey c) (encoding c) (state c)
         (readyForQuery c) v (scram c) (queries c) (connecting c) (draws c).
Definition with_scram (v : scramState) (c : conn) : conn :=
  mkConn (host c) (port c) (database c) (user c) (password c) (sock c)
         (buffer c) (processId c) (secretKey c) (encoding c) (state c)
         (readyForQuery c) (currentQuery c) v (queries c) (connecting c)
         (draws c).
Definition with_queries (v : list closure) (c : conn) : conn :=
  mkConn (host c) (port c) (database c) (user c) (password c) (sock c)
         (buffer c) (processId c) (secretKey c) (encoding c) (state c)
         (readyForQuery c) (currentQuery c) (scram c) v (connecting c)
         (draws c).
Definition with_connecting (v : promise unit) (c : conn) : conn :=
  mkConn (host c) (port c) (database c) (user c) (password c) (sock c)
         (buffer c) (processId c) (secretKey c) (encoding c) (state c)
         (readyForQuery c) (currentQuery c) (scram c) (queries c) v (draws c).
Definition with_draws (v : nat) (c : conn) : conn :=
  mkConn (host c) (port c) (database c) (user c) (password c) (sock c)
         (buffer c) (processId c) (secretKey c) (encoding c) (state c)
         (readyForQuery c) (currentQuery c) (scram c) (queries c)
         (connecting c) v.

(** Updates of the socket and of one closure; without a socket, or at
    an index that names no closure, nothing changes. *)
Definition on_sock (f : socket -> socket) (c : conn) : conn :=
  with_sock (f <$> sock c) c.

Definition on_closure (q : nat) (f : closure -> closure) (c : conn) : conn :=
  with_queries (alter f q (queries c)) c.

Definition write (data : Buffer) (s : socket) : socket :=
  mkSocket (written s ++ [data]) (onReady s) (onError s) (onAuthError s).
Definition set_onReady (l : list readyListener) (s : socket) : socket :=
  mkSocket (written s) l (onError s) (onAuthError s).
Definition set_onError (l : list errorListener) (s : socket) : socket :=
  mkSocket (written s) (onReady s) l (onAuthError s).
Definition set_onAuthError (b : bool) (s : socket) : socket :=
  mkSocket (written s) (onReady s) (onError s) b.

Definition set_results (v : list row) (k : closure) : closure :=
  mkClosure v (fields k) (commandCompleteMessage k) (outcome k) (timer k).
Definition set_fields (v : option (list field)) (k : closure) : closure :=
  mkClosure (results k) v (commandCompleteMessage k) (outcome k) (timer k).
Definition set_commandCompleteMessage (v : option Buffer) (k : closure)
  : closure :=
  mkClosure (results k) (fields k) v (outcome k) (timer k).
Definition set_outcome (v : promise queryResult) (k : closure) : closure :=
  mkClosure (results k) (fields k) (commandCompleteMessage k)
            (settle (outcome k) v) (timer k).
Definition set_timer (v : bool) (k : closure) : closure :=
  mkClosure (results k) (fields k) (commandCompleteMessage k) (outcome k) v.

(** *** Promise and listener plumbing of [query] *)

(** [currentQuery.resolve(data)] and [currentQuery.reject(error)] of the
    call [q] (lines 406-414). *)
Definition resolveQuery (q : nat) (data : queryResult) (c : conn) : conn :=
  on_closure q (set_outcome (Resolved data)) (with_currentQuery None c).

Definition rejectQuery (q : nat) (e : jsError) (c : conn) : conn :=
  on_closure q (set_outcome (Rejected e))
             (with_readyForQuery true (with_currentQuery None c)).

(** [cleanup] of the call [q] (lines 424-429). *)
Definition cleanup (q : nat) (c : conn) : conn :=
  with_currentQuery None
    (on_sock (fun s =>
                set_onError
                  (removeFirst errorListener_eqb (QueryError q) (onError s))
                  (set_onReady
                     (removeFirst readyListener_eqb (QueryReady q) (onReady s))
                     s))
             (on_closure q (set_timer false) c)).

Definition noClosure : closure := mkClosure [] None None Pending false.

(** [onReadyForQuery] of the call [q] (lines 433-463).  The resolver is
    the one of whatever call is current when the event fires; the data
    come from the variables of the call [q] itself. *)
Definition queryOnReady (q : nat) (status : string) (c : conn) : conn :=
  match currentQuery c with
  | None => cleanup q c
  | Some cq =>
      let k := default noClosure (queries c !! q) in
      let data :=
        match commandCompleteMessage k with
        | Some m =>
            let parsed := parseCommandComplete m in
            mkResult (results k) (fields k) (command parsed)
                     (rowCount parsed) (commandTag parsed)
                     (Some (oid parsed))
        | None =>
            if String.eqb status "I"
            then mkResult (results k) (fields k) "EMPTY" (Int 0) "EMPTY" None
            else mkResult (results k) (fields k) "UNKNOWN" (Int 0)
                          EmptyString None
        end in
      resolveQuery cq data (cleanup q c)
  end.

(** [onError] of the call [q] (lines 465-468): the promise's own
    [reject], which does not touch [readyForQuery]. *)
Definition queryOnError (q : nat) (e : jsError) (c : conn) : conn :=
  on_closure q (set_outcome (Rejected e)) (cleanup q c).

(** *** Events emitted on the socket *)

(** A listener registered with [once] is removed just before it runs;
    [emit] calls the listeners registered when it started. *)
Definition runReady (status : string) (c : conn) (l : readyListener) : conn :=
  let c1 :=
    on_sock (fun s =>
               set_onReady (removeFirst readyListener_eqb l (onReady s)) s) c in
  match l with
  | ConnectReady =>             (* lines 105-109 *)
      with_connecting (settle (connecting c1) (Resolved tt))
        (on_sock (set_onAuthError false) (with_readyForQuery true c1))
  | QueryReady q => queryOnReady q status c1
  end.

Definition emitReady (status : string) (c : conn) : conn :=
  fold_left (runReady status) (from_option onReady [] (sock c)) c.

(** ["authenticationError"]: the only listener is [onAuthError] of
    [connect] (lines 111-114). *)
Definition emitAuthenticationError (e : jsError) (c : conn) : conn :=
  if from_option onAuthError false (sock c) then
    with_connecting (settle (connecting c) (Rejected e))
      (on_sock (fun s =>
                  set_onReady
                    (removeFirst readyListener_eqb ConnectReady (onReady s))
                    (set_onAuthError false s)) c)
  else c.

Definition runError (e : jsError) (c : conn) (l : errorListener) : conn :=
  match l with
  | ConnectError =>             (* lines 89-95: registered with [on] *)
      let c1 := with_state error c in
      with_connecting (settle (connecting c1) (Rejected e)) c1
  | QueryError q =>
      queryOnError q e
        (on_sock (fun s =>
                    set_onError
                      (removeFirst errorListener_eqb l (onError s)) s) c)
  end.

Definition emitError (e : jsError) (c : conn) : conn :=
  fold_left (runError e) (from_option onError [] (sock c)) c.

Definition socketWrite (data : Buffer) (c : conn) : conn :=
  on_sock (write data) c.

(** *** Message handlers *)

Section WithProviders.

(** What the handlers take from the JavaScript engine and from the
    crypto provider without this development describing it: Unicode
    normalization, MD5 (as lower-case hexadecimal), and the random
    bytes, [randomBytes n] being the result of the [n]-th draw. *)
Variable NFKC : string -> string.
Variable md5hex : Buffer -> string.
Variable randomBytes : nat -> Buffer.

Definition hexDigit (n : N) : ascii :=
  nth (N.to_nat n) (list_ascii_of_string "0123456789abcdef") "0"%char.

(** [buf.toString("hex")] *)
Definition toHex (b : Buffer) : string :=
  string_of_list_ascii
    (flat_map (fun x => [hexDigit (Byte.to_N x / 16);
                         hexDigit (Byte.to_N x mod 16)]) b).

Definition handleMD5Authentication (message : Buffer) (c : conn) : conn :=
  let salt := slice message 0 4 in
  let firstHash := md5hex (fromString (password c +:+ user c)) in
  let secondHash := md5hex (fromString (firstHash +:+ toHex salt)) in
  socketWrite (createPasswordPacket ("md5" +:+ secondHash) true) c.

(** The loop over the mechanism names; each turn advances [offset]. *)
Fixpoint mechanismsLoop (fuel : nat) (message : Buffer) (offset : Z)
         (mechanisms : list string) : list string :=
  match fuel with
  | O => mechanisms
  | S k =>
      if (offset <? len message)
         && negb (match sliceFrom message offset with
                  | b :: _ => Byte.eqb b x00
                  | [] => false
                  end)
      then
        let mechanism := readCString message offset in
        mechanismsLoop k message (offset + (length16 mechanism + 1))
                       (mechanisms ++ [mechanism])
      else mechanisms
  end.

Definition handleSASLAuthentication (message : Buffer) (c : conn) : conn :=
  let mechanisms := mechanismsLoop (length message) message 0 [] in
  if existsb (String.eqb "SCRAM-SHA-256") mechanisms then
    let st := startSCRAMSHA256 (randomBytes (draws c)) (scram c) (user c) in
    socketWrite
      (createSASLInitialResponsePacket "SCRAM-SHA-256"
                                       (strOf (clientFirstMessage st)))
      (with_scram st (with_draws (S (draws c)) c))
  else
    emitAuthenticationError
      (newError ("No supported SASL mechanism. Available: "
                   +:+ join ", " mechanisms)) c.

Definition handleSASLContinue (message : Buffer) (c : conn) : option conn :=
  '(st, err) ← processSASLContinue NFKC (scram c) message (password c);
  let c1 := with_scram st c in
  match err with
  | Some e => Some (emitAuthenticationError (newError e) c1)
  | None =>
      Some (socketWrite
              (createPasswordPacket (strOf (clientFinalMessage st)) false)
              c1)
  end.

Definition handleSASLFinal (message : Buffer) (c : conn) : option conn :=
  '(st, err) ← processSASLFinal (scram c) message;
  let c1 := with_scram st c in
  match err with
  | Some e => Some (emitAuthenticationError (newError e) c1)
  | None => Some c1           (* emits "authenticated": no listener *)
  end.

Definition handleAuthenticationMessage (message : Buffer) (c : conn)
  : option conn :=
  if len message <? 4 then Some c
  else
    authType ← readInt32BE message 0;
    let authData := sliceFrom message 4 in
    if authType =? 0 then Some c
    else if authType =? 3 then
      Some (socketWrite (createPasswordPacket (password c) true) c)
    else if authType =? 5 then Some (handleMD5Authentication authData c)
    else if authType =? 10 then Some (handleSASLAuthentication authData c)
    else if authType =? 11 then handleSASLContinue authData c
    else if authType =? 12 then handleSASLFinal authData c
    else
      Some (emitAuthenticationError
              (newError ("Unsupported authentication type: "
                           +:+ pretty authType)) c).

Definition handleBackendKeyData (message : Buffer) (c : conn)
  : option conn :=
  if 8 <=? len message then
    pid ← readInt32BE message 0;
    key ← readInt32BE message 4;
    Some (with_keys pid key c)
  else Some c.

(** [_handleReadyForQuery] (lines 326-330). *)
Definition handleReadyForQuery (message : Buffer) (c : conn) : conn :=
  let status := toString message 0 1 in
  emitReady status (with_readyForQuery true c).

(** [_handleErrorResponse] (lines 334-346). *)
Definition handleErrorResponse (message : Buffer) (c : conn) : conn :=
  let fs := parseNullTerminatedPairs message in
  let e := mkError (strOr (obj_get "M" fs) "PostgreSQL error") (Some fs) in
  match currentQuery c with
  | Some cq => with_currentQuery None (rejectQuery cq e c)
  | None => emitError e (emitAuthenticationError e c)
  end.

(** [_handleQueryResponse], with the handlers of the current call
    (lines 396-403). *)
Definition handleQueryResponse (cq : nat) (messageType : byte)
           (message : Buffer) (c : conn) : option conn :=
  let k := default noClosure (queries c !! cq) in
  if Byte.eqb messageType "T" then
    fs ← parseRowDescription message;
    Some (on_closure cq (set_fields (Some fs)) c)
  else if Byte.eqb messageType "D" then
    r ← parseDataRow message (fields k);
    Some (on_closure cq (set_results (results k ++ [r])) c)
  else if Byte.eqb messageType "C" then
    Some (on_closure cq (set_commandCompleteMessage (Some message)) c)
  else if Byte.eqb messageType "I" then
    Some (on_closure cq (set_commandCompleteMessage
                           (Some (fromString "EMPTY" ++ [x00]))) c)
  else Some c.

(** [_processMessage] (lines 169-208); [None] when a handler throws. *)
Definition processMessage (message : Buffer) (c : conn) : option conn :=
  if len message <? 5 then Some c
  else
    match message with
    | messageType :: _ =>
        let messageBody := sliceFrom message 5 in
        if Byte.eqb messageType "R" then
          handleAuthenticationMessage messageBody c
        else if Byte.eqb messageType "K" then
          handleBackendKeyData messageBody c
        else if Byte.eqb messageType "Z" then
          Some (handleReadyForQuery messageBody c)
        else if Byte.eqb messageType "E" then
          Some (handleErrorResponse messageBody c)
        else if Byte.eqb messageType "N" then Some c
        else if Byte.eqb messageType "S" then Some c
        else if Byte.eqb messageType "T" || Byte.eqb messageType "D"
                || Byte.eqb messageType "C" || Byte.eqb messageType "I"
                || Byte.eqb messageType "n" then
          match currentQuery c with
          | Some cq => handleQueryResponse cq messageType messageBody c
          | None => Some c
          end
        else Some c
    | [] => Some c
    end.

(** *** The calls and events of a connection *)

(** [connect()]: a socket is created and the listeners of lines
    84-117 are registered on it. *)
Definition connect (c : conn) : conn :=
  with_connecting Pending
    (with_sock (Some (mkSocket [] [ConnectReady] [ConnectError] true)) c).

(** The connection callback (lines 75-81). *)
Definition onTcpConnected (c : conn) : conn :=
  socketWrite (createStartupPacket (user c) (database c) (encoding c))
              (with_state connected c).

(** The ["data"] listener (lines 84-87). *)
Definition onSocketData (data : Buffer) (c : conn) : option conn :=
  '(rest, c') ← onData processMessage (buffer c) c data;
  Some (with_buffer rest c').

(** What a call of [query] gives back at once: a promise already
    rejected by the guard, or the pending promise of a new call. *)
Inductive called : Type :=
| Refused (e : jsError) : called
| Started (q : nat) : called.

(** [query(sql, params)] (lines 384-473).  Without a socket
    [this.socket.write] throws inside the executor, after
    [currentQuery] and the timer were set: the promise is rejected and
    the two listeners are never registered. *)
Definition query (sql : string) (params : list string) (c : conn)
  : conn * called :=
  if negb (readyForQuery c) then
    (c, Refused (newError "Connection not ready for query"))
  else
    let q := length (queries c) in
    let c1 :=
      with_currentQuery (Some q)
        (with_queries (queries c ++ [mkClosure [] None None Pending true])
           (with_readyForQuery false c)) in
    match sock c1 with
    | None =>
        (on_closure q
           (set_outcome
              (Rejected (newError
                 "Cannot read properties of null (reading 'write')")))
           c1,
         Started q)
    | Some _ =>
        (on_sock (fun s =>
                    set_onError (onError s ++ [QueryError q])
                      (set_onReady (onReady s ++ [QueryReady q]) s))
                 (socketWrite (createSimpleQueryPacket sql) c1),
         Started q)
    end.

(** The timer of the call [q] fires (lines 418-422): it rejects
    whatever call is current at that time. *)
Definition onTimeout (q : nat) (c : conn) : conn :=
  match timer <$> queries c !! q with
  | Some true =>
      let c1 := on_closure q (set_timer false) c in
      match currentQuery c1 with
      | Some cq => rejectQuery cq (newError "Query timeout") c1
      | None => c1
      end
  | _ => c
  end.

Inductive event : Type :=
| Connect : event                        (* a call of [connect()] *)
| TcpConnected : event                   (* the connection callback *)
| Data (chunk : Buffer) : event          (* ["data"] on the socket *)
| SocketError (e : jsError) : event      (* ["error"] on the socket *)
| SocketClosed : event                   (* ["close"] or ["end"] *)
| Query (sql : string) (params : list string) : event
| TimerFired (q : nat) : event.             (* the 30 s timer of call [q] *)

(** One event.  [None]: a handler throws and nothing catches it, or
    the event lies outside this model (a second [connect()], an event
    of a socket that does not exist). *)
Definition step (c : conn) (e : event) : option conn :=
  match e with
  | Connect =>
      match sock c with None => Some (connect c) | Some _ => None end
  | Query sql params => Some (fst (query sql params c))
  | TimerFired q => Some (onTimeout q c)
  | _ =>
      match sock c with
      | None => None
      | Some _ =>
          match e with
          | TcpConnected => Some (onTcpConnected c)
          | Data chunk => onSocketData chunk c
          | SocketError err => Some (emitError err c)
          | SocketClosed => Some (with_state disconnected c)
          | _ => None
          end
      end
  end.

Fixpoint run (c : conn) (es : list event) : option conn :=
  match es with
  | [] => Some c
  | e :: more => c' ← step c e; run c' more
  end.

End WithProviders.

End Conn.

(* ===================================================================== *)
(** ** The wire format read by the decoder *)
(* ===================================================================== *)

(** The server's side of a DataRow (section 4.2 of the specification):
    the client only reads it, so the layout is written here to state what
    decoding gives back. *)

Module Wire.
Import Buf JS Parser.

Definition encodeColumn (c : option Buffer) : Buffer :=
  match c with
  | None => int32BE (-1)
  | Some v => int32BE (len v) ++ v
  end.


Definition columnValue (c : option Buffer) : value :=
  match c with
  | None => Null
  | Some v => Str (toStringAll v)
  end.

Definition fits (c : option Buffer) : Prop :=
  match c with
  | None => True
  | Some v => len v < 2 ^ 31
  end.

Fixpoint assign (fs : list field) (cs : list (option Buffer)) (r : row) : row :=
  match fs, cs with
  | f :: fs', c :: cs' =>
      assign fs' cs' (obj_set is_null (name f) (columnValue c) r)
  | _, _ => r
  end.

End Wire.

(* ===================================================================== *)
(** ** Statements about the command tag *)
(* ===================================================================== *)

Module Stated.
Import Buf JS Parser.

(** Equality of two strings up to the case of their letters. *)
Definition caseless (s t : string) : Prop := toLowerCase s = toLowerCase t.

Definition token (parts : list string) (i : nat) : string :=
  default EmptyString (parts !! i).

Definition zeroIfNaN (n : num) : num := if isNaN n then Int 0 else n.

(** C7 as the specification words it. *)
Definition commandComplete_as_stated : Prop :=
  forall message : Buffer,
    let parts := split " " (readCString message 0) in
    let r := parseCommandComplete message in
    command r = token parts 0
    /\ (length parts = 3%nat /\ caseless (token parts 0) "INSERT" ->
        oid r = Some (parseInt (token parts 1))
        /\ rowCount r = parseInt (token parts 2))
    /\ (~ (length parts = 3%nat /\ caseless (token parts 0) "INSERT") ->
        oid r = None
        /\ rowCount r = zeroIfNaN (parseInt (List.last parts EmptyString))).

End Stated.

(* ===================================================================== *)
(** ** Streams of server messages *)
(* ===================================================================== *)

Module Stream.
Import Buf Framer.

(** A typed server message: its type byte and its body. *)
Definition message : Type := byte * Buffer.

(** Well-formed: the length field fits a positive [int32]. *)
Definition wellFormed (m : message) : Prop := 4 + len (snd m) < 2 ^ 31.

Definition frameOf (m : message) : Buffer := frame (fst m) (snd m).

Definition stream (ms : list message) : Buffer := concat (map frameOf ms).

(** Handing a list of frames to a receiver, one after the other, until
    one of the calls throws. *)
Fixpoint dispatchAll {St : Type} (handle : Buffer -> St -> option St)
         (frames : list Buffer) (s : St) : option St :=
  match frames with
  | [] => Some s
  | m :: more => s' ← handle m s; dispatchAll handle more s'
  end.

(** What is left in the accumulator between two frames: nothing once
    every message went out, otherwise less than the next frame. *)
Definition shortOf (rest : Buffer) (ms : list message) : Prop :=
  match ms with
  | [] => rest = []
  | m :: _ => len rest < len (frameOf m)
  end.

End Stream.

(* ===================================================================== *)
(** ** The SCRAM exchange of RFC 7677 *)
(* ===================================================================== *)

Module ScramSpec.
Import Buf JS Parser Scram.

(** Byte-wise exclusive or of two buffers. *)
Definition xorByte (a b : byte) : byte := zbyte (Z.lxor (byteZ a) (byteZ b)).
Definition xorBuffers (a b : Buffer) : Buffer := zip_with xorByte a b.

(** The test vector of RFC 7677, section 3. *)
Definition rfc_user : string := "user".
Definition rfc_password : string := "pencil".
Definition rfc_clientNonce : string := "rOprNGfwEbeRWgbNEkqO".
Definition rfc_serverFirst : string :=
  "r=rOprNGfwEbeRWgbNEkqO%hvYDpWUa2RaTCAfuxFIlj)hNlF$k0,s=W22ZaJ0SNY7soEsUEjb6gQ==,i=4096".
Definition rfc_clientFinal : string :=
  "c=biws,r=rOprNGfwEbeRWgbNEkqO%hvYDpWUa2RaTCAfuxFIlj)hNlF$k0,p=dHzbZapWIk4jUhN+Ute9ytag9zjfMHgsqmmiz7AndVQ=".
Definition rfc_clientProof : string :=
  "dHzbZapWIk4jUhN+Ute9ytag9zjfMHgsqmmiz7AndVQ=".
Definition rfc_serverFinal : string :=
  "v=6rriTRBi23WpRR/wtup+mMhUZUn/dB5nLTJRsjl95G4=".
Definition rfc_serverSignature : string :=
  "6rriTRBi23WpRR/wtup+mMhUZUn/dB5nLTJRsjl95G4=".

(** The state after [startSCRAMSHA256] when the nonce drawn is the
    RFC's. *)
Definition rfc_started : scramState :=
  mkScram (Some rfc_clientNonce) None None (Int 0)
          (Some ("n,,n=" +:+ saslName rfc_user +:+ ",r=" +:+ rfc_clientNonce))
          (Some ("n=" +:+ saslName rfc_user +:+ ",r=" +:+ rfc_clientNonce))
          None None None None None None.

Definition rfc_vector (NFKC : string -> string) : Prop :=
  exists st1 st2,
    processSASLContinue NFKC rfc_started (fromString rfc_serverFirst)
                        rfc_password = Some (st1, None)
    /\ clientFinalMessage st1 = Some rfc_clientFinal
    /\ (exists salted auth,
           saltedPassword st1 = Some salted /\ authMessage st1 = Some auth
           /\ Crypto.base64_encode
                (xorBuffers (hmac salted "Client Key")
                   (hmac (Crypto.sha256 (hmac salted "Client Key")) auth))
              = rfc_clientProof
           /\ hmac (hmac salted "Server Key") auth
              = Crypto.base64_decode rfc_serverSignature)
    /\ processSASLFinal st1 (fromString rfc_serverFinal) = Some (st2, None).

End ScramSpec.

(* ===================================================================== *)
(** ** Runs of a connection *)
(* ===================================================================== *)

Module Trace.
Import Buf JS Parser Scram Builder Framer Conn.

(** The frames the loop hands to its receiver, in order. *)
Fixpoint frames (fuel : nat) (buffer : Buffer) : list Buffer :=
  match fuel with
  | O => []
  | S k =>
      match frameTurn buffer with
      | Wait => []
      | Resync rest => frames k rest
      | Dispatch message rest => message :: frames k rest
      end
  end.

(** The frames dispatched when [data] arrives on the accumulator
    [buffer]. *)
Definition dispatched (buffer data : Buffer) : list Buffer :=
  frames (length (buffer ++ data)) (buffer ++ data).

Definition typeOf (message : Buffer) : option byte := head message.

Definition isReadyForQuery (message : Buffer) : Prop :=
  typeOf message = Some "Z"%byte.
Definition isErrorResponse (message : Buffer) : Prop :=
  typeOf message = Some "E"%byte.

Section WithProviders.
Variable NFKC : string -> string.
Variable md5hex : Buffer -> string.
Variable randomBytes : nat -> Buffer.

(** [allow ok c es]: every event of [es], taken in the state it
    occurs in, satisfies [ok]. *)
Fixpoint allow (ok : conn -> event -> Prop) (c : conn) (es : list event)
  : Prop :=
  match es with
  | [] => True
  | e :: more =>
      ok c e
      /\ match step NFKC md5hex randomBytes c e with
         | Some c' => allow ok c' more
         | None => True
         end
  end.

End WithProviders.

(** No ReadyForQuery is processed by the event. *)
Definition noReady (c : conn) (e : event) : Prop :=
  match e with
  | Data chunk => Forall (fun m => ~ isReadyForQuery m) (dispatched (buffer c) chunk)
  | _ => True
  end.

(** Neither a ReadyForQuery nor an ErrorResponse is processed, and no
    timer fires. *)
Definition quiet (c : conn) (e : event) : Prop :=
  match e with
  | Data chunk =>
      Forall (fun m => ~ isReadyForQuery m /\ ~ isErrorResponse m)
             (dispatched (buffer c) chunk)
  | TimerFired _ => False
  | _ => True
  end.

Definition notReady : jsError := newError "Connection not ready for query".

End Trace.

Module Samples.
Import Buf JS Parser Scram Builder Framer Conn Trace Wire.

(** Providers for the concrete runs below (none of them is consulted by
    the frames used). *)
Definition plainNFKC (p : string) : string := p.
Definition noMd5 (b : Buffer) : string := EmptyString.
Definition fixedRandom (n : nat) : Buffer := replicate 18 x41.

Definition sampleConfig : config :=
  mkConfig None None None (Some "postgres"%string) (Some "postgres"%string).

(** AuthenticationOk, ReadyForQuery (idle) and an ErrorResponse. *)
Definition authenticationOk : Buffer := frame "R" (int32BE 0).
Definition readyIdle : Buffer := frame "Z" (fromString "I").
Definition errorResponse : Buffer :=
  frame "E" (fromString "SERROR" ++ [x00] ++ fromString "C42P01" ++ [x00]
               ++ fromString "Mrelation does not exist" ++ [x00; x00]).

Definition runSample : conn -> list event -> option conn :=
  run plainNFKC noMd5 fixedRandom.

(** A connection that has completed its start-up. *)
Definition startUp : list event :=
  [Connect; TcpConnected; Data (authenticationOk ++ readyIdle)].

(** C3 as the specification words it: once a call of [query] has failed
    with the timeout error, no later call succeeds (a call the guard
    refuses has no promise to resolve, so it satisfies this). *)
Definition timeout_is_fatal_as_stated : Prop :=
  forall (es : list event) (c : conn) (p q : nat) (r : queryResult),
    runSample (new sampleConfig) es = Some c ->
    outcome <$> queries c !! p = Some (Rejected (newError "Query timeout")) ->
    (p < q)%nat ->
    outcome <$> queries c !! q ≠ Some (Resolved r).

(** C9 as the specification words it: from the moment a Query was
    written until a ReadyForQuery is processed, every further call of
    [query] is refused and changes nothing. *)
Definition concurrency_guard_as_stated : Prop :=
  forall (es0 es : list event) (c0 c1 c2 : conn) sql params (q : nat),
    runSample (new sampleConfig) es0 = Some c0 ->
    sock c0 ≠ None ->
    query sql params c0 = (c1, Started q) ->
    runSample c1 es = Some c2 ->
    allow plainNFKC noMd5 fixedRandom noReady c1 es ->
    forall sql' params', query sql' params' c2 = (c2, Refused notReady).


Definition fieldNamed (n : string) : field := mkField n 0 0 25 (-1) (-1) 0.

(** The state a sequence of events leads a new connection to. *)
Definition afterRun (es : list event) : conn :=
  default (new sampleConfig) (runSample (new sampleConfig) es).

(** A query the server does not answer in time. *)
Definition timedOut : list event :=
  startUp ++ [Query "SELECT pg_sleep(60)" []].

(** After the time-out of the first call a second call is accepted, and
    the ReadyForQuery that arrives next resolves it. *)
Definition afterTimeout : list event :=
  timedOut ++ [TimerFired 0; Query "SELECT 2" []; Data readyIdle].

(** A query the server answers with an ErrorResponse. *)
Definition failing : list event :=
  startUp ++ [Query "SELECT * FROM nope" []].

(** The first bytes of a RowDescription frame. *)
Definition partialRow : Buffer := [x54; x00; x00].

End Samples.

(* ===================================================================== *)
(** ** Text carried by the protocol *)
(* ===================================================================== *)

Module Text.
Import Buf JS.

(** Bytes a C string can carry. *)
Definition noNul (bs : Buffer) : Prop := Forall (fun b => b <> x00) bs.

(** ASCII text without NUL: one UTF-16 unit for each byte. *)
Definition asciiText (bs : Buffer) : Prop :=
  Forall (fun b => b <> x00 /\ byteZ b < 128) bs.

(** [s.includes(c)] *)
Fixpoint hasChar (c : ascii) (s : string) : bool :=
  match s with
  | EmptyString => false
  | String a r => Ascii.eqb a c || hasChar c r
  end.

(** Decimal numerals, most significant digit first. *)
Definition isDigit (d : Z) : Prop := 0 <= d <= 9.

Definition digitChar (d : Z) : ascii := ascii_of_N (Z.to_N (48 + d)).

Fixpoint numeral (ds : list Z) : string :=
  match ds with
  | [] => EmptyString
  | d :: r => String (digitChar d) (numeral r)
  end.

Definition numeralValue (ds : list Z) : Z :=
  fold_left (fun acc d => acc * 10 + d) ds 0.

End Text.

(* ===================================================================== *)
(** ** What a server sends *)
(* ===================================================================== *)

(** The client only reads these messages; their layout (the PostgreSQL
    wire protocol, version 3.0) is written here to state what the
    decoders give back. *)

Module Server.
Import Buf JS Parser Text.

Definition cstring (t : Buffer) : Buffer := t ++ [x00].

Definition int32 (z : Z) : Prop := - 2 ^ 31 <= z < 2 ^ 31.
Definition int16 (z : Z) : Prop := - 2 ^ 15 <= z < 2 ^ 15.

(** The body of an ErrorResponse: fields made of a code byte and a C
    string, closed by a zero byte. *)
Definition encodePair (p : byte * Buffer) : Buffer :=
  fst p :: cstring (snd p).

Definition encodePairs (l : list (byte * Buffer)) : Buffer :=
  concat (map encodePair l) ++ [x00].

Definition pairFits (p : byte * Buffer) : Prop :=
  asciiText [fst p] /\ asciiText (snd p).

Definition pairEntry (p : byte * Buffer) : string * string :=
  (toStringAll [fst p], toStringAll (snd p)).

(** The map a sequence of assignments builds: a later entry replaces an
    earlier one of the same key. *)
Definition collect (entries : list (string * string)) : gmap string string :=
  list_to_map (reverse entries).

(** The body of a RowDescription. *)
Definition encodeField (f : field) : Buffer :=
  cstring (fromString (name f))
    ++ int32BE (tableOID f) ++ int16BE (columnAttrNum f)
    ++ int32BE (dataTypeOID f) ++ int16BE (dataTypeSize f)
    ++ int32BE (typeModifier f) ++ int16BE (format f).

Definition encodeRowDescription (fs : list field) : Buffer :=
  int16BE (Z.of_nat (length fs)) ++ concat (map encodeField fs).

Definition fieldFits (f : field) : Prop :=
  asciiText (fromString (name f))
  /\ int32 (tableOID f) /\ int16 (columnAttrNum f)
  /\ int32 (dataTypeOID f) /\ int16 (dataTypeSize f)
  /\ int32 (typeModifier f) /\ int16 (format f).

(** A list of C strings closed by a zero byte: the mechanism names of an
    AuthenticationSASL message, the parameters of a start-up packet. *)
Definition cstrings (ts : list Buffer) : Buffer :=
  concat (map cstring ts) ++ [x00].

Definition mechanismFits (m : Buffer) : Prop := m <> [] /\ asciiText m.

(** A SCRAM message: attributes [k=v] separated by commas. *)
Definition attribute (kv : string * string) : string :=
  fst kv +:+ "=" +:+ snd kv.

Definition attributes (l : list (string * string)) : string :=
  join "," (map attribute l).

Definition attributeFits (kv : string * string) : Prop :=
  fst kv <> EmptyString /\ fst kv <> "__proto__"%string
  /\ hasChar "=" (fst kv) = false /\ hasChar "," (fst kv) = false
  /\ hasChar "=" (snd kv) = false /\ hasChar "," (snd kv) = false.

(** Reading a [saslname] back (RFC 5802, section 5.1). *)
Fixpoint unescape (s : string) : string :=
  match s with
  | String "=" (String "2" (String "C" r)) => String "," (unescape r)
  | String "=" (String "3" (String "D" r)) => String "=" (unescape r)
  | String a r => String a (unescape r)
  | EmptyString => EmptyString
  end.

End Server.

(* ===================================================================== *)
(** ** Exchanges with a server *)
(* ===================================================================== *)

Module Session.
Import Buf JS Parser Scram Builder Framer Conn Stream Wire Text Server.

(** A connection at rest after [connect()] has succeeded: the socket is
    open, nothing is buffered, no call of [query] is in flight and the
    only listener left is the ["error"] listener of [connect]. *)
Definition idle (c : conn) : Prop :=
  readyForQuery c = true /\ currentQuery c = None /\ buffer c = []
  /\ exists s, sock c = Some s /\ onReady s = [] /\ onError s = [ConnectError].







(** The start-up of a connection that authenticates with a clear-text
    password: what the server sends after the start-up packet, and after
    the password. *)
Definition passwordRequest : list message := [("R"%byte, int32BE 3)].

Definition welcome (pid key : Z) (status : byte) : list message :=
  [("R"%byte, int32BE 0); ("K"%byte, int32BE pid ++ int32BE key);
   ("Z"%byte, [status])].

(** The connection [welcome] leaves behind. *)
Definition established (cfg : config) (pid key : Z) : conn :=
  let c := new cfg in
  mkConn (host c) (port c) (database c) (user c) (password c)
         (Some (mkSocket [createStartupPacket (user c) (database c) "utf8";
                          createPasswordPacket (password c) true]
                         [] [ConnectError] false))
         [] pid key "utf8" connected true None initialScram []
         (Resolved tt) 0.

(** The connection a start-up leaves behind when it fails with the
    error [e] after the start-up packet was written; [st] is the state
    it is left in. *)
Definition refused (cfg : config) (st : connState) (e : jsError) : conn :=
  let c := new cfg in
  mkConn (host c) (port c) (database c) (user c) (password c)
         (Some (mkSocket [createStartupPacket (user c) (database c) "utf8"]
                         [] [ConnectError] false))
         [] 0 0 "utf8" st true None initialScram [] (Rejected e) 0.

(** The authentication requests the client knows. *)
Definition knownAuth : list Z := [0; 3; 5; 10; 11; 12].

(** The types of message the client acts upon; every other one
    (NoticeResponse, ParameterStatus, NoData, the completions of the
    extended protocol, ...) is read and dropped. *)
Definition relevant (m : message) : bool :=
  existsb (Byte.eqb (fst m))
          ["R"%byte; "K"%byte; "Z"%byte; "E"%byte;
           "T"%byte; "D"%byte; "C"%byte; "I"%byte].

(** The scram state once the server's final message was stored. *)
Definition withServerFinal (st : scramState) (message : Buffer) : scramState :=
  mkScram (clientNonce st) (serverNonce st) (salt st) (iterations st)
          (clientFirstMessage st) (clientFirstMessageBare st)
          (clientFinalMessage st) (clientFinalMessageWithoutProof st)
          (serverFirstMessage st) (Some (toStringAll message))
          (saltedPassword st) (authMessage st).

Section Receiving.

Variable NFKC : string -> string.
Variable md5hex : Buffer -> string.
Variable randomBytes : nat -> Buffer.

(** The ["data"] listener run on each chunk in turn, as long as no
    handler throws. *)
Fixpoint receive (chunks : list Buffer) (c : conn) : option conn :=
  match chunks with
  | [] => Some c
  | data :: more =>
      c' ← onSocketData NFKC md5hex randomBytes data c;
      receive more c'
  end.

End Receiving.

End Session.

(* ===================================================================== *)
(** ** Facts about buffers *)
(* ===================================================================== *)

Module BufFacts.
Import Buf.

Lemma byteZ_range b : 0 <= byteZ b < 256.
Proof.
  unfold byteZ. pose proof (Byte.to_N_bounded b). lia.
Qed.

Lemma byteZ_zbyte z : byteZ (zbyte z) = z mod 256.
Proof.
  unfold byteZ, zbyte.
  pose proof (Z.mod_pos_bound z 256 ltac:(lia)) as Hr.
  destruct (Byte.of_N (Z.to_N (z mod 256))) as [b|] eqn:E.
  - apply Byte.to_of_N in E. rewrite E. lia.
  - apply Byte.of_N_None_iff in E. lia.
Qed.

Lemma len_app (a b : Buffer) : len (a ++ b) = len a + len b.
Proof. unfold len. rewrite length_app. lia. Qed.

Lemma len_nonneg (a : Buffer) : 0 <= len a.
Proof. unfold len. lia. Qed.

Lemma len_int32BE z : len (int32BE z) = 4.
Proof. reflexivity. Qed.

Lemma len_int16BE z : len (int16BE z) = 2.
Proof. reflexivity. Qed.

Lemma sliceFrom_app (pre post : Buffer) :
  sliceFrom (pre ++ post) (len pre) = post.
Proof.
  unfold sliceFrom, len. rewrite Nat2Z.id. by rewrite drop_app_length.
Qed.

Lemma slice_mid (pre v post : Buffer) :
  slice (pre ++ v ++ post) (len pre) (len pre + len v) = v.
Proof.
  unfold slice. fold (sliceFrom (pre ++ v ++ post) (len pre)).
  rewrite sliceFrom_app.
  replace (len pre + len v - len pre) with (len v) by lia.
  unfold len. rewrite Nat2Z.id. by rewrite take_app_length.
Qed.

Lemma be_value_int32BE z : be_value 0 (int32BE z) = z mod 2 ^ 32.
Proof.
  unfold int32BE. cbn [be_value]. rewrite !byteZ_zbyte.
  change (2 ^ 32) with 4294967296.
  pose proof (Z.div_mod z 256 ltac:(lia)).
  pose proof (Z.div_mod (z / 256) 256 ltac:(lia)).
  pose proof (Z.div_mod (z / 256 / 256) 256 ltac:(lia)).
  pose proof (Z.div_mod (z / 256 / 256 / 256) 256 ltac:(lia)).
  replace (z / 65536) with (z / 256 / 256)
    by (rewrite Z.div_div by lia; reflexivity).
  replace (z / 16777216) with (z / 256 / 256 / 256)
    by (rewrite !Z.div_div by lia; reflexivity).
  pose proof (Z.mod_pos_bound z 256 ltac:(lia)).
  pose proof (Z.mod_pos_bound (z / 256) 256 ltac:(lia)).
  pose proof (Z.mod_pos_bound (z / 256 / 256) 256 ltac:(lia)).
  pose proof (Z.mod_pos_bound (z / 256 / 256 / 256) 256 ltac:(lia)).
  apply Z.mod_unique_pos with (q := z / 256 / 256 / 256 / 256); lia.
Qed.

Lemma be_value_int16BE z : be_value 0 (int16BE z) = z mod 2 ^ 16.
Proof.
  unfold int16BE. cbn [be_value]. rewrite !byteZ_zbyte.
  change (2 ^ 16) with 65536.
  pose proof (Z.div_mod z 256 ltac:(lia)).
  pose proof (Z.div_mod (z / 256) 256 ltac:(lia)).
  pose proof (Z.mod_pos_bound z 256 ltac:(lia)).
  pose proof (Z.mod_pos_bound (z / 256) 256 ltac:(lia)).
  apply Z.mod_unique_pos with (q := z / 256 / 256); lia.
Qed.

Lemma to_signed_mod32 z :
  - 2 ^ 31 <= z < 2 ^ 31 -> to_signed 32 (z mod 2 ^ 32) = z.
Proof.
  intros Hz. unfold to_signed.
  change (32 - 1) with 31.
  change (2 ^ 31) with 2147483648 in *. change (2 ^ 32) with 4294967296.
  destruct (Z_lt_le_dec z 0).
  - replace (z mod 4294967296) with (z + 4294967296)
      by (apply Z.mod_unique_pos with (q := -1); lia).
    destruct (Z.ltb_spec (z + 4294967296) 2147483648); lia.
  - rewrite Z.mod_small by lia.
    destruct (Z.ltb_spec z 2147483648); lia.
Qed.

Lemma to_signed_mod16 z :
  - 2 ^ 15 <= z < 2 ^ 15 -> to_signed 16 (z mod 2 ^ 16) = z.
Proof.
  intros Hz. unfold to_signed.
  change (16 - 1) with 15.
  change (2 ^ 15) with 32768 in *. change (2 ^ 16) with 65536.
  destruct (Z_lt_le_dec z 0).
  - replace (z mod 65536) with (z + 65536)
      by (apply Z.mod_unique_pos with (q := -1); lia).
    destruct (Z.ltb_spec (z + 65536) 32768); lia.
  - rewrite Z.mod_small by lia.
    destruct (Z.ltb_spec z 32768); lia.
Qed.

Lemma readInt32BE_mid (pre post : Buffer) z :
  - 2 ^ 31 <= z < 2 ^ 31 ->
  readInt32BE (pre ++ int32BE z ++ post) (len pre) = Some z.
Proof.
  intros Hz. unfold readInt32BE.
  pose proof (len_nonneg pre). pose proof (len_nonneg post).
  rewrite !len_app, len_int32BE.
  destruct (Z.leb_spec 0 (len pre)); [|lia].
  destruct (Z.leb_spec (len pre + 4) (len pre + (4 + len post))); [|lia].
  cbn [andb].
  change 4 with (len (int32BE z)) at 1.
  rewrite slice_mid, be_value_int32BE, to_signed_mod32; done.
Qed.

Lemma readInt16BE_head (post : Buffer) z :
  - 2 ^ 15 <= z < 2 ^ 15 ->
  readInt16BE (int16BE z ++ post) 0 = Some z.
Proof.
  intros Hz. unfold readInt16BE.
  pose proof (len_nonneg post).
  rewrite len_app, len_int16BE.
  destruct (Z.leb_spec (0 + 2) (2 + len post)); [|lia].
  cbn [andb Z.leb Z.compare].
  pose proof (slice_mid [] (int16BE z) post) as Hs.
  cbn [app] in Hs. change (len []) with 0 in Hs.
  rewrite len_int16BE in Hs. rewrite Hs.
  rewrite be_value_int16BE, to_signed_mod16; done.
Qed.

Lemma toString_mid (pre v post : Buffer) :
  toString (pre ++ v ++ post) (len pre) (len pre + len v)
  = string_of_list_byte v.
Proof.
  unfold toString.
  pose proof (len_nonneg pre). pose proof (len_nonneg post).
  pose proof (len_nonneg v).
  rewrite !len_app.
  destruct (Z.ltb_spec (len pre + (len v + len post)) (len pre + len v));
    [lia|].
  assert (Hv0 : len v = 0 -> v = []).
  { unfold len. destruct v; [done|]. cbn. lia. }
  destruct (Z.leb_spec (len pre) 0).
  - assert (pre = []) as -> by (destruct pre; [done|]; unfold len in *; cbn in *; lia).
    change (len []) with 0. cbn [app]. rewrite Z.add_0_l.
    destruct (Z.leb_spec (len v) 0).
    + rewrite Hv0 by lia. reflexivity.
    + pose proof (slice_mid [] v post) as Hs. cbn [app] in Hs.
      change (len []) with 0 in Hs. rewrite Z.add_0_l in Hs. by rewrite Hs.
  - destruct (Z.leb_spec (len pre + (len v + len post)) (len pre)).
    + rewrite Hv0 by lia. reflexivity.
    + destruct (Z.leb_spec (len pre + len v) (len pre)).
      * rewrite Hv0 by lia. reflexivity.
      * by rewrite slice_mid.
Qed.

End BufFacts.

(* ===================================================================== *)
(** ** Facts about the decoder *)
(* ===================================================================== *)

Module DataRowFacts.
Import Buf JS Parser Wire BufFacts.



Lemma len_encodeColumn c : 4 <= len (encodeColumn c).
Proof.
  destruct c as [v|]; cbn [encodeColumn].
  - rewrite len_app, len_int32BE. pose proof (len_nonneg v). lia.
  - rewrite len_int32BE. lia.
Qed.





End DataRowFacts.

Module CommandFacts.
Import Buf JS Parser Stated.

Lemma split_aux_nonempty c cur s : split_aux c cur s ≠ [].
Proof.
  revert cur. induction s as [|a s IH]; intros cur; cbn; [done|].
  destruct (Ascii.eqb a c); [done|apply IH].
Qed.

Lemma split_nonempty c s : split c s ≠ [].
Proof. apply split_aux_nonempty. Qed.

Lemma removelast_first (l : list string) :
  (2 <= length l)%nat -> removelast l !! 0%nat = l !! 0%nat.
Proof.
  destruct l as [|a [|b l]]; cbn; intros; try lia. done.
Qed.

Lemma insert_test (p : string) :
  String.eqb (toLowerCase p) "insert" = true <-> caseless p "INSERT".
Proof.
  unfold caseless. change (toLowerCase "INSERT") with "insert"%string.
  apply String.eqb_eq.
Qed.

Lemma parseCommandComplete_cases (message : Buffer) :
  let parts := split " " (readCString message 0) in
  let r := parseCommandComplete message in
  commandTag r = readCString message 0
  /\ command r = token parts 0
  /\ (length parts = 3%nat /\ caseless (token parts 0) "INSERT" ->
      oid r = Some (parseInt (token parts 1))
      /\ rowCount r = parseInt (token parts 2))
  /\ (~ (length parts = 3%nat /\ caseless (token parts 0) "INSERT") ->
      oid r = None
      /\ ((2 <= length parts)%nat ->
          rowCount r = zeroIfNaN (parseInt (List.last parts EmptyString)))
      /\ (length parts = 1%nat -> rowCount r = Int 0)).
Proof.
  intros parts r. subst r. unfold parseCommandComplete. fold parts.
  unfold token.
  destruct (Nat.eqb_spec (length parts) 3) as [H3|H3];
    [destruct (String.eqb (toLowerCase (default EmptyString (parts !! 0%nat))) "insert") eqn:Hins|].
  - cbn [andb command commandTag oid rowCount].
    split; [done|]. split; [done|]. split; [done|].
    intros Hn. exfalso. apply Hn. split; [done|].
    by apply insert_test.
  - cbn [andb].
    destruct (Nat.leb_spec 2 (length parts)); [|lia].
    cbn [command commandTag oid rowCount].
    split; [done|]. split; [by rewrite removelast_first|].
    split.
    + intros [_ Hc]. apply insert_test in Hc. unfold token in Hc. congruence.
    + intros _. split; [done|]. split; [done|]. intros; lia.
  - cbn [andb].
    destruct (Nat.leb_spec 2 (length parts)).
    + cbn [command commandTag oid rowCount].
      split; [done|]. split; [by rewrite removelast_first|].
      split; [intros [? _]; lia|].
      intros _. split; [done|]. split; [done|]. intros; lia.
    + cbn [command commandTag oid rowCount].
      split; [done|]. split; [done|].
      split; [intros [? _]; lia|].
      intros _. split; [done|]. split; [intros; lia|done].
Qed.

End CommandFacts.

(* ===================================================================== *)
(** ** Facts about the framing loop *)
(* ===================================================================== *)

Module FramerFacts.
Import Buf Framer Stream BufFacts.

Lemma len_frame t body : len (frame t body) = 5 + len body.
Proof.
  unfold frame. change (t :: int32BE (4 + len body) ++ body)
    with ([t] ++ int32BE (4 + len body) ++ body).
  rewrite !len_app, len_int32BE. change (len [t]) with 1. lia.
Qed.

Lemma readInt32BE_weaken (b q : Buffer) off z :
  readInt32BE b off = Some z -> readInt32BE (b ++ q) off = Some z.
Proof.
  unfold readInt32BE. pose proof (len_nonneg q).
  destruct (Z.leb_spec 0 off); [|done].
  destruct (Z.leb_spec (off + 4) (len b)); [|done].
  cbn [andb]. intros Hz. rewrite len_app.
  destruct (Z.leb_spec (off + 4) (len b + len q)); [|lia].
  rewrite <- Hz. do 3 f_equal.
  unfold slice. rewrite drop_app_le by (unfold len in *; lia).
  rewrite take_app_le; [done|].
  rewrite length_drop. unfold len in *. lia.
Qed.

Lemma readInt32BE_prefix (b q : Buffer) off :
  0 <= off -> off + 4 <= len b ->
  readInt32BE b off = readInt32BE (b ++ q) off.
Proof.
  intros H0 H4. destruct (readInt32BE b off) as [z|] eqn:E.
  - symmetry. by apply readInt32BE_weaken.
  - unfold readInt32BE in E.
    destruct (Z.leb_spec 0 off); [|lia].
    destruct (Z.leb_spec (off + 4) (len b)); [|lia]. done.
Qed.

Lemma frame_header t body q :
  4 + len body < 2 ^ 31 ->
  readInt32BE (frame t body ++ q) 1 = Some (4 + len body).
Proof.
  intros Hwf. pose proof (len_nonneg body).
  unfold frame.
  change ((t :: int32BE (4 + len body) ++ body) ++ q)
    with ([t] ++ int32BE (4 + len body) ++ (body ++ q)).
  change 1 with (len [t]) at 1.
  apply readInt32BE_mid. lia.
Qed.

(** A complete frame at the head of the accumulator is dispatched. *)
Lemma frameTurn_complete m q :
  wellFormed m -> frameTurn (frameOf m ++ q) = Dispatch (frameOf m) q.
Proof.
  intros Hwf. unfold frameTurn, frameOf, wellFormed in *.
  destruct m as [t body]; cbn [fst snd] in *.
  pose proof (len_nonneg body). pose proof (len_nonneg q).
  rewrite len_app, len_frame.
  destruct (Z.ltb_spec (5 + len body + len q) 5); [lia|].
  rewrite frame_header by done.
  destruct (Z.ltb_spec (4 + len body) 4); [lia|].
  destruct (Z.ltb_spec (5 + len body + len q) (4 + len body + 1)); [lia|].
  f_equal.
  - pose proof (slice_mid [] (frame t body) q) as Hs.
    cbn [app] in Hs. change (len []) with 0 in Hs.
    rewrite len_frame in Hs. rewrite <- Hs at 2. f_equal. lia.
  - replace (4 + len body + 1) with (len (frame t body))
      by (rewrite len_frame; lia).
    apply sliceFrom_app.
Qed.

(** A strict prefix of a frame is left waiting. *)
Lemma frameTurn_partial m (b q q' : Buffer) :
  wellFormed m -> b ++ q = frameOf m ++ q' -> len b < len (frameOf m) ->
  frameTurn b = Wait.
Proof.
  intros Hwf Heq Hlt. unfold frameTurn.
  destruct (Z.ltb_spec (len b) 5); [done|].
  destruct m as [t body]. unfold frameOf, wellFormed in *.
  cbn [fst snd] in *. rewrite len_frame in Hlt.
  rewrite (readInt32BE_prefix b q) by lia.
  rewrite Heq, frame_header by done.
  destruct (Z.ltb_spec (4 + len body) 4); [pose proof (len_nonneg body); lia|].
  destruct (Z.ltb_spec (len b) (4 + len body + 1)); [done|lia].
Qed.

Lemma frameLoop_Wait {St} (handle : Buffer -> St -> option St) fuel b s :
  frameTurn b = Wait -> frameLoop handle fuel b s = Some (b, s).
Proof. intros H. destruct fuel; cbn; [done|]. by rewrite H. Qed.

Lemma app_eq_split (b q f r : Buffer) :
  b ++ q = f ++ r -> len f <= len b -> exists b', b = f ++ b' /\ b' ++ q = r.
Proof.
  intros Heq Hlen. exists (drop (length f) b).
  assert (Hf : take (length f) b = f).
  { apply (f_equal (take (length f))) in Heq.
    rewrite take_app_le in Heq by (unfold len in *; lia).
    by rewrite take_app_length in Heq. }
  split.
  - rewrite <- Hf at 1. by rewrite take_drop.
  - apply (f_equal (drop (length f))) in Heq.
    rewrite drop_app_le in Heq by (unfold len in *; lia).
    by rewrite drop_app_length in Heq.
Qed.

Lemma dispatchAll_app {St} (handle : Buffer -> St -> option St) xs ys s :
  dispatchAll handle (xs ++ ys) s
  = s' ← dispatchAll handle xs s; dispatchAll handle ys s'.
Proof.
  revert s. induction xs as [|x xs IH]; intros s; cbn; [done|].
  destruct (handle x s); cbn; [apply IH|done].
Qed.

Lemma dispatchAll_record xs log :
  dispatchAll record xs log = Some (log ++ xs).
Proof.
  revert log. induction xs as [|x xs IH]; intros log; cbn.
  - by rewrite app_nil_r.
  - rewrite IH. by rewrite <- app_assoc.
Qed.

(** The loop on a prefix of a stream of well-formed frames: the frames
    that are complete go to the receiver, the rest waits. *)
Lemma frameLoop_stream {St} (handle : Buffer -> St -> option St) ms :
  forall (b q : Buffer) fuel,
  Forall wellFormed ms ->
  b ++ q = stream ms ->
  (length b <= fuel)%nat ->
  exists ms1 ms2 rest,
    ms = ms1 ++ ms2
    /\ (forall s, frameLoop handle fuel b s
                  = s' ← dispatchAll handle (map frameOf ms1) s;
                    Some (rest, s'))
    /\ rest ++ q = stream ms2
    /\ shortOf rest ms2.
Proof.
  induction ms as [|m ms IH]; intros b q fuel Hwf Heq Hfuel.
  - cbn in Heq. apply app_eq_nil in Heq as [-> ->].
    exists [], [], []. split; [done|].
    split; [intros s; by apply frameLoop_Wait|]. done.
  - inversion Hwf as [|? ? Hm Hms]; subst.
    change (stream (m :: ms)) with (frameOf m ++ stream ms) in Heq.
    destruct (Z_lt_le_dec (len b) (len (frameOf m))) as [Hshort|Hlong].
    + exists [], (m :: ms), b. split; [done|]. split.
      * intros s. apply frameLoop_Wait. by eapply frameTurn_partial.
      * done.
    + destruct (app_eq_split _ _ _ _ Heq Hlong) as (b' & -> & Hrest).
      destruct fuel as [|fuel].
      { destruct m as [t body]. unfold frameOf in Hfuel. cbn in Hfuel. lia. }
      destruct (IH b' q fuel Hms Hrest)
        as (ms1 & ms2 & rest & -> & Hloop & Hq & Hshort).
      { rewrite length_app in Hfuel. destruct m as [t body].
        unfold frameOf in Hfuel. cbn in Hfuel. lia. }
      exists (m :: ms1), ms2, rest.
      split; [done|]. split; [|done].
      intros s. cbn [frameLoop map dispatchAll].
      rewrite frameTurn_complete by done.
      destruct (handle (frameOf m) s) as [s1|]; cbn; [apply Hloop|done].
Qed.

Lemma feed_stream {St} (handle : Buffer -> St -> option St) chunks :
  forall ms (b : Buffer) s,
  Forall wellFormed ms ->
  b ++ concat chunks = stream ms ->
  shortOf b ms ->
  feed handle b s chunks
  = s' ← dispatchAll handle (map frameOf ms) s; Some ([], s').
Proof.
  induction chunks as [|data chunks IH]; intros ms b s Hwf Heq Hshort.
  - cbn in Heq. rewrite app_nil_r in Heq. subst b.
    destruct ms as [|m ms].
    + reflexivity.
    + cbn [shortOf] in Hshort.
      change (stream (m :: ms)) with (frameOf m ++ stream ms) in Hshort.
      rewrite len_app in Hshort. pose proof (len_nonneg (stream ms)). lia.
  - cbn [feed concat] in *. unfold onData, processIncomingData.
    rewrite app_assoc in Heq.
    destruct (frameLoop_stream handle ms (b ++ data) (concat chunks)
                (length (b ++ data)) Hwf Heq ltac:(lia))
      as (ms1 & ms2 & rest & -> & Hloop & Hq & Hs).
    rewrite Hloop, map_app, dispatchAll_app.
    apply Forall_app in Hwf as [_ Hwf2].
    destruct (dispatchAll handle (map frameOf ms1) s) as [s1|]; cbn; [|done].
    apply (IH ms2 rest s1 Hwf2 Hq Hs).
Qed.

(** Whatever is dispatched was wholly in the accumulator. *)
Lemma frameTurn_dispatch (b m rest : Buffer) :
  frameTurn b = Dispatch m rest ->
  exists declared,
    readInt32BE b 1 = Some declared
    /\ 1 + declared <= len b
    /\ len m = 1 + declared
    /\ b = m ++ rest.
Proof.
  unfold frameTurn. destruct (Z.ltb_spec (len b) 5); [done|].
  destruct (readInt32BE b 1) as [L|]; [|done].
  destruct (Z.ltb_spec L 4); [done|].
  destruct (Z.ltb_spec (len b) (L + 1)); [done|].
  intros [= <- <-]. exists L.
  split; [done|]. split; [lia|].
  unfold slice, sliceFrom. split.
  - unfold len in *. rewrite length_take, drop_0. lia.
  - rewrite drop_0. replace (L + 1 - 0) with (L + 1) by lia.
    by rewrite take_drop.
Qed.

(** While fewer than [1 + declared] bytes are there, the loop leaves the
    accumulator and the receiver as they are. *)
Lemma frameLoop_incomplete {St} (handle : Buffer -> St -> option St)
      fuel (b : Buffer) s declared :
  readInt32BE b 1 = Some declared -> 4 <= declared ->
  len b < 1 + declared ->
  frameLoop handle fuel b s = Some (b, s).
Proof.
  intros Hd H4 Hlt. apply frameLoop_Wait. unfold frameTurn.
  destruct (Z.ltb_spec (len b) 5); [done|]. rewrite Hd.
  destruct (Z.ltb_spec declared 4); [lia|].
  destruct (Z.ltb_spec (len b) (declared + 1)); [done|lia].
Qed.

End FramerFacts.

(* ===================================================================== *)
(** ** Facts about the SCRAM engine *)
(* ===================================================================== *)

Module ScramFacts.
Import Buf JS Parser Scram ScramSpec BufFacts.

Lemma prefix_app (p s : string) :
  String.prefix p s = true <-> exists t, s = (p +:+ t)%string.
Proof.
  revert s. induction p as [|a p IH]; intros s.
  - split; [intros _; exists s; reflexivity|intros _; by destruct s].
  - destruct s as [|b s]; cbn.
    + split; [done|intros [t Ht]; discriminate].
    + destruct (Ascii.ascii_dec a b) as [->|Hne].
      * rewrite IH. split; intros [t Ht]; exists t; [by rewrite Ht|].
        by injection Ht.
      * split; [done|]. intros [t Ht]. injection Ht as Hab _. congruence.
Qed.

(** *** The hash has 32 bytes *)

Lemma compress_length h block :
  length h = 8%nat -> length (Crypto.compress h block) = 8%nat.
Proof.
  intros Hh. do 9 (destruct h as [|? h]; try discriminate). reflexivity.
Qed.

Lemma blocks_length fuel : forall h bs,
  length h = 8%nat -> length (Crypto.blocks fuel h bs) = 8%nat.
Proof.
  induction fuel as [|fuel IH]; intros h bs Hh; cbn [Crypto.blocks]; [done|].
  destruct bs; [done|]. apply IH. by apply compress_length.
Qed.

Lemma sha256_length m : length (Crypto.sha256 m) = 32%nat.
Proof.
  unfold Crypto.sha256.
  pose proof (blocks_length (length (Crypto.pad m)) Crypto.H0 (Crypto.pad m)
                eq_refl) as Hl.
  destruct (Crypto.blocks _ _ _) as [|? h]; [discriminate|].
  do 8 (destruct h as [|? h]; try discriminate). reflexivity.
Qed.

Lemma hmac_length key data : length (hmac key data) = 32%nat.
Proof. apply sha256_length. Qed.

(** *** The loop computing the proof *)

Lemma xorLoop_spec turns : forall i (k s p : Buffer),
  length k = length s -> length p = length k ->
  (i + turns)%nat = length k ->
  take i p = xorBuffers (take i k) (take i s) ->
  xorLoop turns i k s p = xorBuffers k s.
Proof.
  unfold Buffer. induction turns as [|turns IH]; intros i k s p Hks Hp Hi Hdone.
  - cbn. rewrite Nat.add_0_r in Hi. subst i.
    rewrite <- Hp, firstn_all in Hdone. rewrite Hdone.
    by rewrite Hp, firstn_all, Hks, firstn_all.
  - cbn [xorLoop]. unfold Buffer.
    destruct (lookup_lt_is_Some_2 k i ltac:(lia)) as [a Ha].
    destruct (lookup_lt_is_Some_2 s i ltac:(lia)) as [b Hb].
    rewrite Ha, Hb. cbn [fmap option_fmap option_map default].
    apply IH; [done|by rewrite length_insert|lia|].
    rewrite (take_S_r k i a Ha), (take_S_r s i b Hb).
    unfold xorBuffers. rewrite zip_with_app by (rewrite !length_take; lia).
    rewrite (take_S_r _ i (zbyte (Z.lxor (byteZ a) (byteZ b)))).
    + rewrite take_insert_ge by lia. by rewrite Hdone.
    + apply list_lookup_insert_eq. lia.
Qed.

Lemma xorLoop_all (k s : Buffer) :
  length k = length s ->
  xorLoop (length k) 0 k s (replicate (length k) x00) = xorBuffers k s.
Proof.
  intros Hks. apply xorLoop_spec; [done|by rewrite length_replicate|done|done].
Qed.

(** *** Only the normalized password matters *)

Lemma processSASLContinue_ext (N1 N2 : string -> string) st message password :
  N1 password = N2 password ->
  processSASLContinue N1 st message password
  = processSASLContinue N2 st message password.
Proof.
  intros H. unfold processSASLContinue, normalizePassword. by rewrite H.
Qed.

(** *** The RFC 7677 exchange, computed *)

Lemma rfc_vector_id : rfc_vector (fun p => p).
Proof.
  unfold rfc_vector.
  let v := eval vm_compute in
    (processSASLContinue (fun p => p) rfc_started
                         (fromString rfc_serverFirst) rfc_password) in
  match v with
  | Some (?st1, None) =>
      exists st1;
      let w := eval vm_compute in
        (processSASLFinal st1 (fromString rfc_serverFinal)) in
      match w with
      | Some (?st2, None) => exists st2
      end
  end.
  split; [match goal with |- _ = ?rhs => vm_cast_no_check (eq_refl rhs) end|].
  split; [reflexivity|].
  split; [|vm_compute; reflexivity].
  do 2 eexists. split; [reflexivity|]. split; [reflexivity|].
  split; vm_compute; reflexivity.
Qed.

End ScramFacts.

(* ===================================================================== *)
(** ** Facts about the connection *)
(* ===================================================================== *)

Module ConnFacts.
Import Buf JS Parser Scram Builder Framer Conn Trace.

Lemma frameLoop_frames {St} (handle : Buffer -> St -> option St)
      (P : St -> Prop) (Q : Buffer -> Prop) :
  (forall m s s', Q m -> handle m s = Some s' -> P s -> P s') ->
  forall fuel b s rest s',
    Forall Q (frames fuel b) ->
    frameLoop handle fuel b s = Some (rest, s') -> P s -> P s'.
Proof.
  intros Hstep. induction fuel as [|fuel IH]; intros b s rest s' HQ Hloop Hs.
  - cbn in Hloop. by injection Hloop as _ <-.
  - cbn [frameLoop frames] in *. destruct (frameTurn b) as [|r|m r].
    + by injection Hloop as _ <-.
    + by eapply IH.
    + inversion HQ as [|? ? Hm Hr]; subst.
      destruct (handle m s) as [s1|] eqn:E; [|done].
      cbn in Hloop. eapply IH; [done|done|]. by eapply Hstep.
Qed.

(** A frame of some type is among those dispatched, when the property
    of the receiver changes. *)
Lemma frameLoop_change {St} (handle : Buffer -> St -> option St)
      (P : St -> Prop) (Q : Buffer -> Prop) :
  (forall m s s', handle m s = Some s' -> P s -> ~ P s' -> Q m) ->
  (forall s, P s \/ ~ P s) ->
  forall fuel b s rest s',
    frameLoop handle fuel b s = Some (rest, s') -> P s -> ~ P s' ->
    Exists Q (frames fuel b).
Proof.
  intros Hstep Hdec. induction fuel as [|fuel IH]; intros b s rest s' Hloop Hs Hs'.
  - cbn in Hloop. injection Hloop as _ <-. done.
  - cbn [frameLoop frames] in *. destruct (frameTurn b) as [|r|m r].
    + injection Hloop as _ <-. done.
    + by eapply IH.
    + destruct (handle m s) as [s1|] eqn:E; [|done]. cbn in Hloop.
      destruct (Hdec s1) as [H1|H1].
      * apply Exists_cons_tl. by eapply IH.
      * apply Exists_cons_hd. by eapply Hstep.
Qed.

Lemma byte_eqb_spec (x y : byte) : reflect (x = y) (Byte.eqb x y).
Proof.
  destruct (Byte.eqb x y) eqn:E; constructor.
  - by apply Byte.byte_dec_bl.
  - intros ->. by rewrite Byte.byte_dec_lb in E.
Qed.

(** *** What touches [readyForQuery] *)

Lemma ready_on_sock f c : readyForQuery (on_sock f c) = readyForQuery c.
Proof. reflexivity. Qed.
Lemma ready_on_closure q f c : readyForQuery (on_closure q f c) = readyForQuery c.
Proof. reflexivity. Qed.
Lemma ready_cleanup q c : readyForQuery (cleanup q c) = readyForQuery c.
Proof. reflexivity. Qed.
Lemma ready_resolveQuery q d c : readyForQuery (resolveQuery q d c) = readyForQuery c.
Proof. reflexivity. Qed.
Lemma ready_rejectQuery q e c : readyForQuery (rejectQuery q e c) = true.
Proof. reflexivity. Qed.

Lemma ready_queryOnReady q status c :
  readyForQuery (queryOnReady q status c) = readyForQuery c.
Proof. unfold queryOnReady. by destruct (currentQuery c). Qed.

Lemma ready_runReady status c l :
  readyForQuery c = true -> readyForQuery (runReady status c l) = true.
Proof.
  intros H. destruct l; cbn [runReady]; [done|].
  by rewrite ready_queryOnReady.
Qed.

Lemma ready_emitReady status c :
  readyForQuery c = true -> readyForQuery (emitReady status c) = true.
Proof.
  unfold emitReady. generalize (from_option onReady [] (sock c)).
  intros l. revert c. induction l as [|x l IH]; intros c H; [done|].
  cbn [fold_left]. apply IH. by apply ready_runReady.
Qed.

Lemma ready_emitAuthenticationError e c :
  readyForQuery (emitAuthenticationError e c) = readyForQuery c.
Proof. unfold emitAuthenticationError. by destruct (from_option _ _ _). Qed.

Lemma ready_runError e c l : readyForQuery (runError e c l) = readyForQuery c.
Proof. by destruct l. Qed.

Lemma ready_emitError e c : readyForQuery (emitError e c) = readyForQuery c.
Proof.
  unfold emitError. generalize (from_option onError [] (sock c)).
  intros l. revert c. induction l as [|x l IH]; intros c; [done|].
  cbn [fold_left]. by rewrite IH, ready_runError.
Qed.

Lemma ready_handleReadyForQuery body c :
  readyForQuery (handleReadyForQuery body c) = true.
Proof. by apply ready_emitReady. Qed.

Lemma ready_handleErrorResponse_inflight body c q :
  currentQuery c = Some q -> readyForQuery (handleErrorResponse body c) = true.
Proof. intros H. unfold handleErrorResponse. by rewrite H. Qed.

Lemma ready_handleErrorResponse body c :
  readyForQuery c = true -> readyForQuery (handleErrorResponse body c) = true.
Proof.
  intros H. unfold handleErrorResponse. destruct (currentQuery c); [done|].
  by rewrite ready_emitError, ready_emitAuthenticationError.
Qed.

Section WithProviders.
Variable NFKC : string -> string.
Variable md5hex : Buffer -> string.
Variable randomBytes : nat -> Buffer.

Lemma ready_handleAuthenticationMessage body c c' :
  handleAuthenticationMessage NFKC md5hex randomBytes body c = Some c' ->
  readyForQuery c' = readyForQuery c.
Proof.
  unfold handleAuthenticationMessage.
  destruct (len body <? 4); [by intros [= <-]|].
  destruct (readInt32BE body 0) as [t|]; [|done]. cbn [mbind option_bind].
  destruct (t =? 0); [by intros [= <-]|].
  destruct (t =? 3); [by intros [= <-]|].
  destruct (t =? 5); [by intros [= <-]|].
  destruct (t =? 10).
  { intros [= <-]. unfold handleSASLAuthentication.
    destruct (existsb _ _); [done|]. by rewrite ready_emitAuthenticationError. }
  destruct (t =? 11).
  { unfold handleSASLContinue.
    destruct (processSASLContinue _ _ _ _) as [[st [e|]]|]; cbn;
      intros [= <-]; [|done]. by rewrite ready_emitAuthenticationError. }
  destruct (t =? 12).
  { unfold handleSASLFinal.
    destruct (processSASLFinal _ _) as [[st [e|]]|]; cbn;
      intros [= <-]; [|done]. by rewrite ready_emitAuthenticationError. }
  intros [= <-]. by rewrite ready_emitAuthenticationError.
Qed.

Lemma ready_handleBackendKeyData body c c' :
  handleBackendKeyData body c = Some c' ->
  readyForQuery c' = readyForQuery c.
Proof.
  unfold handleBackendKeyData. destruct (8 <=? len body); [|by intros [= <-]].
  destruct (readInt32BE body 0); [|done].
  destruct (readInt32BE body 4); [|done]. by intros [= <-].
Qed.

Lemma ready_handleQueryResponse cq t body c c' :
  handleQueryResponse cq t body c = Some c' ->
  readyForQuery c' = readyForQuery c.
Proof.
  unfold handleQueryResponse.
  destruct (Byte.eqb t "T").
  { destruct (parseRowDescription body); [|done]. by intros [= <-]. }
  destruct (Byte.eqb t "D").
  { destruct (parseDataRow body _); [|done]. by intros [= <-]. }
  destruct (Byte.eqb t "C"); [by intros [= <-]|].
  destruct (Byte.eqb t "I"); by intros [= <-].
Qed.

(** A message that changes the flag is a ReadyForQuery or an
    ErrorResponse, and the change is to [true]. *)
Lemma processMessage_ready m c c' :
  processMessage NFKC md5hex randomBytes m c = Some c' ->
  readyForQuery c' ≠ readyForQuery c ->
  readyForQuery c' = true /\ (isReadyForQuery m \/ isErrorResponse m).
Proof.
  unfold processMessage, isReadyForQuery, isErrorResponse, typeOf.
  destruct (len m <? 5); [by intros [= <-]|].
  destruct m as [|t m]; [by intros [= <-]|]. cbn [head].
  destruct (byte_eqb_spec t "R").
  { intros H Hn. by apply ready_handleAuthenticationMessage in H. }
  destruct (byte_eqb_spec t "K").
  { intros H Hn. by apply ready_handleBackendKeyData in H. }
  destruct (byte_eqb_spec t "Z") as [->|].
  { intros [= <-] _. split; [apply ready_handleReadyForQuery|by left]. }
  destruct (byte_eqb_spec t "E") as [->|].
  { intros [= <-] Hn. split; [|by right].
    destruct (readyForQuery c) eqn:Hc.
    - by apply ready_handleErrorResponse.
    - by destruct (readyForQuery (handleErrorResponse _ c)). }
  destruct (Byte.eqb t "N"); [by intros [= <-]|].
  destruct (Byte.eqb t "S"); [by intros [= <-]|].
  destruct (_ || _); [|by intros [= <-]].
  destruct (currentQuery c); [|by intros [= <-]].
  intros H Hn. by apply ready_handleQueryResponse in H.
Qed.

Lemma onSocketData_quiet chunk c c' :
  onSocketData NFKC md5hex randomBytes chunk c = Some c' ->
  Forall (fun m => ~ isReadyForQuery m /\ ~ isErrorResponse m)
         (dispatched (buffer c) chunk) ->
  readyForQuery c' = readyForQuery c.
Proof.
  unfold onSocketData, onData, processIncomingData, dispatched.
  destruct (frameLoop _ _ _ _) as [[rest c1]|] eqn:E; [|done].
  cbn. intros [= <-] HQ. cbn.
  eapply (frameLoop_frames _ (fun s => readyForQuery s = readyForQuery c)
            (fun m => ~ isReadyForQuery m /\ ~ isErrorResponse m));
    [|exact HQ|exact E|done].
  intros m s s' [Hz He] Hm Hs.
  destruct (bool_decide (readyForQuery s' = readyForQuery s)) eqn:Hd.
  - apply bool_decide_eq_true in Hd. congruence.
  - apply bool_decide_eq_false in Hd.
    destruct (processMessage_ready _ _ _ Hm Hd) as [_ [?|?]]; done.
Qed.

(** When a chunk raises the flag, one of the frames it completes is
    a ReadyForQuery or an ErrorResponse. *)
Lemma onSocketData_raises chunk c c' :
  onSocketData NFKC md5hex randomBytes chunk c = Some c' ->
  readyForQuery c = false -> readyForQuery c' = true ->
  Exists (fun m => isReadyForQuery m \/ isErrorResponse m)
         (dispatched (buffer c) chunk).
Proof.
  unfold onSocketData, onData, processIncomingData, dispatched.
  destruct (frameLoop _ _ _ _) as [[rest c1]|] eqn:E; [|done].
  cbn. intros [= <-] Hc Hc'. cbn in Hc'.
  eapply (frameLoop_change _ (fun s => readyForQuery s = false)
            (fun m => isReadyForQuery m \/ isErrorResponse m));
    [| |exact E|done|congruence].
  - intros m s s' Hm Hs Hs'.
    apply (processMessage_ready _ _ _ Hm). congruence.
  - intros s. destruct (readyForQuery s); [by right|by left].
Qed.

(** A chunk never lowers the flag. *)
Lemma onSocketData_keeps chunk c c' :
  onSocketData NFKC md5hex randomBytes chunk c = Some c' ->
  readyForQuery c = true -> readyForQuery c' = true.
Proof.
  unfold onSocketData, onData, processIncomingData.
  destruct (frameLoop _ _ _ _) as [[rest c1]|] eqn:E; [|done].
  cbn. intros [= <-] Hc. cbn.
  eapply (frameLoop_frames _ (fun s => readyForQuery s = true)
            (fun _ => True)); [| |exact E|done].
  - intros m s s' _ Hm Hs.
    destruct (bool_decide (readyForQuery s' = readyForQuery s)) eqn:Hd.
    + apply bool_decide_eq_true in Hd. congruence.
    + apply bool_decide_eq_false in Hd.
      by destruct (processMessage_ready _ _ _ Hm Hd).
  - apply Forall_forall. done.
Qed.

Lemma query_refused sql ps c :
  readyForQuery c = false ->
  query sql ps c = (c, Refused notReady).
Proof. intros H. unfold query. by rewrite H. Qed.

Lemma query_started sql ps c :
  readyForQuery c = true ->
  snd (query sql ps c) = Started (length (queries c))
  /\ readyForQuery (fst (query sql ps c)) = false
  /\ currentQuery (fst (query sql ps c)) = Some (length (queries c))
  /\ (forall s, sock c = Some s ->
      written <$> sock (fst (query sql ps c))
      = Some (written s ++ [createSimpleQueryPacket sql])).
Proof.
  intros H. unfold query. rewrite H. cbn [negb].
  destruct (sock c) as [s|] eqn:Es; cbn; rewrite ?Es; cbn.
  - split; [done|]. split; [done|]. split; [done|].
    intros s0 [= <-]. by rewrite Es.
  - split; [done|]. split; [done|]. split; [done|]. done.
Qed.

Lemma ready_onTimeout q c :
  readyForQuery c = true -> readyForQuery (onTimeout q c) = true.
Proof.
  intros H. unfold onTimeout.
  destruct (timer <$> queries c !! q) as [[|]|]; try done.
  cbn. by destruct (currentQuery c).
Qed.

(** One quiet event leaves a lowered flag lowered. *)
Lemma step_quiet c e c' :
  step NFKC md5hex randomBytes c e = Some c' ->
  quiet c e -> readyForQuery c = false -> readyForQuery c' = false.
Proof.
  intros Hstep Hq Hc. destruct e as [| |chunk|err| |sql ps|q]; cbn in Hstep, Hq.
  - destruct (sock c); [done|]. by injection Hstep as <-.
  - destruct (sock c); [|done]. by injection Hstep as <-.
  - destruct (sock c); [|done].
    by rewrite (onSocketData_quiet _ _ _ Hstep Hq).
  - destruct (sock c); [|done]. injection Hstep as <-.
    by rewrite ready_emitError.
  - destruct (sock c); [|done]. by injection Hstep as <-.
  - injection Hstep as <-. by rewrite query_refused.
  - done.
Qed.

Lemma run_quiet es : forall c c',
  run NFKC md5hex randomBytes c es = Some c' ->
  allow NFKC md5hex randomBytes quiet c es ->
  readyForQuery c = false -> readyForQuery c' = false.
Proof.
  induction es as [|e es IH]; intros c c' Hrun Hq Hc.
  - by injection Hrun as <-.
  - cbn [run allow] in *. destruct Hq as [Hq Hmore].
    destruct (step NFKC md5hex randomBytes c e) as [c1|] eqn:E; [|done].
    cbn in Hrun. eapply IH; [done|done|]. by eapply step_quiet.
Qed.

End WithProviders.
End ConnFacts.

(* ===================================================================== *)
(** ** The claims *)
(* ===================================================================== *)

Module Claims.
Import Buf JS Parser Scram Builder Framer Conn.
Import Wire Stated Stream ScramSpec Trace Samples.
Import BufFacts DataRowFacts CommandFacts FramerFacts ScramFacts ConnFacts.

(** C1.  The proof sent in the client-final message.  For a state whose
    client nonce is set and a server-first body that carries [r] (not
    empty, starting with the client nonce), [s] and an iteration count [i]
    between 1 and 2^31 - 1, [processSASLContinue] returns without error
    and leaves: the salted password
    PBKDF2-HMAC-SHA-256(NFKC(password), base64Decode(s), int(i), 32), the
    auth message [clientFirstMessageBare , serverFirstMessage , c=biws,r=r],
    and the client-final message [c=biws,r=r,p=base64(clientProof)], where
    clientProof is the byte-wise exclusive or of
    clientKey = HMAC(saltedPassword, "Client Key") and
    clientSignature = HMAC(SHA-256(clientKey), authMessage), both 32 bytes
    long.  On the exchange of RFC 7677, section 3, the client-final
    message and the expected server signature are the RFC's, bit for bit,
    and [processSASLFinal] accepts the RFC's server-final message.  The
    state [startSCRAMSHA256] leaves has the base64 of the random bytes
    as client nonce and [n=saslName(user),r=nonce] as
    clientFirstMessageBare. *)
Theorem scram_client_proof (NFKC : string -> string) :
  (forall (st : scramState) (message : Buffer) (password : string)
          (cn r s i : string) (c : Z),
      clientNonce st = Some cn ->
      let serverFirst := toStringAll message in
      let params := parseSCRAMParams serverFirst in
      obj_get "r" params = Some r -> r ≠ EmptyString ->
      startsWith r cn = true ->
      obj_get "s" params = Some s -> s ≠ EmptyString ->
      obj_get "i" params = Some i -> parseInt i = Int c ->
      1 <= c <= 2147483647 ->
      let salted :=
        Crypto.pbkdf2_sha256 (fromString (NFKC password))
                             (Crypto.base64_decode s) (Z.to_N c) 32 in
      let clientKey := Crypto.hmac_sha256 salted (fromString "Client Key") in
      let auth :=
        (joinOf (clientFirstMessageBare st) +:+ "," +:+ serverFirst
           +:+ "," +:+ ("c=biws,r=" +:+ r))%string in
      let clientSignature :=
        Crypto.hmac_sha256 (Crypto.sha256 clientKey) (fromString auth) in
      let clientProof := xorBuffers clientKey clientSignature in
      exists st',
        processSASLContinue NFKC st message password = Some (st', None)
        /\ serverNonce st' = Some r
        /\ salt st' = Some (Crypto.base64_decode s)
        /\ iterations st' = Int c
        /\ saltedPassword st' = Some salted
        /\ authMessage st' = Some auth
        /\ clientFinalMessage st'
           = Some (("c=biws,r=" +:+ r) +:+ ",p="
                     +:+ Crypto.base64_encode clientProof)%string
        /\ length clientKey = 32%nat
        /\ length clientSignature = 32%nat
        /\ length clientProof = 32%nat)
  /\ (NFKC rfc_password = rfc_password -> rfc_vector NFKC)
  /\ (forall (random : Buffer) (st : scramState) (user : string),
         let nonce := Crypto.base64_encode random in
         let started := startSCRAMSHA256 random st user in
         clientNonce started = Some nonce
         /\ clientFirstMessageBare started
            = Some ("n=" +:+ saslName user +:+ ",r=" +:+ nonce)%string
         /\ clientFirstMessage started
            = Some ("n,," +:+ "n=" +:+ saslName user +:+ ",r=" +:+ nonce)%string).
Proof.
  split; [|split; [|by intros random st user]].
  - intros st message password cn r s i c Hcn serverFirst params
           Hr Hr0 Hpre Hs Hs0 Hi Hc Hrange
           salted clientKey auth clientSignature clientProof.
    assert (Hi0 : i ≠ EmptyString) by (intros ->; discriminate).
    assert (Hk : length clientKey = 32%nat) by apply sha256_length.
    assert (Hg : length clientSignature = 32%nat) by apply sha256_length.
    unfold processSASLContinue. fold serverFirst. fold params.
    cbn [clientNonce clientFirstMessageBare].
    rewrite Hcn, Hr, Hs, Hi. change (strOf (Some cn)) with cn.
    cbn [default from_option id].
    destruct (String.eqb_spec r EmptyString); [done|].
    rewrite Hpre.
    destruct (String.eqb_spec s EmptyString); [done|].
    destruct (String.eqb_spec i EmptyString); [done|].
    cbn [orb negb]. rewrite Hc. unfold Crypto.pbkdf2Sync, normalizePassword.
    destruct (Z.leb_spec 1 c); [|lia].
    destruct (Z.leb_spec c 2147483647); [|lia].
    cbn [andb mbind option_bind].
    unfold hmac. cbn [join].
    assert (Hp : length clientProof = 32%nat).
    { unfold clientProof, xorBuffers. rewrite length_zip_with. lia. }
    subst clientProof clientSignature auth clientKey salted.
    rewrite xorLoop_all by (rewrite Hk, Hg; reflexivity).
    eexists. split; [reflexivity|]. cbn.
    repeat split; assumption.
  - intros Hpw. unfold rfc_vector.
    rewrite (processSASLContinue_ext NFKC (fun p => p)) by done.
    exact rfc_vector_id.
Qed.

Lemma scram_client_proof_witness :
  (exists st',
      processSASLContinue (fun p => p) rfc_started
                          (fromString "r=rOprNGfwEbeRWgbNEkqOxyz,s=c2FsdA==,i=2")
                          "pw" = Some (st', None)
      /\ serverNonce st' = Some "rOprNGfwEbeRWgbNEkqOxyz"%string)
  /\ rfc_vector (fun p => p).
Proof.
  pose proof (scram_client_proof (fun p => p)) as (Hgen & Hrfc & _).
  split.
  - destruct (Hgen rfc_started
                (fromString "r=rOprNGfwEbeRWgbNEkqOxyz,s=c2FsdA==,i=2")
                "pw"%string rfc_clientNonce "rOprNGfwEbeRWgbNEkqOxyz"%string
                "c2FsdA"%string "2"%string 2)
      as (st' & H1 & H2 & _);
      [reflexivity|vm_compute; reflexivity|discriminate|reflexivity
      |vm_compute; reflexivity|discriminate|vm_compute; reflexivity
      |reflexivity|lia|].
    exists st'. split; assumption.
  - apply Hrfc. reflexivity.
Defined.

(** C2.  The framing loop.  Whatever way the byte stream of well-formed
    messages is cut into chunks, feeding the chunks in order hands the
    receiver exactly the frames of those messages, once each and in
    stream order (for any receiver, and so for one that records what it
    is handed), and leaves the accumulator empty.  A frame is dispatched only when the
    accumulator holds all [1 + declared] bytes of it, and while it holds
    fewer the loop dispatches nothing and keeps the bytes. *)
Theorem framer_dispatches_stream :
  (forall (St : Type) (handle : Buffer -> St -> option St)
          (ms : list message) (chunks : list Buffer) (s : St),
      Forall wellFormed ms ->
      concat chunks = stream ms ->
      feed handle [] s chunks
      = s' ← dispatchAll handle (map frameOf ms) s; Some ([], s'))
  /\ (forall (ms : list message) (chunks : list Buffer),
         Forall wellFormed ms ->
         concat chunks = stream ms ->
         feed record [] [] chunks = Some ([], map frameOf ms))
  /\ (forall (b m rest : Buffer),
         frameTurn b = Dispatch m rest ->
         exists declared,
           readInt32BE b 1 = Some declared
           /\ 1 + declared <= len b
           /\ len m = 1 + declared
           /\ b = m ++ rest)
  /\ (forall (St : Type) (handle : Buffer -> St -> option St)
             (fuel : nat) (b : Buffer) (s : St) (declared : Z),
         readInt32BE b 1 = Some declared -> 4 <= declared ->
         len b < 1 + declared ->
         frameLoop handle fuel b s = Some (b, s)).
Proof.
  assert (Hempty : forall ms, shortOf [] ms).
  { intros [|[t body] ms]; cbn [shortOf]; [done|].
    unfold frameOf. rewrite len_frame. cbn [snd].
    change (len []) with 0. pose proof (len_nonneg body). lia. }
  split; [|split; [|split]].
  - intros St handle ms chunks s Hwf Heq.
    by apply (feed_stream handle chunks ms [] s Hwf).
  - intros ms chunks Hwf Heq.
    rewrite (feed_stream record chunks ms [] [] Hwf) by done.
    by rewrite dispatchAll_record.
  - apply frameTurn_dispatch.
  - intros St handle fuel b s declared. apply frameLoop_incomplete.
Qed.

Lemma framer_dispatches_stream_witness :
  feed record [] []
       [ [x5a; x00; x00]; [x00; x05; x49; x43; x00; x00; x00];
         [x08; x53; x45; x54]; [x00] ]
  = Some ([], [ [x5a; x00; x00; x00; x05; x49];
                [x43; x00; x00; x00; x08; x53; x45; x54; x00] ]).
Proof.
  apply (proj1 (proj2 framer_dispatches_stream)
               [(x5a, [x49]); (x43, [x53; x45; x54; x00])]).
  - repeat constructor.
  - reflexivity.
Defined.

(** C3 (amended).  When the timer of a call fires while a query is
    current, that query is rejected with "Query timeout", [readyForQuery]
    is set again and [currentQuery] is cleared: the next call of [query] is
    accepted, returns a pending promise and, on an open socket, writes its
    Query frame. *)
Theorem timeout_reenables_connection (c : conn) (q cq : nat) :
  timer <$> queries c !! q = Some true ->
  currentQuery c = Some cq ->
  let c' := onTimeout q c in
  readyForQuery c' = true
  /\ currentQuery c' = None
  /\ outcome <$> queries c' !! cq
     = (fun k => settle (outcome k) (Rejected (newError "Query timeout")))
         <$> queries c !! cq
  /\ forall sql params,
      snd (query sql params c') = Started (length (queries c'))
      /\ readyForQuery (fst (query sql params c')) = false
      /\ forall s, sock c' = Some s ->
           written <$> sock (fst (query sql params c'))
           = Some (written s ++ [createSimpleQueryPacket sql]).
Proof.
  intros Ht Hcq c'. subst c'. unfold onTimeout. rewrite Ht.
  cbn [currentQuery on_closure with_queries]. rewrite Hcq.
  assert (Hr : readyForQuery
                 (rejectQuery cq (newError "Query timeout")
                    (on_closure q (set_timer false) c)) = true) by done.
  split; [done|]. split; [done|]. split.
  - cbn [rejectQuery on_closure queries with_queries with_readyForQuery
           with_currentQuery].
    rewrite !list_lookup_alter.
    repeat case_decide; simplify_eq; try done;
      by destruct (queries c !! cq).
  - intros sql params.
    destruct (query_started sql params _ Hr) as (H1 & H2 & _ & H4).
    split; [done|]. split; [done|]. exact H4.
Qed.

Lemma timeout_reenables_connection_witness :
  exists c,
    runSample (new sampleConfig) timedOut = Some c
    /\ readyForQuery (onTimeout 0 c) = true
    /\ snd (query "SELECT 2" [] (onTimeout 0 c)) = Started 1%nat.
Proof.
  eexists. split; [vm_compute; reflexivity|].
  match goal with
  | |- readyForQuery (onTimeout 0 ?c) = true /\ _ =>
      destruct (timeout_reenables_connection c 0 0 eq_refl eq_refl)
        as (H1 & _ & _ & H4)
  end.
  split; [exact H1|]. exact (proj1 (H4 "SELECT 2"%string [])).
Defined.

Lemma timeout_fatal_counterexample : ~ timeout_is_fatal_as_stated.
Proof.
  intros H.
  apply (H afterTimeout (afterRun afterTimeout) 0%nat 1%nat
           (mkResult [] None "EMPTY" (Int 0) "EMPTY" None)).
  - vm_compute. reflexivity.
  - vm_compute. reflexivity.
  - lia.
  - vm_compute. reflexivity.
Qed.

(** C4 (amended).  [readyForQuery] goes from false to true only on a
    chunk that completes a ReadyForQuery or an ErrorResponse frame, or
    when a timer fires; it goes from true to false only by a call of
    [query] that is accepted.  Every ReadyForQuery sets it, and so does an
    ErrorResponse or a timeout that rejects the query in flight, without
    waiting for the following ReadyForQuery. *)
Theorem ready_flag_transitions
        (NFKC : string -> string) (md5hex : Buffer -> string)
        (randomBytes : nat -> Buffer) :
  (forall c e c',
      step NFKC md5hex randomBytes c e = Some c' ->
      readyForQuery c = false -> readyForQuery c' = true ->
      (exists chunk,
          e = Data chunk
          /\ Exists (fun m => isReadyForQuery m \/ isErrorResponse m)
                    (dispatched (buffer c) chunk))
      \/ (exists q, e = TimerFired q))
  /\ (forall c e c',
         step NFKC md5hex randomBytes c e = Some c' ->
         readyForQuery c = true -> readyForQuery c' = false ->
         exists sql params,
           e = Query sql params
           /\ snd (query sql params c) = Started (length (queries c)))
  /\ (forall body c, readyForQuery (handleReadyForQuery body c) = true)
  /\ (forall body c q,
         currentQuery c = Some q ->
         readyForQuery (handleErrorResponse body c) = true)
  /\ (forall q cq c,
         timer <$> queries c !! q = Some true ->
         currentQuery c = Some cq ->
         readyForQuery (onTimeout q c) = true).
Proof.
  split; [|split; [|split; [|split]]].
  - intros c e c' Hstep Hc Hc'.
    destruct e as [| |chunk|err| |sql ps|q]; cbn in Hstep.
    + destruct (sock c); [done|]. injection Hstep as <-. cbn in Hc'. congruence.
    + destruct (sock c); [|done]. injection Hstep as <-. cbn in Hc'. congruence.
    + destruct (sock c); [|done]. left. exists chunk. split; [done|].
      by eapply onSocketData_raises.
    + destruct (sock c); [|done]. injection Hstep as <-.
      rewrite ready_emitError in Hc'. congruence.
    + destruct (sock c); [|done]. injection Hstep as <-. cbn in Hc'. congruence.
    + injection Hstep as <-. rewrite query_refused in Hc' by done.
      cbn in Hc'. congruence.
    + right. by exists q.
  - intros c e c' Hstep Hc Hc'.
    destruct e as [| |chunk|err| |sql ps|q]; cbn in Hstep.
    + destruct (sock c); [done|]. injection Hstep as <-. cbn in Hc'. congruence.
    + destruct (sock c); [|done]. injection Hstep as <-. cbn in Hc'. congruence.
    + destruct (sock c); [|done].
      rewrite (onSocketData_keeps _ _ _ _ _ _ Hstep Hc) in Hc'. done.
    + destruct (sock c); [|done]. injection Hstep as <-.
      rewrite ready_emitError in Hc'. congruence.
    + destruct (sock c); [|done]. injection Hstep as <-. cbn in Hc'. congruence.
    + exists sql, ps. split; [done|]. by apply query_started.
    + injection Hstep as <-. rewrite ready_onTimeout in Hc' by done. done.
  - apply ready_handleReadyForQuery.
  - intros body c q. apply ready_handleErrorResponse_inflight.
  - intros q cq c Ht Hcq. unfold onTimeout. rewrite Ht. cbn. by rewrite Hcq.
Qed.

Lemma ready_flag_transitions_witness :
  exists c,
    runSample (new sampleConfig) failing = Some c
    /\ ((exists chunk,
            Data errorResponse = Data chunk
            /\ Exists (fun m => isReadyForQuery m \/ isErrorResponse m)
                      (dispatched (buffer c) chunk))
        \/ (exists q, Data errorResponse = TimerFired q)).
Proof.
  eexists. split; [vm_compute; reflexivity|].
  eapply (proj1 (ready_flag_transitions plainNFKC noMd5 fixedRandom)).
  - vm_compute. reflexivity.
  - reflexivity.
  - reflexivity.
Defined.

Lemma ready_flag_counterexample :
  readyForQuery (new sampleConfig) = true
  /\ exists c,
      runSample (new sampleConfig) (failing ++ [Data errorResponse]) = Some c
      /\ readyForQuery c = true
      /\ currentQuery c = None.
Proof.
  split; [reflexivity|].
  eexists. split; [vm_compute; reflexivity|]. split; reflexivity.
Qed.

(** C5.  What [parseSCRAMParams] does with a value that contains [=]:
    [split("=", 2)] keeps the first two pieces and drops the rest, so the
    value stored for [v=abc=def] is [abc], and a base64 value loses its
    padding. *)
Theorem parseSCRAMParams_truncates_value :
  obj_get "v" (parseSCRAMParams "v=abc=def") = Some "abc"%string
  /\ obj_get "v" (parseSCRAMParams "v=abc=def") ≠ Some "abc=def"%string
  /\ obj_get "s" (parseSCRAMParams "r=abc,s=W22ZaJ0SNY7soEsUEjb6gQ==,i=4096")
     = Some "W22ZaJ0SNY7soEsUEjb6gQ"%string
  /\ split_limit "=" 2 "v=abc=def" = ["v"; "abc"]%string.
Proof.
  split; [vm_compute; reflexivity|].
  split; [vm_compute; discriminate|].
  split; vm_compute; reflexivity.
Qed.

(** C6.  The checks of [processSASLContinue].  With the client nonce
    set, the call returns an error when [r] is missing or does not start
    with the client nonce, and when [s] or [i] is missing; when it returns
    without error, [serverNonce] is the value of [r], which is the client
    nonce followed by some suffix. *)
Theorem processSASLContinue_checks
        (NFKC : string -> string) (st : scramState) (message : Buffer)
        (password : string) (cn : string) :
  clientNonce st = Some cn ->
  let params := parseSCRAMParams (toStringAll message) in
  let result := processSASLContinue NFKC st message password in
  ((obj_get "r" params = None
    \/ exists r, obj_get "r" params = Some r
                 /\ ~ exists t, r = (cn +:+ t)%string) ->
   exists st' e, result = Some (st', Some e))
  /\ ((obj_get "s" params = None \/ obj_get "i" params = None) ->
      exists st' e, result = Some (st', Some e))
  /\ (forall st', result = Some (st', None) ->
      exists r t, obj_get "r" params = Some r
                  /\ serverNonce st' = Some r
                  /\ r = (cn +:+ t)%string).
Proof.
  intros Hcn params result. subst result.
  unfold processSASLContinue. fold params. cbn [clientNonce].
  rewrite Hcn. change (strOf (Some cn)) with cn.
  destruct (String.eqb_spec (default EmptyString (obj_get "r" params)) EmptyString)
    as [Hr|Hr]; cbn [orb].
  { split; [intros _; do 2 eexists; reflexivity|].
    split; [intros _; do 2 eexists; reflexivity|]. intros st' [=]. }
  unfold startsWith.
  destruct (String.prefix cn (default EmptyString (obj_get "r" params))) eqn:Hp;
    cbn [negb].
  2:{ split; [intros _; do 2 eexists; reflexivity|].
      split; [intros _; do 2 eexists; reflexivity|]. intros st' [=]. }
  apply prefix_app in Hp as [t Ht].
  destruct (obj_get "r" params) as [r|] eqn:Er; [|done]. cbn [default] in *.
  split.
  { intros [|(r' & [= <-] & Hn)]; [done|]. exfalso. apply Hn. eauto. }
  destruct (String.eqb_spec (default EmptyString (obj_get "s" params)) EmptyString)
    as [Hs|Hs]; cbn [orb].
  { split; [intros _; do 2 eexists; reflexivity|]. intros st' [=]. }
  destruct (String.eqb_spec (default EmptyString (obj_get "i" params)) EmptyString)
    as [Hi|Hi].
  { split; [intros _; do 2 eexists; reflexivity|]. intros st' [=]. }
  split.
  { intros [H|H]; rewrite H in *; done. }
  destruct (Crypto.pbkdf2Sync _ _ _ _); cbn; [|done].
  intros st' [= <-]. exists r, t. done.
Qed.

Lemma processSASLContinue_checks_witness :
  exists st' e,
    processSASLContinue (fun p => p) rfc_started (fromString "s=c2FsdA==,i=2") "pw"
    = Some (st', Some e).
Proof.
  apply (proj1 (processSASLContinue_checks (fun p => p) rfc_started
                  (fromString "s=c2FsdA==,i=2") "pw" rfc_clientNonce eq_refl)).
  left. vm_compute. reflexivity.
Defined.

(** C7 (amended).  [parseCommandComplete] reads the tag, splits it on
    spaces and keeps the first token as [command].  With exactly three
    tokens, the first being INSERT in any letter case, [oid] and
    [rowCount] are the second and third tokens parsed as integers.
    Otherwise [oid] is null; with at least two tokens [rowCount] is the
    last token parsed as an integer, 0 when that is not a number; with a
    single token [rowCount] is 0 and the token is not parsed.  The three
    tags of the specification parse as it says. *)
Theorem parseCommandComplete_spec :
  (forall message : Buffer,
      let parts := split " " (readCString message 0) in
      let r := parseCommandComplete message in
      commandTag r = readCString message 0
      /\ command r = token parts 0
      /\ (length parts = 3%nat /\ caseless (token parts 0) "INSERT" ->
          oid r = Some (parseInt (token parts 1))
          /\ rowCount r = parseInt (token parts 2))
      /\ (~ (length parts = 3%nat /\ caseless (token parts 0) "INSERT") ->
          oid r = None
          /\ ((2 <= length parts)%nat ->
              rowCount r = zeroIfNaN (parseInt (List.last parts EmptyString)))
          /\ (length parts = 1%nat -> rowCount r = Int 0)))
  /\ parseCommandComplete (fromString "INSERT 12345 7" ++ [x00])
     = mkCommand "INSERT" (Int 7) (Some (Int 12345)) "INSERT 12345 7"
  /\ parseCommandComplete (fromString "SELECT 42" ++ [x00])
     = mkCommand "SELECT" (Int 42) None "SELECT 42"
  /\ parseCommandComplete (fromString "VACUUM" ++ [x00])
     = mkCommand "VACUUM" (Int 0) None "VACUUM".
Proof.
  split; [exact parseCommandComplete_cases|].
  repeat split; vm_compute; reflexivity.
Qed.

Lemma commandComplete_counterexample : ~ commandComplete_as_stated.
Proof.
  intros H. specialize (H (fromString "42" ++ [x00])).
  cbv zeta in H. destruct H as (_ & _ & H).
  assert (Hn : ¬ (length (split " " (readCString (fromString "42" ++ [x00]) 0)) = 3%nat
                  ∧ caseless (token (split " " (readCString (fromString "42" ++ [x00]) 0)) 0) "INSERT")).
  { intros [Hl _]. vm_compute in Hl. discriminate. }
  destruct (H Hn) as [_ Hr]. vm_compute in Hr. discriminate.
Qed.




(** C9 (amended).  After a call of [query] was accepted, and as long as
    no ReadyForQuery and no ErrorResponse frame is processed and no timer
    fires, [readyForQuery] stays false and every further call of [query]
    is refused with "Connection not ready for query", the connection
    being left exactly as it was. *)
Theorem query_refused_while_not_ready
        (NFKC : string -> string) (md5hex : Buffer -> string)
        (randomBytes : nat -> Buffer)
        (c0 c1 c2 : conn) (sql : string) (params : list string) (q : nat)
        (es : list event) :
  query sql params c0 = (c1, Started q) ->
  run NFKC md5hex randomBytes c1 es = Some c2 ->
  allow NFKC md5hex randomBytes quiet c1 es ->
  readyForQuery c2 = false
  /\ forall sql' params', query sql' params' c2 = (c2, Refused notReady).
Proof.
  intros Hq Hrun Hquiet.
  assert (Hc1 : readyForQuery c1 = false).
  { destruct (readyForQuery c0) eqn:Hc0.
    - destruct (query_started sql params c0 Hc0) as (_ & H & _).
      by rewrite Hq in H.
    - rewrite query_refused in Hq by done. discriminate. }
  pose proof (run_quiet _ _ _ es c1 c2 Hrun Hquiet Hc1) as Hc2.
  split; [done|]. intros sql' params'. by apply query_refused.
Qed.

Lemma query_refused_while_not_ready_witness :
  exists c2,
    runSample (fst (query "SELECT 1" [] (afterRun startUp)))
              [Data partialRow; Query "SELECT 2" []] = Some c2
    /\ query "SELECT 3" [] c2 = (c2, Refused notReady).
Proof.
  destruct (runSample (fst (query "SELECT 1" [] (afterRun startUp)))
                      [Data partialRow; Query "SELECT 2" []])
    as [c2|] eqn:E; [|vm_compute in E; discriminate].
  exists c2. split; [reflexivity|].
  eapply (query_refused_while_not_ready plainNFKC noMd5 fixedRandom
            (afterRun startUp) _ c2 "SELECT 1"%string [] 0%nat
            [Data partialRow; Query "SELECT 2" []]).
  - vm_compute. reflexivity.
  - exact E.
  - cbn [allow quiet]. split.
    + vm_compute. constructor.
    + vm_compute. repeat split.
Defined.

Lemma concurrency_guard_counterexample : ~ concurrency_guard_as_stated.
Proof.
  intros H.
  pose (c0 := afterRun startUp).
  pose (c1 := fst (query "SELECT * FROM nope" [] c0)).
  assert (E0 : runSample (new sampleConfig) startUp = Some c0)
    by (vm_compute; reflexivity).
  assert (E1 : query "SELECT * FROM nope" [] c0 = (c1, Started 0%nat))
    by (vm_compute; reflexivity).
  destruct (runSample c1 [Data errorResponse]) as [c2|] eqn:E2;
    [|vm_compute in E2; discriminate].
  assert (Hs : sock c0 ≠ None) by (vm_compute; discriminate).
  assert (Ha : allow plainNFKC noMd5 fixedRandom noReady c1
                     [Data errorResponse]).
  { cbn [allow noReady]. split.
    - vm_compute. repeat constructor. intros [=].
    - by destruct (step _ _ _ _ _). }
  specialize (H startUp [Data errorResponse] c0 c1 c2
                "SELECT * FROM nope"%string [] 0%nat E0 Hs E1 E2 Ha
                "SELECT 2"%string []).
  vm_compute in E2. injection E2 as <-. vm_compute in H. discriminate.
Qed.



End Claims.

(* ===================================================================== *)
(** ** Facts about text and C strings *)
(* ===================================================================== *)

Module TextFacts.
Import Buf JS Parser Text BufFacts.

Lemma eqb_x00 (b : byte) : b <> x00 -> Byte.eqb b x00 = false.
Proof. intros H. destruct (ConnFacts.byte_eqb_spec b x00); congruence. Qed.

Lemma asciiText_noNul (t : Buffer) : asciiText t -> noNul t.
Proof. unfold asciiText, noNul. intros H. eapply Forall_impl; [exact H|]. cbn. tauto. Qed.

Lemma scan_nonzero_terminated (t post : Buffer) :
  noNul t -> scan_nonzero (t ++ x00 :: post) = len t.
Proof.
  unfold len. induction 1 as [|b t Hb Ht IH]; cbn [scan_nonzero app length].
  - reflexivity.
  - rewrite eqb_x00 by done. rewrite IH. lia.
Qed.


Lemma readCString_at (pre t post : Buffer) :
  noNul t ->
  readCString (pre ++ t ++ x00 :: post) (len pre) = toStringAll t.
Proof.
  intros H. unfold readCString. rewrite sliceFrom_app.
  rewrite scan_nonzero_terminated by done. apply toString_mid.
Qed.


Lemma N_of_ascii_of_byte (b : byte) : N_of_ascii (ascii_of_byte b) = Byte.to_N b.
Proof. destruct b; reflexivity. Qed.

Lemma length16_ascii (t : Buffer) :
  asciiText t -> length16 (toStringAll t) = len t.
Proof.
  unfold len, toStringAll.
  induction 1 as [|b t [Hb Hlt] Ht IH].
  - reflexivity.
  - change (string_of_list_byte (b :: t))
      with (String (ascii_of_byte b) (string_of_list_byte t)).
    cbn [length16 length]. rewrite IH. unfold units_of_byte. rewrite N_of_ascii_of_byte.
    unfold byteZ in Hlt.
    destruct (N.ltb_spec (Byte.to_N b) 128); lia.
Qed.

Lemma length16_nonneg (s : string) : 0 <= length16 s.
Proof.
  induction s as [|a r IH]; cbn [length16]; [lia|].
  unfold units_of_byte. repeat case_match; lia.
Qed.

End TextFacts.

(* ===================================================================== *)
(** ** Facts about the decoders *)
(* ===================================================================== *)

Module ParserFacts.
Import Buf JS Parser Wire Text Server BufFacts DataRowFacts TextFacts.

Lemma readInt32BE_at (m pre post : Buffer) z off :
  m = pre ++ int32BE z ++ post -> off = len pre -> int32 z ->
  readInt32BE m off = Some z.
Proof. intros -> -> H. by apply readInt32BE_mid. Qed.

Lemma readInt16BE_mid (pre post : Buffer) z :
  int16 z -> readInt16BE (pre ++ int16BE z ++ post) (len pre) = Some z.
Proof.
  intros Hz. unfold readInt16BE.
  pose proof (len_nonneg pre). pose proof (len_nonneg post).
  rewrite !len_app, len_int16BE.
  replace ((0 <=? len pre) && (len pre + 2 <=? len pre + (2 + len post)))
    with true by (symmetry; apply andb_true_iff; split; lia).
  replace (len pre + 2) with (len pre + len (int16BE z))
    by (rewrite len_int16BE; lia).
  rewrite slice_mid, be_value_int16BE, to_signed_mod16 by exact Hz.
  reflexivity.
Qed.

Lemma readInt16BE_at (m pre post : Buffer) z off :
  m = pre ++ int16BE z ++ post -> off = len pre -> int16 z ->
  readInt16BE m off = Some z.
Proof. intros -> -> H. by apply readInt16BE_mid. Qed.

Lemma readInt32BE_in_range (b : Buffer) off :
  0 <= off -> off + 4 <= len b -> is_Some (readInt32BE b off).
Proof.
  intros H1 H2. unfold readInt32BE.
  replace ((0 <=? off) && (off + 4 <=? len b)) with true
    by (symmetry; apply andb_true_iff; split; lia).
  by eexists.
Qed.

Lemma readInt16BE_in_range (b : Buffer) off :
  0 <= off -> off + 2 <= len b -> is_Some (readInt16BE b off).
Proof.
  intros H1 H2. unfold readInt16BE.
  replace ((0 <=? off) && (off + 2 <=? len b)) with true
    by (symmetry; apply andb_true_iff; split; lia).
  by eexists.
Qed.

Lemma readInt16BE_short (b : Buffer) off :
  len b < off + 2 -> readInt16BE b off = None.
Proof.
  intros H. unfold readInt16BE.
  replace (off + 2 <=? len b) with false by (symmetry; apply Z.leb_gt; lia).
  by rewrite andb_false_r.
Qed.

Lemma toStringAll_fromString (s : string) : toStringAll (fromString s) = s.
Proof. apply string_of_list_byte_of_string. Qed.

Lemma len_cstring (t : Buffer) : len (cstring t) = len t + 1.
Proof. unfold cstring. rewrite len_app. reflexivity. Qed.

(** *** Key/value objects *)

Lemma fold_obj_set (es : list (string * string)) : forall m,
  Forall (fun e => fst e <> "__proto__"%string) es ->
  fold_left (fun r e => obj_set (fun _ => false) (fst e) (snd e) r) es
            (mkObj m true)
  = mkObj (fold_left (fun m e => <[fst e := snd e]> m) es m) true.
Proof.
  induction es as [|e es IH]; intros m H; [reflexivity|].
  inversion H as [|? ? He Hes]; subst. cbn [fold_left].
  unfold obj_set at 2. cbn [has_proto props].
  replace (String.eqb (fst e) "__proto__") with false
    by (symmetry; by apply String.eqb_neq).
  cbn [andb]. by apply IH.
Qed.

Lemma fold_insert_collect (es : list (string * string)) :
  fold_left (fun m e => <[fst e := snd e]> m) es (∅ : gmap string string)
  = collect es.
Proof.
  unfold collect. rewrite <- fold_left_rev_right.
  rewrite rev_alt. change (rev_append es []) with (reverse es).
  generalize (reverse es) as l.
  induction l as [|e l IH]; [reflexivity|].
  cbn [fold_right]. rewrite IH. reflexivity.
Qed.

Lemma assignments_collect (es : list (string * string)) :
  Forall (fun e => fst e <> "__proto__"%string) es ->
  fold_left (fun r e => obj_set (fun _ => false) (fst e) (snd e) r) es
            empty_obj
  = mkObj (collect es) true.
Proof.
  intros H. unfold empty_obj. rewrite fold_obj_set by done.
  by rewrite fold_insert_collect.
Qed.

(** *** parseNullTerminatedPairs *)

Lemma pairsLoop_encoded l : forall (pre post : Buffer) r fuel,
  Forall pairFits l -> (length l < fuel)%nat ->
  pairsLoop fuel (pre ++ concat (map encodePair l) ++ x00 :: post) (len pre) r
  = fold_left (fun r e => obj_set (fun _ => false) (fst e) (snd e) r)
              (map pairEntry l) r.
Proof.
  induction l as [|[c v] l IH]; intros pre post r fuel Hl Hfuel;
    (destruct fuel as [|fuel]; [cbn in Hfuel; lia|]).
  - cbn [map concat app fold_left pairsLoop].
    rewrite sliceFrom_app.
    change (Byte.eqb x00 x00) with true. cbn [negb].
    by rewrite andb_false_r.
  - inversion Hl as [|? ? [Hc Hv] Hl']; subst. cbn [fst snd] in Hc, Hv.
    assert (Hc0 : c <> x00) by (inversion Hc as [|? ? [? ?] ?]; done).
    cbn [map concat fold_left pairsLoop].
    change (encodePair (c, v)) with (c :: v ++ [x00]).
    set (tail := concat (map encodePair l) ++ x00 :: post).
    assert (Hm : pre ++ (((c :: v ++ [x00]) ++ concat (map encodePair l))
                           ++ (x00 :: post))
                 = pre ++ [c] ++ (v ++ x00 :: tail)).
    { subst tail. cbn [app]. by rewrite <- !app_assoc. }
    rewrite Hm.
    assert (Hlt : (len pre <? len (pre ++ [c] ++ v ++ x00 :: tail)) = true).
    { apply Z.ltb_lt. rewrite len_app.
      pose proof (len_nonneg (v ++ x00 :: tail)).
      change ([c] ++ v ++ x00 :: tail) with (c :: (v ++ x00 :: tail)).
      unfold len in *. cbn [length]. lia. }
    rewrite Hlt, sliceFrom_app. cbn [app].
    rewrite (eqb_x00 c) by done. cbn [negb andb].
    change (c :: v ++ x00 :: tail) with ([c] ++ (v ++ x00 :: tail)).
    replace (len pre + 1) with (len pre + len [c]) by reflexivity.
    rewrite toString_mid.
    assert (Hv' : readCString (pre ++ [c] ++ v ++ x00 :: tail)
                              (len pre + len [c]) = toStringAll v).
    { rewrite (app_assoc pre [c]), <- len_app.
      apply readCString_at. by apply asciiText_noNul. }
    rewrite Hv'. rewrite length16_ascii by done.
    replace (len pre + len [c] + (len v + 1))
      with (len (pre ++ encodePair (c, v))).
    2:{ unfold encodePair, cstring. cbn [fst snd].
        change (c :: v ++ [x00]) with ([c] ++ v ++ [x00]).
        rewrite !len_app. change (len [x00]) with 1. lia. }
    replace (pre ++ [c] ++ v ++ x00 :: tail)
      with ((pre ++ encodePair (c, v)) ++ concat (map encodePair l)
              ++ x00 :: post).
    2:{ subst tail. change (encodePair (c, v)) with (c :: v ++ [x00]).
        rewrite <- !app_assoc. cbn [app]. rewrite <- !app_assoc.
        reflexivity. }
    rewrite IH by (done || cbn in Hfuel; lia).
    reflexivity.
Qed.

Lemma length_encodePairs l : (length l < length (encodePairs l))%nat.
Proof.
  unfold encodePairs. rewrite length_app. cbn [length].
  enough (length l <= length (concat (map encodePair l)))%nat by lia.
  induction l as [|p l IH]; cbn [map concat length]; [lia|].
  rewrite length_app. unfold encodePair at 1. cbn [length]. lia.
Qed.

Lemma pairEntry_key l :
  Forall (fun e : string * string => fst e <> "__proto__"%string)
         (map pairEntry l).
Proof.
  induction l as [|p l IH]; constructor; [|exact IH].
  unfold pairEntry, toStringAll. cbn [fst].
  change (string_of_list_byte [fst p])
    with (String (ascii_of_byte (fst p)) EmptyString).
  discriminate.
Qed.

Lemma parseNullTerminatedPairs_wire l :
  Forall pairFits l ->
  parseNullTerminatedPairs (encodePairs l)
  = mkObj (collect (map pairEntry l)) true.
Proof.
  intros H. unfold parseNullTerminatedPairs.
  pose proof (pairsLoop_encoded l [] [] empty_obj (length (encodePairs l)) H
                (length_encodePairs l)) as E.
  cbn [app] in E. change (len []) with 0 in E.
  unfold encodePairs at 2. rewrite E.
  apply assignments_collect, pairEntry_key.
Qed.

(** *** parseRowDescription *)

Lemma rowDescLoop_encoded fs : forall (pre : Buffer) acc,
  Forall fieldFits fs ->
  rowDescLoop (length fs) (pre ++ concat (map encodeField fs)) (len pre) acc
  = Some (acc ++ fs).
Proof.
  induction fs as [|f fs IH]; intros pre acc Hfs.
  - cbn. by rewrite app_nil_r.
  - inversion Hfs as [|? ? Hf Hfs']; subst.
    destruct Hf as (Hn & Ht & Hc & Hd & Hs & Hm & Hfo).
    destruct f as [nm t c d s m fo]. cbn [name tableOID columnAttrNum
      dataTypeOID dataTypeSize typeModifier format] in *.
    cbn [length rowDescLoop map concat].
    set (rest := concat (map encodeField fs)).
    set (msg := pre ++ encodeField (mkField nm t c d s m fo) ++ rest).
    assert (Hmsg : msg = pre ++ fromString nm ++ x00 ::
                     (int32BE t ++ int16BE c ++ int32BE d ++ int16BE s
                        ++ int32BE m ++ int16BE fo ++ rest)).
    { subst msg. unfold encodeField, cstring. cbn [name tableOID columnAttrNum
        dataTypeOID dataTypeSize typeModifier format].
      rewrite <- !app_assoc. reflexivity. }
    assert (Hname : readCString msg (len pre) = nm).
    { rewrite Hmsg, readCString_at by (by apply asciiText_noNul).
      apply toStringAll_fromString. }
    rewrite Hname.
    assert (Hl16 : length16 nm = len (fromString nm)).
    { rewrite <- (toStringAll_fromString nm) at 1. by apply length16_ascii. }
    rewrite Hl16.
    set (o1 := len pre + (len (fromString nm) + 1)).
    assert (Hlen : len msg = o1 + 18 + len rest).
    { rewrite Hmsg. subst o1.
      change (x00 :: ?x) with ([x00] ++ x).
      rewrite !len_app, !len_int32BE, !len_int16BE.
      change (len [x00]) with 1. lia. }
    pose proof (len_nonneg rest).
    replace (len msg <? o1 + 18) with false
      by (symmetry; apply Z.ltb_ge; lia).
    set (p1 := pre ++ fromString nm ++ [x00]).
    assert (Hp1 : len p1 = o1).
    { subst p1 o1. rewrite !len_app. reflexivity. }
    rewrite (readInt32BE_at msg p1
               (int16BE c ++ int32BE d ++ int16BE s ++ int32BE m
                  ++ int16BE fo ++ rest) t o1); cycle 1.
    { rewrite Hmsg. subst p1. rewrite <- !app_assoc. reflexivity. }
    { by rewrite Hp1. } { done. }
    cbn [mbind option_bind].
    rewrite (readInt16BE_at msg (p1 ++ int32BE t)
               (int32BE d ++ int16BE s ++ int32BE m
                  ++ int16BE fo ++ rest) c (o1 + 4)); cycle 1.
    { rewrite Hmsg. subst p1. rewrite <- !app_assoc. reflexivity. }
    { rewrite ?len_app, ?len_int32BE, ?len_int16BE, Hp1; lia. } { done. }
    cbn [mbind option_bind].
    rewrite (readInt32BE_at msg (p1 ++ int32BE t ++ int16BE c)
               (int16BE s ++ int32BE m ++ int16BE fo ++ rest) d (o1 + 6));
      cycle 1.
    { rewrite Hmsg. subst p1. rewrite <- !app_assoc. reflexivity. }
    { rewrite ?len_app, ?len_int32BE, ?len_int16BE, Hp1; lia. } { done. }
    cbn [mbind option_bind].
    rewrite (readInt16BE_at msg (p1 ++ int32BE t ++ int16BE c ++ int32BE d)
               (int32BE m ++ int16BE fo ++ rest) s (o1 + 10)); cycle 1.
    { rewrite Hmsg. subst p1. rewrite <- !app_assoc. reflexivity. }
    { rewrite ?len_app, ?len_int32BE, ?len_int16BE, Hp1; lia. } { done. }
    cbn [mbind option_bind].
    rewrite (readInt32BE_at msg
               (p1 ++ int32BE t ++ int16BE c ++ int32BE d ++ int16BE s)
               (int16BE fo ++ rest) m (o1 + 12)); cycle 1.
    { rewrite Hmsg. subst p1. rewrite <- !app_assoc. reflexivity. }
    { rewrite ?len_app, ?len_int32BE, ?len_int16BE, Hp1; lia. } { done. }
    cbn [mbind option_bind].
    rewrite (readInt16BE_at msg
               (p1 ++ int32BE t ++ int16BE c ++ int32BE d ++ int16BE s
                   ++ int32BE m)
               rest fo (o1 + 16)); cycle 1.
    { rewrite Hmsg. subst p1. rewrite <- !app_assoc. reflexivity. }
    { rewrite ?len_app, ?len_int32BE, ?len_int16BE, Hp1; lia. } { done. }
    cbn [mbind option_bind].
    replace msg with ((pre ++ encodeField (mkField nm t c d s m fo)) ++ rest)
      by (subst msg; by rewrite <- app_assoc).
    replace (o1 + 18) with (len (pre ++ encodeField (mkField nm t c d s m fo))).
    2:{ subst o1. unfold encodeField. cbn [name tableOID columnAttrNum
          dataTypeOID dataTypeSize typeModifier format].
        rewrite !len_app, len_cstring, !len_int32BE, !len_int16BE. lia. }
    subst rest. rewrite IH by done. by rewrite <- app_assoc.
Qed.

Lemma parseRowDescription_wire fs :
  Z.of_nat (length fs) < 2 ^ 15 -> Forall fieldFits fs ->
  parseRowDescription (encodeRowDescription fs) = Some fs.
Proof.
  intros Hn Hfs. unfold parseRowDescription, encodeRowDescription.
  rewrite readInt16BE_head by (split; lia).
  cbn [mbind option_bind]. rewrite Nat2Z.id.
  pose proof (rowDescLoop_encoded fs (int16BE (Z.of_nat (length fs))) [] Hfs)
    as E.
  rewrite len_int16BE in E. exact E.
Qed.

Lemma rowDescLoop_bounded fuel : forall (message : Buffer) offset acc,
  0 <= offset ->
  exists fs,
    rowDescLoop fuel message offset acc = Some (acc ++ fs)
    /\ (length fs <= fuel)%nat
    /\ offset + 19 * Z.of_nat (length fs) <= Z.max offset (len message).
Proof.
  induction fuel as [|fuel IH]; intros message offset acc Hoff.
  - exists []. cbn. rewrite app_nil_r. repeat split; lia.
  - cbn [rowDescLoop].
    pose proof (length16_nonneg (readCString message offset)) as Hn.
    set (o1 := offset + (length16 (readCString message offset) + 1)) in *.
    destruct (Z.ltb_spec (len message) (o1 + 18)) as [Hshort|Hlong].
    + exists []. cbn. rewrite app_nil_r. repeat split; lia.
    + assert (0 <= o1) by (subst o1; lia).
      destruct (readInt32BE_in_range message o1) as [t ->]; [lia..|].
      destruct (readInt16BE_in_range message (o1 + 4)) as [c ->]; [lia..|].
      destruct (readInt32BE_in_range message (o1 + 6)) as [d ->]; [lia..|].
      destruct (readInt16BE_in_range message (o1 + 10)) as [s ->]; [lia..|].
      destruct (readInt32BE_in_range message (o1 + 12)) as [m ->]; [lia..|].
      destruct (readInt16BE_in_range message (o1 + 16)) as [f ->]; [lia..|].
      cbn [mbind option_bind].
      destruct (IH message (o1 + 18)
                  (acc ++ [mkField (readCString message offset) t c d s m f]))
        as (fs & E & Hfs & Hb); [lia|].
      eexists (_ :: fs). rewrite E, <- app_assoc. cbn [app length].
      repeat split; [lia|]. subst o1. lia.
Qed.

(** *** parseDataRow on a row cut short *)

Lemma dataRowLoop_prefix fs : forall cs (pre tail : Buffer) fieldCount i r,
  Forall fits cs ->
  i + Z.of_nat (length cs) <= fieldCount ->
  dataRowLoop (pre ++ concat (map encodeColumn cs) ++ tail) fieldCount fs i
              (len pre) r
  = dataRowLoop (pre ++ concat (map encodeColumn cs) ++ tail) fieldCount
                (drop (length cs) fs) (i + Z.of_nat (length cs))
                (len (pre ++ concat (map encodeColumn cs))) (assign fs cs r).
Proof.
  induction fs as [|f fs IH]; intros cs pre tail fieldCount i r Hfit Hcount.
  - rewrite drop_nil. by destruct cs.
  - destruct cs as [|c cs].
    + cbn [map concat length drop assign app]. rewrite app_nil_r.
      by rewrite Z.add_0_r.
    + cbn [dataRowLoop assign map concat length drop].
      cbn [length] in Hcount.
      destruct (Z.ltb_spec i fieldCount); [|lia].
      pose proof (len_encodeColumn c) as Hc.
      pose proof (len_nonneg (concat (map encodeColumn cs) ++ tail)) as Hrest.
      rewrite <- (app_assoc (encodeColumn c)).
      set (rest := concat (map encodeColumn cs) ++ tail) in *.
      set (msg := pre ++ encodeColumn c ++ rest).
      assert (Hlen : len msg = len pre + len (encodeColumn c) + len rest)
        by (subst msg; rewrite !len_app; lia).
      destruct (Z.ltb_spec (len msg) (len pre + 4)); [lia|].
      inversion Hfit as [|? ? Hfc Hfcs]; subst.
      assert (Hgo : forall r',
        dataRowLoop msg fieldCount fs (i + 1)
                    (len pre + len (encodeColumn c)) r'
        = dataRowLoop msg fieldCount
            (drop (length cs) fs) (i + Z.of_nat (S (length cs)))
            (len (pre ++ encodeColumn c ++ concat (map encodeColumn cs)))
            (assign fs cs r')).
      { intros r'. subst msg rest. rewrite (app_assoc pre), <- len_app.
        rewrite IH by (done || lia).
        rewrite <- !app_assoc. f_equal; lia. }
      destruct c as [v|]; cbn [columnValue].
      * pose proof (len_nonneg v) as Hv.
        assert (Hread : readInt32BE msg (len pre) = Some (len v)).
        { subst msg. cbn [encodeColumn]. rewrite <- app_assoc.
          apply readInt32BE_mid. cbn in Hfc. lia. }
        rewrite Hread. cbn [mbind option_bind].
        destruct (Z.eqb_spec (len v) (-1)); [lia|].
        cbn [encodeColumn] in Hlen, Hgo.
        rewrite len_app, len_int32BE in Hlen, Hgo.
        destruct (Z.ltb_spec (len msg) (len pre + 4 + len v)); [lia|].
        assert (Hstr : toString msg (len pre + 4) (len pre + 4 + len v)
                       = toStringAll v).
        { subst msg. cbn [encodeColumn].
          replace (len pre + 4) with (len (pre ++ int32BE (len v)))
            by (rewrite len_app, len_int32BE; lia).
          rewrite <- app_assoc, (app_assoc pre). apply toString_mid. }
        rewrite Hstr.
        replace (len pre + 4 + len v) with (len pre + (4 + len v)) by lia.
        apply Hgo.
      * assert (Hread : readInt32BE msg (len pre) = Some (-1)).
        { subst msg. cbn [encodeColumn].
          apply readInt32BE_mid. change (2 ^ 31) with 2147483648. lia. }
        rewrite Hread. cbn [mbind option_bind Z.eqb Pos.eqb].
        cbn [encodeColumn] in Hgo. rewrite len_int32BE in Hgo.
        apply Hgo.
Qed.

Lemma dataRowLoop_partial fs (pre partial more : Buffer) c fieldCount i r :
  fits c -> partial ++ more = encodeColumn c -> more <> [] ->
  dataRowLoop (pre ++ partial) fieldCount fs i (len pre) r = Some r.
Proof.
  intros Hfit Hsplit Hmore. destruct fs as [|f fs]; [done|].
  cbn [dataRowLoop].
  destruct (i <? fieldCount); [|done].
  rewrite len_app.
  destruct (Z.ltb_spec (len pre + len partial) (len pre + 4)) as [|Hlong];
    [done|].
  assert (Hm : 0 < len more).
  { destruct more; [done|]. unfold len. cbn [length]. lia. }
  assert (Hsum : len partial + len more = len (encodeColumn c))
    by (rewrite <- Hsplit, len_app; lia).
  destruct c as [v|]; cbn [encodeColumn fits] in *.
  - destruct (FramerFacts.app_eq_split partial more (int32BE (len v)) v)
      as (pv & -> & Hpv); [done|rewrite len_int32BE; lia|].
    rewrite readInt32BE_mid
      by (pose proof (len_nonneg v); change (2 ^ 31) with 2147483648 in *; lia).
    cbn [mbind option_bind].
    pose proof (len_nonneg v).
    destruct (Z.eqb_spec (len v) (-1)); [lia|].
    rewrite len_app, len_int32BE in *. rewrite <- Hpv, len_app in *.
    match goal with
    | |- context [?a <? ?b] => destruct (Z.ltb_spec a b); [done|lia]
    end.
  - rewrite len_int32BE in Hsum. lia.
Qed.

End ParserFacts.

(* ===================================================================== *)
(** ** Facts about strings *)
(* ===================================================================== *)

Module StringFacts.
Import Buf JS Parser Text Server ParserFacts.

Lemma append_cons a (s t : string) : String a s +:+ t = String a (s +:+ t).
Proof. reflexivity. Qed.

Lemma append_nil_r (s : string) : s +:+ EmptyString = s.
Proof. induction s as [|a s IH]; [done|]. by rewrite append_cons, IH. Qed.

Lemma rev_app_rev_app (s a b : string) :
  String.rev_app (String.rev_app s a) b = String.rev_app a (s +:+ b).
Proof.
  revert a b. induction s as [|x s IH]; intros a b; [done|].
  cbn [String.rev_app]. by rewrite IH, append_cons.
Qed.

Lemma rev_rev_app (s : string) : String.rev (String.rev_app s EmptyString) = s.
Proof. unfold String.rev. rewrite rev_app_rev_app. cbn. apply append_nil_r. Qed.

Lemma hasChar_app c (s t : string) :
  hasChar c (s +:+ t) = hasChar c s || hasChar c t.
Proof.
  induction s as [|a s IH]; [done|].
  rewrite append_cons. cbn [hasChar]. by rewrite IH, orb_assoc.
Qed.

Lemma split_aux_clean c (s : string) : forall cur rest,
  hasChar c s = false ->
  split_aux c cur (s +:+ rest) = split_aux c (String.rev_app s cur) rest.
Proof.
  induction s as [|a s IH]; intros cur rest H; [done|].
  cbn in H. apply orb_false_iff in H as [Ha Hs].
  rewrite append_cons. cbn [split_aux String.rev_app]. rewrite Ha.
  by apply IH.
Qed.

Lemma split_clean c (s : string) : hasChar c s = false -> split c s = [s].
Proof.
  intros H. unfold split. rewrite <- (append_nil_r s) at 1.
  rewrite split_aux_clean by done. cbn [split_aux]. by rewrite rev_rev_app.
Qed.

Lemma split_cons c (s rest : string) :
  hasChar c s = false ->
  split c (s +:+ String c rest) = s :: split c rest.
Proof.
  intros H. unfold split. rewrite split_aux_clean by done.
  cbn [split_aux]. rewrite Ascii.eqb_refl. by rewrite rev_rev_app.
Qed.

Lemma split_join c (xs : list string) :
  xs <> [] -> Forall (fun x => hasChar c x = false) xs ->
  split c (join (String c EmptyString) xs) = xs.
Proof.
  induction xs as [|x xs IH]; intros Hne H; [done|].
  inversion H as [|? ? Hx Hxs]; subst.
  destruct xs as [|y xs].
  - cbn [join]. by apply split_clean.
  - change (join (String c EmptyString) (x :: y :: xs))
      with (x +:+ String c EmptyString +:+ join (String c EmptyString) (y :: xs)).
    change (String c EmptyString +:+ ?t) with (String c t).
    rewrite split_cons by done. f_equal. by apply IH.
Qed.

(** *** parseSCRAMParams *)

Lemma scramStep_attribute params kv :
  attributeFits kv ->
  scramStep params (attribute kv)
  = obj_set (fun _ => false) (fst kv) (snd kv) params.
Proof.
  intros (Hk & _ & Hk1 & _ & Hv1 & _). unfold scramStep, split_limit, attribute.
  change ("=" +:+ snd kv)%string with (String "=" (snd kv)).
  rewrite split_cons by done. rewrite split_clean by done.
  cbn [take].
  replace (String.eqb (fst kv) EmptyString) with false
    by (symmetry; by apply String.eqb_neq).
  reflexivity.
Qed.

Lemma attribute_clean kv :
  attributeFits kv -> hasChar "," (attribute kv) = false.
Proof.
  intros (_ & _ & _ & Hk & _ & Hv). unfold attribute.
  rewrite !hasChar_app, Hk, Hv. reflexivity.
Qed.

Lemma fold_scramStep l : forall params,
  Forall attributeFits l ->
  fold_left scramStep (map attribute l) params
  = fold_left (fun r e => obj_set (fun _ => false) (fst e) (snd e) r) l params.
Proof.
  induction l as [|kv l IH]; intros params H; [done|].
  inversion H; subst. cbn [map fold_left].
  rewrite scramStep_attribute by done. by apply IH.
Qed.

(** *** parseInt on decimal numerals *)

Lemma digit_cases d : isDigit d ->
  d = 0 \/ d = 1 \/ d = 2 \/ d = 3 \/ d = 4 \/ d = 5 \/ d = 6 \/ d = 7
  \/ d = 8 \/ d = 9.
Proof. unfold isDigit. lia. Qed.

Ltac each_digit H :=
  apply digit_cases in H;
  repeat (destruct H as [H|H]); subst.

Lemma digit_of_digitChar d : isDigit d -> digit_of (digitChar d) = Some d.
Proof. intros H. each_digit H; reflexivity. Qed.

Lemma digits_numeral ds : forall acc,
  Forall isDigit ds ->
  digits acc (numeral ds)
  = match ds with
    | [] => acc
    | _ => Some (fold_left (fun a d => a * 10 + d) ds (default 0 acc))
    end.
Proof.
  induction ds as [|d ds IH]; intros acc H; [done|].
  inversion H; subst. cbn [numeral digits].
  rewrite digit_of_digitChar by done. rewrite IH by done.
  destruct ds; reflexivity.
Qed.

Lemma skip_ws_digit fuel d (r : string) :
  isDigit d -> skip_ws fuel (String (digitChar d) r) = String (digitChar d) r.
Proof.
  intros H. destruct fuel as [|fuel]; [done|].
  each_digit H; cbn; destruct r as [|b [|c r]]; reflexivity.
Qed.

Lemma parseInt_numeral ds :
  ds <> [] -> Forall isDigit ds ->
  parseInt (numeral ds) = Int (numeralValue ds).
Proof.
  intros Hne H. destruct ds as [|d ds]; [done|].
  unfold parseInt. cbn [numeral]. inversion H as [|? ? Hd Hds]; subst.
  rewrite skip_ws_digit by done.
  assert (E : (let '(neg, s2) :=
                 match String (digitChar d) (numeral ds) with
                 | String "-" r => (true, r)
                 | String "+" r => (false, r)
                 | _ => (false, String (digitChar d) (numeral ds))
                 end in
               match digits None s2 with
               | None => NaN
               | Some n => Int (if neg then - n else n)
               end)
              = match digits None (numeral (d :: ds)) with
                | None => NaN
                | Some n => Int n
                end).
  { each_digit Hd; reflexivity. }
  rewrite E. rewrite digits_numeral by done. reflexivity.
Qed.

Lemma numeral_clean ds :
  Forall isDigit ds -> hasChar " " (numeral ds) = false.
Proof.
  induction 1 as [|d ds Hd Hds IH]; [done|].
  cbn [numeral hasChar]. rewrite IH. each_digit Hd; reflexivity.
Qed.

Lemma lower_keeps_space (s : string) : forall t,
  toLowerCase s = t -> hasChar " " t = false -> hasChar " " s = false.
Proof.
  induction s as [|a s IH]; intros t <- H; [done|].
  cbn [toLowerCase hasChar] in *.
  apply orb_false_iff in H as [Ha Hs]. rewrite (IH _ eq_refl Hs).
  destruct (Ascii.eqb_spec a " "%char) as [->|]; [|done].
  discriminate.
Qed.

End StringFacts.

(* ===================================================================== *)
(** ** Facts about the packets and about SCRAM *)
(* ===================================================================== *)

Module BuilderFacts.
Import Buf JS Parser Builder Framer Stream Text Server.
Import BufFacts FramerFacts TextFacts ParserFacts.

Lemma query_is_frame sql :
  createSimpleQueryPacket sql = frame QUERY (cstring (fromString sql)).
Proof.
  unfold createSimpleQueryPacket, frame. rewrite len_cstring.
  cbn [app]. unfold cstring. do 3 f_equal. lia.
Qed.

Lemma password_is_frame password (term : bool) :
  createPasswordPacket password term
  = frame PASSWORD_MESSAGE
          (if term then cstring (fromString password) else fromString password).
Proof.
  unfold createPasswordPacket, frame. destruct term.
  - rewrite len_cstring. cbn [app]. unfold cstring. do 3 f_equal. lia.
  - cbn [app]. rewrite app_nil_r. do 3 f_equal. lia.
Qed.

Lemma sasl_is_frame mechanism first :
  createSASLInitialResponsePacket mechanism first
  = frame PASSWORD_MESSAGE
          (cstring (fromString mechanism)
             ++ int32BE (len (fromString first)) ++ fromString first).
Proof.
  unfold createSASLInitialResponsePacket, frame, cstring.
  cbn [app]. by rewrite <- !app_assoc.
Qed.

Lemma sliceFrom_frame t body : sliceFrom (frame t body) 5 = body.
Proof.
  change 5 with (len (t :: int32BE (4 + len body))).
  change (frame t body) with ((t :: int32BE (4 + len body)) ++ body).
  apply sliceFrom_app.
Qed.

Lemma frameTurn_frame t body (rest : Buffer) :
  4 + len body < 2 ^ 31 ->
  frameTurn (frame t body ++ rest) = Dispatch (frame t body) rest.
Proof. intros H. by apply (frameTurn_complete (t, body)). Qed.

End BuilderFacts.

Module ScramMore.
Import Buf JS Parser Scram Text Server.
Import BufFacts TextFacts StringFacts.

(** *** saslName *)

Lemma unescape_other a (r : string) :
  a <> "="%char -> unescape (String a r) = String a (unescape r).
Proof.
  intros H.
  destruct a as [[] [] [] [] [] [] [] []];
    first [reflexivity | exfalso; apply H; reflexivity].
Qed.

Lemma saslName_cons a (r : string) :
  saslName (String a r)
  = if Ascii.eqb a "=" then String "=" (String "3" (String "D" (saslName r)))
    else if Ascii.eqb a "," then
           String "=" (String "2" (String "C" (saslName r)))
         else String a (saslName r).
Proof.
  unfold saslName. cbn [replaceChar].
  destruct (Ascii.eqb_spec a "="%char) as [->|Hne]; [reflexivity|].
  cbn [replaceChar]. destruct (Ascii.eqb a ","); reflexivity.
Qed.

Lemma unescape_saslName (name : string) : unescape (saslName name) = name.
Proof.
  induction name as [|a r IH]; [reflexivity|].
  rewrite saslName_cons.
  destruct (Ascii.eqb_spec a "="%char) as [->|He].
  { cbn [unescape]. by rewrite IH. }
  destruct (Ascii.eqb_spec a ","%char) as [->|Hc].
  { cbn [unescape]. by rewrite IH. }
  rewrite unescape_other by done. by rewrite IH.
Qed.

Lemma saslName_clean (name : string) : hasChar "," (saslName name) = false.
Proof.
  induction name as [|a r IH]; [reflexivity|].
  rewrite saslName_cons.
  destruct (Ascii.eqb_spec a "="%char) as [->|He]; [exact IH|].
  destruct (Ascii.eqb_spec a ","%char) as [->|Hc]; [exact IH|].
  cbn [hasChar]. rewrite IH.
  destruct (Ascii.eqb_spec a ","%char); [done|reflexivity].
Qed.

(** *** base64 *)

Lemma b64_char_clean n : Ascii.eqb (Crypto.b64_char n) "," = false.
Proof.
  unfold Crypto.b64_char.
  destruct (nth_in_or_default (N.to_nat n) Crypto.b64_chars "="%char)
    as [Hin| ->]; [|reflexivity].
  revert Hin. generalize (nth (N.to_nat n) Crypto.b64_chars "="%char).
  intros a Hin. vm_compute in Hin.
  repeat (destruct Hin as [<-|Hin]; [reflexivity|]). destruct Hin.
Qed.

Lemma base64_encode_list_clean n : forall bs,
  (length bs <= n)%nat ->
  Forall (fun a => Ascii.eqb a "," = false) (Crypto.base64_encode_list bs).
Proof.
  induction n as [n IH] using lt_wf_ind. intros bs Hn.
  destruct bs as [|a [|b [|c r]]]; cbn [Crypto.base64_encode_list].
  - constructor.
  - repeat constructor; apply b64_char_clean.
  - repeat constructor; apply b64_char_clean.
  - repeat (constructor; [apply b64_char_clean|]).
    cbn [length] in Hn. apply (IH (length r)); lia.
Qed.

Lemma hasChar_of_list c (l : list ascii) :
  Forall (fun a => Ascii.eqb a c = false) l ->
  hasChar c (string_of_list_ascii l) = false.
Proof.
  induction 1 as [|a l Ha Hl IH]; [reflexivity|].
  cbn [string_of_list_ascii hasChar]. by rewrite Ha, IH.
Qed.

Lemma base64_encode_clean bs : hasChar "," (Crypto.base64_encode bs) = false.
Proof.
  apply hasChar_of_list, (base64_encode_list_clean (length bs)). lia.
Qed.

(** *** Comparison of buffers *)

Lemma equals_eq (a b : Buffer) : equals a b = true <-> a = b.
Proof.
  revert b. induction a as [|x a IH]; intros [|y b]; cbn [equals];
    try (split; [discriminate|discriminate]); [done|].
  rewrite andb_true_iff, IH.
  destruct (ConnFacts.byte_eqb_spec x y) as [->|Hne].
  - split; [intros [_ ->]; reflexivity|intros E; by injection E].
  - split; [intros [? _]; discriminate|intros E; injection E; congruence].
Qed.

End ScramMore.

(* ===================================================================== *)
(** ** Facts about the framing loop *)
(* ===================================================================== *)

Module LoopFacts.
Import Buf Framer Stream Trace BufFacts FramerFacts.

Lemma frameTurn_inv (b m rest : Buffer) :
  frameTurn b = Dispatch m rest ->
  5 <= len m /\ readInt32BE m 1 = Some (len m - 1) /\ b = m ++ rest.
Proof.
  intros H.
  destruct (frameTurn_dispatch b m rest H) as (declared & Hd & Hle & Hm & ->).
  assert (4 <= declared).
  { unfold frameTurn in H. destruct (len (m ++ rest) <? 5); [done|].
    rewrite Hd in H. destruct (Z.ltb_spec declared 4); [done|lia]. }
  split; [lia|]. split; [|done].
  rewrite (readInt32BE_prefix m rest 1) by lia.
  rewrite Hd. f_equal. lia.
Qed.

Lemma frameTurn_resync (b rest : Buffer) :
  frameTurn b = Resync rest -> exists x, b = x :: rest.
Proof.
  unfold frameTurn. destruct (Z.ltb_spec (len b) 5) as [|Hlen]; [done|].
  destruct (readInt32BE b 1) as [n|]; [|done].
  destruct (n <? 4).
  - intros [= <-]. destruct b as [|x b]; [unfold len in Hlen; cbn in Hlen; lia|].
    by exists x.
  - by destruct (len b <? n + 1).
Qed.

Ltac split5 := split; [|split; [|split; [|split]]].

Lemma frameLoop_record fuel : forall (b : Buffer) log,
  (length b <= fuel)%nat ->
  exists ms rest,
    frameLoop record fuel b log = Some (rest, log ++ ms)
    /\ frameTurn rest = Wait
    /\ (exists skipped, b = skipped ++ rest)
    /\ Forall (fun m => 5 <= len m /\ readInt32BE m 1 = Some (len m - 1)) ms
    /\ len (concat ms) + len rest <= len b.
Proof.
  induction fuel as [|fuel IH]; intros b log Hfuel.
  - destruct b; [|cbn in Hfuel; lia].
    exists [], []. cbn [frameLoop concat]. rewrite app_nil_r.
    split5; [done|done|by exists []|constructor|done].
  - cbn [frameLoop]. destruct (frameTurn b) as [|rest|m rest] eqn:E.
    + exists [], b. rewrite app_nil_r. cbn [concat].
      split5; [done|done|by exists []|constructor|].
      change (len []) with 0. lia.
    + destruct (frameTurn_resync b rest E) as [x ->].
      destruct (IH rest log) as (ms & rest' & E' & Hw & [sk Hsk] & Hall & Hlen).
      { cbn [length] in Hfuel. lia. }
      exists ms, rest'. rewrite E'.
      split5; [done|done|exists (x :: sk); by rewrite Hsk|done|].
      unfold len in *. cbn [length]. lia.
    + destruct (frameTurn_inv b m rest E) as (H5 & Hhd & ->).
      cbn [record mbind option_bind].
      destruct (IH rest (log ++ [m]))
        as (ms & rest' & E' & Hw & [sk Hsk] & Hall & Hlen).
      { rewrite length_app in Hfuel. unfold len in H5. lia. }
      exists (m :: ms), rest'. rewrite E', <- app_assoc.
      split5; [done|done|exists (m ++ sk); by rewrite Hsk, app_assoc| |].
      * by constructor.
      * cbn [concat]. rewrite !len_app. lia.
Qed.

End LoopFacts.

(* ===================================================================== *)
(** ** Facts about exchanges with a server *)
(* ===================================================================== *)

Module SessionFacts.
Import Buf JS Parser Scram Builder Framer Conn Stream Wire Trace.
Import Text Server Session.
Import BufFacts DataRowFacts FramerFacts ConnFacts.
Import TextFacts ParserFacts StringFacts BuilderFacts.



Lemma frame_long t body : (len (frame t body) <? 5) = false.
Proof.
  apply Z.ltb_ge. rewrite len_frame. pose proof (len_nonneg body). lia.
Qed.


Section WithProviders.
Variable NFKC : string -> string.
Variable md5hex : Buffer -> string.
Variable randomBytes : nat -> Buffer.

Ltac open_frame t body :=
  unfold processMessage; rewrite frame_long;
  change (frame t body) with (t :: (int32BE (4 + len body) ++ body)) at 1;
  cbv zeta; rewrite sliceFrom_frame.

Lemma processMessage_R body c :
  processMessage NFKC md5hex randomBytes (frame "R" body) c
  = handleAuthenticationMessage NFKC md5hex randomBytes body c.
Proof. open_frame "R"%byte body. reflexivity. Qed.

Lemma processMessage_K body c :
  processMessage NFKC md5hex randomBytes (frame "K" body) c = handleBackendKeyData body c.
Proof. open_frame "K"%byte body. reflexivity. Qed.

Lemma processMessage_Z body c :
  processMessage NFKC md5hex randomBytes (frame "Z" body) c = Some (handleReadyForQuery body c).
Proof. open_frame "Z"%byte body. reflexivity. Qed.





(** A chunk made of whole messages, arriving on an empty accumulator. *)
Lemma onSocketData_stream ms c :
  buffer c = [] -> Forall wellFormed ms ->
  onSocketData NFKC md5hex randomBytes (stream ms) c
  = c' ← dispatchAll (processMessage NFKC md5hex randomBytes) (map frameOf ms) c; Some (with_buffer [] c').
Proof.
  intros Hb Hms. unfold onSocketData. rewrite Hb.
  pose proof (feed_stream (processMessage NFKC md5hex randomBytes) [stream ms] ms [] c Hms) as E.
  cbn [concat feed] in E. rewrite app_nil_r in E.
  specialize (E eq_refl).
  assert (Hshort : shortOf [] ms).
  { destruct ms as [|m ms']; [done|]. cbn [shortOf].
    unfold frameOf. rewrite len_frame. pose proof (len_nonneg (snd m)).
    change (len []) with 0. lia. }
  specialize (E Hshort).
  destruct (onData (processMessage NFKC md5hex randomBytes) [] c (stream ms)) as [[rest c']|];
    cbn [mbind option_bind] in *.
  - destruct (dispatchAll (processMessage NFKC md5hex randomBytes) (map frameOf ms) c) as [c''|];
      cbn [mbind option_bind] in *; by simplify_eq.
  - by destruct (dispatchAll (processMessage NFKC md5hex randomBytes) (map frameOf ms) c).
Qed.

(** *** The reply to a query *)





Lemma bind_Some {A B} (x : A) (f : A -> option B) : Some x ≫= f = f x.
Proof. reflexivity. Qed.


(** *** Start-up *)

Lemma small_wellFormed t (body : Buffer) :
  len body <= 8 -> wellFormed (t, body).
Proof.
  intros H. unfold wellFormed. cbn [snd].
  change (2 ^ 31) with 2147483648. lia.
Qed.

(** *** Messages the client drops *)

Lemma processMessage_irrelevant (m : message) c :
  relevant m = false ->
  processMessage NFKC md5hex randomBytes (frameOf m) c = Some c.
Proof.
  destruct m as [t body]. unfold relevant, frameOf. cbn [fst snd existsb].
  intros H.
  apply orb_false_iff in H as [HR H]. apply orb_false_iff in H as [HK H].
  apply orb_false_iff in H as [HZ H]. apply orb_false_iff in H as [HE H].
  apply orb_false_iff in H as [HT H]. apply orb_false_iff in H as [HD H].
  apply orb_false_iff in H as [HC H]. apply orb_false_iff in H as [HI _].
  open_frame t body. rewrite HR, HK, HZ, HE, HT, HD, HC, HI.
  destruct (Byte.eqb t "N"); [reflexivity|].
  destruct (Byte.eqb t "S"); [reflexivity|].
  change (false || false || false || false || Byte.eqb t "n")
    with (Byte.eqb t "n").
  destruct (Byte.eqb t "n"); [|reflexivity].
  destruct (currentQuery c); [|reflexivity].
  unfold handleQueryResponse. by rewrite HT, HD, HC, HI.
Qed.

Lemma dispatchAll_relevant ms : forall c,
  dispatchAll (processMessage NFKC md5hex randomBytes) (map frameOf ms) c
  = dispatchAll (processMessage NFKC md5hex randomBytes)
                (map frameOf (List.filter relevant ms)) c.
Proof.
  induction ms as [|m ms IH]; intros c; [reflexivity|].
  cbn [List.filter]. destruct (relevant m) eqn:E.
  - cbn [map dispatchAll].
    destruct (processMessage NFKC md5hex randomBytes (frameOf m) c);
      [rewrite !bind_Some; apply IH|reflexivity].
  - cbn [map dispatchAll].
    rewrite processMessage_irrelevant by done. rewrite bind_Some.
    apply IH.
Qed.

Lemma wellFormed_filter (f : message -> bool) ms :
  Forall wellFormed ms -> Forall wellFormed (List.filter f ms).
Proof.
  induction 1 as [|m ms Hm Hms IH]; [constructor|].
  cbn [List.filter]. destruct (f m); [by constructor|done].
Qed.

End WithProviders.
End SessionFacts.

(* ===================================================================== *)
(** ** The handlers and the accumulator *)
(* ===================================================================== *)

Module ChunkFacts.
Import Buf JS Parser Scram Builder Framer Conn Stream Wire Trace.
Import Text Server Session.
Import BufFacts FramerFacts ConnFacts SessionFacts.

(** The handlers never read [this.buffer]: what they do to a connection
    does not depend on the bytes that wait in the accumulator. *)

Ltac conn_fields :=
  cbn [host port database user password sock buffer processId secretKey
       encoding state readyForQuery currentQuery scram queries connecting
       draws with_sock with_buffer with_keys with_state with_readyForQuery
       with_currentQuery with_scram with_queries with_connecting with_draws].

Lemma with_buffer_same c : with_buffer (buffer c) c = c.
Proof. by destruct c. Qed.

Lemma on_sock_buffer f b c :
  on_sock f (with_buffer b c) = with_buffer b (on_sock f c).
Proof. reflexivity. Qed.

Lemma queryOnReady_buffer q status b c :
  queryOnReady q status (with_buffer b c)
  = with_buffer b (queryOnReady q status c).
Proof.
  unfold queryOnReady. conn_fields.
  destruct (currentQuery c); reflexivity.
Qed.

Lemma runReady_buffer status l b c :
  runReady status (with_buffer b c) l = with_buffer b (runReady status c l).
Proof.
  unfold runReady. destruct l as [|q]; [reflexivity|].
  rewrite on_sock_buffer. apply queryOnReady_buffer.
Qed.

Lemma fold_buffer {A} (f : conn -> A -> conn) b :
  (forall c x, f (with_buffer b c) x = with_buffer b (f c x)) ->
  forall l c, fold_left f l (with_buffer b c) = with_buffer b (fold_left f l c).
Proof.
  intros Hf l. induction l as [|x l IH]; intros c; [reflexivity|].
  cbn [fold_left]. by rewrite Hf, IH.
Qed.

Lemma emitReady_buffer status b c :
  emitReady status (with_buffer b c) = with_buffer b (emitReady status c).
Proof.
  unfold emitReady. conn_fields. apply fold_buffer.
  intros. apply runReady_buffer.
Qed.

Lemma emitAuthenticationError_buffer e b c :
  emitAuthenticationError e (with_buffer b c)
  = with_buffer b (emitAuthenticationError e c).
Proof.
  unfold emitAuthenticationError. conn_fields.
  destruct (from_option onAuthError false (sock c)); reflexivity.
Qed.

Lemma runError_buffer e l b c :
  runError e (with_buffer b c) l = with_buffer b (runError e c l).
Proof. destruct l; reflexivity. Qed.

Lemma emitError_buffer e b c :
  emitError e (with_buffer b c) = with_buffer b (emitError e c).
Proof.
  unfold emitError. conn_fields. apply fold_buffer.
  intros. apply runError_buffer.
Qed.

Lemma handleReadyForQuery_buffer body b c :
  handleReadyForQuery body (with_buffer b c)
  = with_buffer b (handleReadyForQuery body c).
Proof.
  unfold handleReadyForQuery.
  change (with_readyForQuery true (with_buffer b c))
    with (with_buffer b (with_readyForQuery true c)).
  apply emitReady_buffer.
Qed.

Lemma handleErrorResponse_buffer body b c :
  handleErrorResponse body (with_buffer b c)
  = with_buffer b (handleErrorResponse body c).
Proof.
  unfold handleErrorResponse. conn_fields.
  destruct (currentQuery c); [reflexivity|].
  by rewrite emitAuthenticationError_buffer, emitError_buffer.
Qed.

Lemma handleBackendKeyData_buffer body b c :
  handleBackendKeyData body (with_buffer b c)
  = with_buffer b <$> handleBackendKeyData body c.
Proof.
  unfold handleBackendKeyData. destruct (8 <=? len body); [|reflexivity].
  destruct (readInt32BE body 0); [|reflexivity].
  destruct (readInt32BE body 4); reflexivity.
Qed.

Lemma handleQueryResponse_buffer cq t body b c :
  handleQueryResponse cq t body (with_buffer b c)
  = with_buffer b <$> handleQueryResponse cq t body c.
Proof.
  unfold handleQueryResponse. conn_fields.
  destruct (Byte.eqb t "T").
  { destruct (parseRowDescription body); reflexivity. }
  destruct (Byte.eqb t "D").
  { destruct (parseDataRow body _); reflexivity. }
  destruct (Byte.eqb t "C"); [reflexivity|].
  destruct (Byte.eqb t "I"); reflexivity.
Qed.

Section WithProviders.
Variable NFKC : string -> string.
Variable md5hex : Buffer -> string.
Variable randomBytes : nat -> Buffer.

Lemma handleSASLAuthentication_buffer body b c :
  handleSASLAuthentication randomBytes body (with_buffer b c)
  = with_buffer b (handleSASLAuthentication randomBytes body c).
Proof.
  unfold handleSASLAuthentication. conn_fields.
  destruct (existsb _ _); [reflexivity|].
  apply emitAuthenticationError_buffer.
Qed.

Lemma handleSASLContinue_buffer body b c :
  handleSASLContinue NFKC body (with_buffer b c)
  = with_buffer b <$> handleSASLContinue NFKC body c.
Proof.
  unfold handleSASLContinue. conn_fields.
  destruct (processSASLContinue NFKC (scram c) body (password c))
    as [[st [e|]]|]; cbn [mbind option_bind fmap option_fmap option_map];
    [|reflexivity|reflexivity].
  f_equal.
  change (with_scram st (with_buffer b c)) with (with_buffer b (with_scram st c)).
  apply emitAuthenticationError_buffer.
Qed.

Lemma handleSASLFinal_buffer body b c :
  handleSASLFinal body (with_buffer b c)
  = with_buffer b <$> handleSASLFinal body c.
Proof.
  unfold handleSASLFinal. conn_fields.
  destruct (processSASLFinal (scram c) body)
    as [[st [e|]]|]; cbn [mbind option_bind fmap option_fmap option_map];
    [|reflexivity|reflexivity].
  f_equal.
  change (with_scram st (with_buffer b c)) with (with_buffer b (with_scram st c)).
  apply emitAuthenticationError_buffer.
Qed.

Lemma handleAuthenticationMessage_buffer body b c :
  handleAuthenticationMessage NFKC md5hex randomBytes body (with_buffer b c)
  = with_buffer b <$> handleAuthenticationMessage NFKC md5hex randomBytes body c.
Proof.
  unfold handleAuthenticationMessage.
  destruct (len body <? 4); [reflexivity|].
  destruct (readInt32BE body 0) as [authType|]; [|reflexivity].
  cbn [mbind option_bind].
  destruct (authType =? 0); [reflexivity|].
  destruct (authType =? 3); [reflexivity|].
  destruct (authType =? 5); [reflexivity|].
  destruct (authType =? 10).
  { by rewrite handleSASLAuthentication_buffer. }
  destruct (authType =? 11); [apply handleSASLContinue_buffer|].
  destruct (authType =? 12); [apply handleSASLFinal_buffer|].
  by rewrite emitAuthenticationError_buffer.
Qed.

Lemma processMessage_buffer m b c :
  processMessage NFKC md5hex randomBytes m (with_buffer b c)
  = with_buffer b <$> processMessage NFKC md5hex randomBytes m c.
Proof.
  unfold processMessage. destruct (len m <? 5); [reflexivity|].
  destruct m as [|t m']; [reflexivity|]. cbv zeta.
  destruct (Byte.eqb t "R"); [apply handleAuthenticationMessage_buffer|].
  destruct (Byte.eqb t "K"); [apply handleBackendKeyData_buffer|].
  destruct (Byte.eqb t "Z").
  { by rewrite handleReadyForQuery_buffer. }
  destruct (Byte.eqb t "E").
  { by rewrite handleErrorResponse_buffer. }
  destruct (Byte.eqb t "N"); [reflexivity|].
  destruct (Byte.eqb t "S"); [reflexivity|].
  destruct (_ || _); [|reflexivity].
  conn_fields. destruct (currentQuery c); [|reflexivity].
  apply handleQueryResponse_buffer.
Qed.

Lemma frameLoop_buffer fuel : forall (buf : Buffer) b c,
  frameLoop (processMessage NFKC md5hex randomBytes) fuel buf (with_buffer b c)
  = prod_map id (with_buffer b)
      <$> frameLoop (processMessage NFKC md5hex randomBytes) fuel buf c.
Proof.
  induction fuel as [|fuel IH]; intros buf b c; [reflexivity|].
  cbn [frameLoop]. destruct (frameTurn buf) as [|rest|m rest];
    [reflexivity|apply IH|].
  rewrite processMessage_buffer.
  destruct (processMessage NFKC md5hex randomBytes m c) as [c'|];
    [|reflexivity].
  cbn [fmap option_fmap option_map mbind option_bind]. apply IH.
Qed.

Lemma feed_buffer chunks : forall (buf : Buffer) b c,
  feed (processMessage NFKC md5hex randomBytes) buf (with_buffer b c) chunks
  = prod_map id (with_buffer b)
      <$> feed (processMessage NFKC md5hex randomBytes) buf c chunks.
Proof.
  induction chunks as [|d more IH]; intros buf b c; [reflexivity|].
  cbn [feed]. unfold onData, processIncomingData.
  rewrite frameLoop_buffer.
  destruct (frameLoop _ _ _ c) as [[r c']|]; [|reflexivity].
  cbn [fmap option_fmap option_map mbind option_bind prod_map fst snd id].
  apply IH.
Qed.

Lemma receive_feed chunks : forall c,
  receive NFKC md5hex randomBytes chunks c
  = '(r, c') ← feed (processMessage NFKC md5hex randomBytes) (buffer c) c chunks;
    Some (with_buffer r c').
Proof.
  induction chunks as [|d more IH]; intros c.
  - cbn [receive feed mbind option_bind]. by rewrite with_buffer_same.
  - cbn [receive feed]. unfold onSocketData.
    destruct (onData _ (buffer c) c d) as [[r c']|]; [|reflexivity].
    cbn [mbind option_bind]. rewrite IH.
    change (buffer (with_buffer r c')) with r. rewrite feed_buffer.
    destruct (feed _ r c' more) as [[r2 c2]|]; reflexivity.
Qed.

End WithProviders.
End ChunkFacts.

(* ===================================================================== *)
(** ** Facts about authentication *)
(* ===================================================================== *)

Module AuthFacts.
Import Buf JS Parser Scram Builder Framer Conn Stream Wire Trace.
Import Text Server Session.
Import BufFacts DataRowFacts FramerFacts ConnFacts.
Import TextFacts ParserFacts StringFacts BuilderFacts ScramMore SessionFacts.

(** *** The list of SASL mechanisms *)

Lemma mechanismsLoop_encoded ms : forall (pre post : Buffer) acc fuel,
  Forall mechanismFits ms -> (length ms < fuel)%nat ->
  mechanismsLoop fuel (pre ++ concat (map cstring ms) ++ x00 :: post)
                 (len pre) acc
  = acc ++ map toStringAll ms.
Proof.
  induction ms as [|m ms IH]; intros pre post acc fuel Hms Hfuel;
    (destruct fuel as [|fuel]; [cbn in Hfuel; lia|]).
  - cbn [map concat app mechanismsLoop].
    rewrite sliceFrom_app.
    change (Byte.eqb x00 x00) with true. cbn [negb].
    by rewrite andb_false_r, app_nil_r.
  - inversion Hms as [|? ? [Hne Hm] Hms']; subst.
    destruct m as [|b m]; [done|].
    assert (Hb : b <> x00) by (inversion Hm as [|? ? [? ?] ?]; done).
    cbn [map concat mechanismsLoop].
    set (tail := concat (map cstring ms) ++ x00 :: post).
    assert (Hmsg : pre ++ (cstring (b :: m) ++ concat (map cstring ms))
                     ++ x00 :: post
                   = pre ++ (b :: m) ++ x00 :: tail).
    { subst tail. unfold cstring. by rewrite <- !app_assoc. }
    rewrite Hmsg.
    assert (Hlt : (len pre <? len (pre ++ (b :: m) ++ x00 :: tail)) = true).
    { apply Z.ltb_lt. rewrite len_app.
      pose proof (len_nonneg (m ++ x00 :: tail)).
      unfold len in *. cbn [app length]. lia. }
    rewrite Hlt, sliceFrom_app. cbn [app].
    rewrite (eqb_x00 b) by done. cbn [negb andb].
    change (b :: m ++ x00 :: tail) with ((b :: m) ++ x00 :: tail).
    rewrite readCString_at by (by apply asciiText_noNul).
    rewrite length16_ascii by done.
    replace (len pre + (len (b :: m) + 1)) with (len (pre ++ cstring (b :: m)))
      by (rewrite len_app, len_cstring; lia).
    replace (pre ++ (b :: m) ++ x00 :: tail)
      with ((pre ++ cstring (b :: m)) ++ concat (map cstring ms) ++ x00 :: post).
    2:{ subst tail. unfold cstring. rewrite <- !app_assoc. reflexivity. }
    rewrite IH by (done || cbn in Hfuel; lia).
    by rewrite <- app_assoc.
Qed.

Lemma length_cstrings ms : (length ms < length (cstrings ms))%nat.
Proof.
  unfold cstrings. rewrite length_app. cbn [length].
  enough (length ms <= length (concat (map cstring ms)))%nat by lia.
  induction ms as [|m ms IH]; cbn [map concat length]; [lia|].
  rewrite length_app. unfold cstring at 1. rewrite length_app.
  cbn [length]. lia.
Qed.

Lemma mechanisms_wire ms :
  Forall mechanismFits ms ->
  mechanismsLoop (length (cstrings ms)) (cstrings ms) 0 []
  = map toStringAll ms.
Proof.
  intros H.
  pose proof (mechanismsLoop_encoded ms [] [] [] (length (cstrings ms)) H
                (length_cstrings ms)) as E.
  cbn [app] in E. change (len []) with 0 in E. exact E.
Qed.

End AuthFacts.

(* ===================================================================== *)
(** ** Further properties of the code *)
(* ===================================================================== *)

Module Extras.
Import Buf JS Parser Scram Builder Framer Conn.
Import Wire Stated Stream Trace Samples Text Server Session.
Import BufFacts FramerFacts TextFacts ParserFacts StringFacts BuilderFacts.
Import DataRowFacts ConnFacts ScramMore LoopFacts SessionFacts ChunkFacts.
Import AuthFacts.

(** Goals about concrete data: conjunctions, lists and comparisons of
    numerals. *)
Ltac concrete :=
  repeat first [ discriminate | reflexivity | split | constructor ].

(** *** src/messageParser.mjs *)



(** X2.  [parseNullTerminatedPairs] reads back the fields of an
    ErrorResponse body: for ASCII codes and values, the object maps each
    code to its value, the last field of a code winning. *)
Theorem parseNullTerminatedPairs_roundtrip (l : list (byte * Buffer)) :
  Forall pairFits l ->
  parseNullTerminatedPairs (encodePairs l)
  = mkObj (collect (map pairEntry l)) true.
Proof. apply parseNullTerminatedPairs_wire. Qed.

Lemma parseNullTerminatedPairs_roundtrip_witness :
  parseNullTerminatedPairs
    (encodePairs [("S"%byte, fromString "ERROR"); ("M"%byte, fromString "one");
                  ("M"%byte, fromString "two")])
  = mkObj (collect (map pairEntry
                        [("S"%byte, fromString "ERROR");
                         ("M"%byte, fromString "one");
                         ("M"%byte, fromString "two")])) true.
Proof.
  apply (parseNullTerminatedPairs_roundtrip
           [("S"%byte, fromString "ERROR"); ("M"%byte, fromString "one");
            ("M"%byte, fromString "two")]).
  concrete.
Defined.

(** X3.  [parseRowDescription] reads back a RowDescription body: for
    fewer than 2^15 fields with ASCII names and numbers in the range of
    their wire size, it returns exactly the fields that were encoded, in
    order. *)
Theorem parseRowDescription_roundtrip (fs : list field) :
  Z.of_nat (length fs) < 2 ^ 15 -> Forall fieldFits fs ->
  parseRowDescription (encodeRowDescription fs) = Some fs.
Proof. apply parseRowDescription_wire. Qed.

Lemma parseRowDescription_roundtrip_witness :
  parseRowDescription
    (encodeRowDescription [mkField "id" 16384 1 23 4 (-1) 0;
                           mkField "name" 16384 2 25 (-1) (-1) 0])
  = Some [mkField "id" 16384 1 23 4 (-1) 0;
          mkField "name" 16384 2 25 (-1) (-1) 0].
Proof.
  apply (parseRowDescription_roundtrip
           [mkField "id" 16384 1 23 4 (-1) 0;
            mkField "name" 16384 2 25 (-1) (-1) 0]).
  - reflexivity.
  - concrete.
Defined.

(** X4.  [parseRowDescription] throws exactly when the body has fewer
    than two bytes.  Otherwise it returns at most as many fields as the
    count announces, and no more than the body has room for (a field
    takes at least 19 bytes): a count larger than the data is not
    followed past the end of the message. *)
Theorem parseRowDescription_bounds (message : Buffer) :
  (len message < 2 -> parseRowDescription message = None)
  /\ (2 <= len message ->
      exists fieldCount fs,
        readInt16BE message 0 = Some fieldCount
        /\ parseRowDescription message = Some fs
        /\ (length fs <= Z.to_nat fieldCount)%nat
        /\ 2 + 19 * Z.of_nat (length fs) <= len message).
Proof.
  split.
  - intros H. unfold parseRowDescription.
    by rewrite readInt16BE_short by lia.
  - intros H. unfold parseRowDescription.
    destruct (readInt16BE_in_range message 0) as [n Hn]; [lia..|].
    rewrite Hn. rewrite bind_Some.
    destruct (rowDescLoop_bounded (Z.to_nat n) message 2 [])
      as (fs & E & Hfs & Hb); [lia|].
    exists n, fs. cbn [app] in E. repeat split; [done..|]. lia.
Qed.

(** X5.  [parseDataRow] on a DataRow cut in the middle of a column
    returns the columns that are complete and stops there without
    throwing: the cut column and those after it are absent from the
    row. *)
Theorem parseDataRow_truncated (fields : list field)
        (done : list (option Buffer)) (c : option Buffer)
        (later : list (option Buffer)) (partial more : Buffer) :
  Z.of_nat (length (done ++ c :: later)) < 2 ^ 15 ->
  Forall fits (done ++ [c]) ->
  partial ++ more = encodeColumn c -> more <> [] ->
  parseDataRow (int16BE (Z.of_nat (length (done ++ c :: later)))
                  ++ concat (map encodeColumn done) ++ partial)
               (Some fields)
  = Some (assign fields done empty_obj).
Proof.
  intros Hn Hfit Hsplit Hmore. unfold parseDataRow.
  apply Forall_app in Hfit as [Hdone Hc]. inversion Hc; subst.
  rewrite readInt16BE_head by lia.
  cbn [mbind option_bind].
  set (n := Z.of_nat (length (done ++ c :: later))).
  change 2 with (len (int16BE n)).
  assert (Hcount : 0 + Z.of_nat (length done) <= n).
  { subst n. rewrite length_app. lia. }
  rewrite dataRowLoop_prefix by done.
  rewrite (app_assoc (int16BE n)).
  by eapply dataRowLoop_partial.
Qed.

Lemma parseDataRow_truncated_witness :
  parseDataRow (int16BE (Z.of_nat (length ([Some (fromString "1")]
                                             ++ Some (fromString "hello") :: [])))
                  ++ concat (map encodeColumn [Some (fromString "1")])
                  ++ (int32BE 5 ++ fromString "he"))
               (Some [fieldNamed "a"; fieldNamed "b"])
  = Some (assign [fieldNamed "a"; fieldNamed "b"] [Some (fromString "1")]
                 empty_obj).
Proof.
  apply (parseDataRow_truncated [fieldNamed "a"; fieldNamed "b"]
           [Some (fromString "1")] (Some (fromString "hello")) []
           (int32BE 5 ++ fromString "he") (fromString "llo")).
  - reflexivity.
  - concrete.
  - reflexivity.
  - discriminate.
Defined.

(** X6.  [parseSCRAMParams] reads back a list of attributes [k=v] joined
    by commas, provided no key or value holds [=] or [,] and no key is
    empty or [__proto__]: the object maps each key to its value, the
    last attribute of a key winning. *)
Theorem parseSCRAMParams_roundtrip (l : list (string * string)) :
  Forall attributeFits l ->
  parseSCRAMParams (attributes l) = mkObj (collect l) true.
Proof.
  intros H. unfold parseSCRAMParams, attributes.
  destruct l as [|kv l]; [reflexivity|].
  rewrite (split_join ","%char).
  - rewrite fold_scramStep by done. apply assignments_collect.
    eapply Forall_impl; [exact H|]. intros e He. apply He.
  - done.
  - apply Forall_fmap. eapply Forall_impl; [exact H|].
    intros e He. by apply attribute_clean.
Qed.

Lemma parseSCRAMParams_roundtrip_witness :
  parseSCRAMParams
    (attributes [("r", "fyko+d2lbbFgONRv9qkxdawL3rfcNHYJY1ZVvWVs7j");
                 ("s", "QSXCR+Q6sek8bf92"); ("i", "4096")]%string)
  = mkObj (collect [("r", "fyko+d2lbbFgONRv9qkxdawL3rfcNHYJY1ZVvWVs7j");
                    ("s", "QSXCR+Q6sek8bf92"); ("i", "4096")]%string) true.
Proof.
  apply (parseSCRAMParams_roundtrip
           [("r", "fyko+d2lbbFgONRv9qkxdawL3rfcNHYJY1ZVvWVs7j");
            ("s", "QSXCR+Q6sek8bf92"); ("i", "4096")]%string).
  concrete.
Defined.

(** X7.  [parseCommandComplete] on a tag made of a verb and a decimal
    count ("SELECT 3", "UPDATE 12"): the command is the verb, the row
    count is the number written (below 2^53, which a JavaScript number
    holds exactly) and there is no oid. *)
Theorem parseCommandComplete_counted (message : Buffer) (verb : string)
        (ds : list Z) :
  readCString message 0 = (verb +:+ " " +:+ numeral ds)%string ->
  hasChar " " verb = false ->
  ds <> [] -> Forall isDigit ds -> numeralValue ds < 2 ^ 53 ->
  parseCommandComplete message
  = mkCommand verb (Int (numeralValue ds)) None
              (verb +:+ " " +:+ numeral ds)%string.
Proof.
  intros Htag Hverb Hne Hds _. unfold parseCommandComplete. rewrite Htag.
  change (" " +:+ numeral ds)%string with (String " " (numeral ds)).
  rewrite split_cons by done.
  rewrite split_clean by (by apply numeral_clean).
  change (length [verb; numeral ds] =? 3)%nat with false.
  change (2 <=? length [verb; numeral ds])%nat with true.
  cbn [andb List.last removelast].
  rewrite parseInt_numeral by done.
  reflexivity.
Qed.

Lemma parseCommandComplete_counted_witness :
  parseCommandComplete (fromString "UPDATE 12" ++ [x00])
  = mkCommand "UPDATE" (Int (numeralValue [1; 2])) None
              ("UPDATE" +:+ " " +:+ numeral [1; 2])%string.
Proof.
  apply (parseCommandComplete_counted (fromString "UPDATE 12" ++ [x00])
           "UPDATE"%string [1; 2]).
  - reflexivity.
  - reflexivity.
  - discriminate.
  - repeat constructor; unfold isDigit; lia.
  - reflexivity.
Defined.

(** X8.  [parseCommandComplete] on the tag of an INSERT, "INSERT oid
    count" with the verb in any case: the oid is the second token and
    the row count the third. *)
Theorem parseCommandComplete_insert (message : Buffer) (verb : string)
        (os ds : list Z) :
  readCString message 0
  = (verb +:+ " " +:+ numeral os +:+ " " +:+ numeral ds)%string ->
  caseless verb "INSERT" ->
  os <> [] -> Forall isDigit os -> numeralValue os < 2 ^ 53 ->
  ds <> [] -> Forall isDigit ds -> numeralValue ds < 2 ^ 53 ->
  parseCommandComplete message
  = mkCommand verb (Int (numeralValue ds)) (Some (Int (numeralValue os)))
              (verb +:+ " " +:+ numeral os +:+ " " +:+ numeral ds)%string.
Proof.
  intros Htag Hverb Hos1 Hos _ Hds1 Hds _. unfold parseCommandComplete.
  rewrite Htag.
  assert (Hsp : hasChar " " verb = false)
    by (by apply (lower_keeps_space verb _ Hverb)).
  change (" " +:+ numeral os +:+ " " +:+ numeral ds)%string
    with (String " " (numeral os +:+ String " " (numeral ds))).
  rewrite split_cons by done.
  rewrite split_cons by (by apply numeral_clean).
  rewrite split_clean by (by apply numeral_clean).
  change (length [verb; numeral os; numeral ds] =? 3)%nat with true.
  change (default EmptyString ([verb; numeral os; numeral ds] !! 0%nat))
    with verb.
  change (default EmptyString ([verb; numeral os; numeral ds] !! 1%nat))
    with (numeral os).
  change (default EmptyString ([verb; numeral os; numeral ds] !! 2%nat))
    with (numeral ds).
  replace (String.eqb (toLowerCase verb) "insert") with true
    by (symmetry; apply String.eqb_eq; exact Hverb).
  cbn [andb]. by rewrite !parseInt_numeral.
Qed.

Lemma parseCommandComplete_insert_witness :
  parseCommandComplete (fromString "Insert 0 12" ++ [x00])
  = mkCommand "Insert" (Int (numeralValue [1; 2]))
              (Some (Int (numeralValue [0])))
              ("Insert" +:+ " " +:+ numeral [0] +:+ " " +:+ numeral [1; 2])%string.
Proof.
  apply (parseCommandComplete_insert (fromString "Insert 0 12" ++ [x00])
           "Insert"%string [0] [1; 2]).
  - reflexivity.
  - reflexivity.
  - discriminate.
  - repeat constructor; unfold isDigit; lia.
  - reflexivity.
  - discriminate.
  - repeat constructor; unfold isDigit; lia.
  - reflexivity.
Defined.

(** *** src/messageBuilder.mjs *)

(** X9.  A Query packet is one whole frame: its length field counts
    every byte after the type byte, so the framing rule cuts exactly the
    packet out of whatever follows it; the type is ['Q'] and, when the
    text holds no NUL, the C string at offset 5 is the text. *)
Theorem query_packet_framed (sql : string) (rest : Buffer) :
  noNul (fromString sql) -> len (fromString sql) + 5 < 2 ^ 31 ->
  frameTurn (createSimpleQueryPacket sql ++ rest)
  = Dispatch (createSimpleQueryPacket sql) rest
  /\ head (createSimpleQueryPacket sql) = Some "Q"%byte
  /\ readCString (createSimpleQueryPacket sql) 5 = sql.
Proof.
  intros Hn Hl. rewrite query_is_frame. split; [|split].
  - apply frameTurn_frame. rewrite len_cstring. lia.
  - reflexivity.
  - change (frame QUERY (cstring (fromString sql)))
      with ((QUERY :: int32BE (4 + len (cstring (fromString sql))))
              ++ fromString sql ++ [x00]).
    change 5 with (len (QUERY :: int32BE (4 + len (cstring (fromString sql))))).
    rewrite readCString_at by done. apply toStringAll_fromString.
Qed.

Lemma query_packet_framed_witness :
  frameTurn (createSimpleQueryPacket "SELECT 1" ++ [x58])
  = Dispatch (createSimpleQueryPacket "SELECT 1") [x58]
  /\ head (createSimpleQueryPacket "SELECT 1") = Some "Q"%byte
  /\ readCString (createSimpleQueryPacket "SELECT 1") 5 = "SELECT 1"%string.
Proof.
  apply (query_packet_framed "SELECT 1" [x58]).
  - concrete.
  - reflexivity.
Defined.

(** X10.  A password packet is one whole frame of type ['p'] in both
    modes: with the terminator the C string at offset 5 is the
    password, without it the body is the password and nothing else. *)
Theorem password_packet_framed (password : string) (term : bool)
        (rest : Buffer) :
  noNul (fromString password) -> len (fromString password) + 5 < 2 ^ 31 ->
  frameTurn (createPasswordPacket password term ++ rest)
  = Dispatch (createPasswordPacket password term) rest
  /\ head (createPasswordPacket password term) = Some "p"%byte
  /\ (term = true -> readCString (createPasswordPacket password term) 5
                     = password)
  /\ (term = false -> sliceFrom (createPasswordPacket password term) 5
                      = fromString password).
Proof.
  intros Hn Hl. rewrite password_is_frame. split; [|split; [|split]].
  - apply frameTurn_frame. destruct term; rewrite ?len_cstring; lia.
  - reflexivity.
  - intros ->.
    change (frame PASSWORD_MESSAGE (cstring (fromString password)))
      with ((PASSWORD_MESSAGE
               :: int32BE (4 + len (cstring (fromString password))))
              ++ fromString password ++ [x00]).
    change 5 with (len (PASSWORD_MESSAGE
                          :: int32BE (4 + len (cstring (fromString password))))).
    rewrite readCString_at by done. apply toStringAll_fromString.
  - intros ->. apply sliceFrom_frame.
Qed.

Lemma password_packet_framed_witness :
  frameTurn (createPasswordPacket "secret" false ++ [])
  = Dispatch (createPasswordPacket "secret" false) []
  /\ head (createPasswordPacket "secret" false) = Some "p"%byte
  /\ (false = true -> readCString (createPasswordPacket "secret" false) 5
                      = "secret"%string)
  /\ (false = false -> sliceFrom (createPasswordPacket "secret" false) 5
                       = fromString "secret").
Proof.
  apply (password_packet_framed "secret" false []).
  - concrete.
  - reflexivity.
Defined.

(** X11.  A SASLInitialResponse packet is one whole frame of type ['p']
    whose body is the mechanism name as a C string, the length of the
    client-first-message as an [int32], and that message. *)
Theorem sasl_initial_response_layout (mechanism first : string)
        (rest : Buffer) :
  noNul (fromString mechanism) ->
  len (fromString mechanism) + len (fromString first) + 9 < 2 ^ 31 ->
  let p := createSASLInitialResponsePacket mechanism first in
  let o := 5 + len (fromString mechanism) + 1 in
  frameTurn (p ++ rest) = Dispatch p rest
  /\ head p = Some "p"%byte
  /\ readCString p 5 = mechanism
  /\ readInt32BE p o = Some (len (fromString first))
  /\ sliceFrom p (o + 4) = fromString first.
Proof.
  intros Hn Hl. cbv zeta. rewrite sasl_is_frame.
  pose proof (len_nonneg (fromString mechanism)).
  pose proof (len_nonneg (fromString first)).
  set (m := fromString mechanism) in *. set (f := fromString first) in *.
  set (hd := PASSWORD_MESSAGE
               :: int32BE (4 + len (cstring m ++ int32BE (len f) ++ f))).
  assert (Hhd : len hd = 5) by reflexivity.
  assert (E : frame PASSWORD_MESSAGE (cstring m ++ int32BE (len f) ++ f)
              = hd ++ m ++ x00 :: (int32BE (len f) ++ f)).
  { subst hd. unfold frame, cstring. cbn [app]. by rewrite <- !app_assoc. }
  split; [|split; [|split; [|split]]].
  - apply frameTurn_frame.
    rewrite !len_app, len_cstring, len_int32BE. lia.
  - reflexivity.
  - rewrite E, <- Hhd. rewrite readCString_at by done.
    apply toStringAll_fromString.
  - rewrite E.
    apply (readInt32BE_at _ (hd ++ m ++ [x00]) f).
    + by rewrite <- !app_assoc.
    + rewrite !len_app, Hhd. change (len [x00]) with 1. lia.
    + unfold int32. change (2 ^ 31) with 2147483648 in *. lia.
  - rewrite E.
    replace (hd ++ m ++ x00 :: int32BE (len f) ++ f)
      with ((hd ++ m ++ [x00] ++ int32BE (len f)) ++ f)
      by (by rewrite <- !app_assoc).
    replace (5 + len m + 1 + 4) with (len (hd ++ m ++ [x00] ++ int32BE (len f))).
    + apply sliceFrom_app.
    + rewrite !len_app, Hhd, len_int32BE. change (len [x00]) with 1. lia.
Qed.

Lemma sasl_initial_response_layout_witness :
  let p := createSASLInitialResponsePacket "SCRAM-SHA-256" "n,,n=u,r=abc" in
  let o := 5 + len (fromString "SCRAM-SHA-256") + 1 in
  frameTurn (p ++ []) = Dispatch p []
  /\ head p = Some "p"%byte
  /\ readCString p 5 = "SCRAM-SHA-256"%string
  /\ readInt32BE p o = Some (len (fromString "n,,n=u,r=abc"))
  /\ sliceFrom p (o + 4) = fromString "n,,n=u,r=abc".
Proof.
  apply (sasl_initial_response_layout "SCRAM-SHA-256" "n,,n=u,r=abc" []).
  - concrete.
  - reflexivity.
Defined.

(** X12.  The start-up packet has no type byte: its first [int32] is
    the length of the whole packet, the second is the protocol version
    3.0 (196608), and the rest is the list of C strings [user], the
    user, [database], the database, [client_encoding], the encoding
    ([utf8] when none is given), closed by a zero byte. *)
Theorem startup_packet_layout (user database encoding : string) :
  let p := createStartupPacket user database encoding in
  len p < 2 ^ 31 ->
  readInt32BE p 0 = Some (len p)
  /\ readInt32BE p 4 = Some 196608
  /\ sliceFrom p 8
     = cstrings [fromString "user"; fromString user;
                 fromString "database"; fromString database;
                 fromString "client_encoding";
                 fromString (if String.eqb encoding EmptyString
                             then "utf8" else encoding)].
Proof.
  unfold createStartupPacket. cbv zeta. cbn [fold_left fst snd].
  set (e := if String.eqb encoding EmptyString then "utf8"%string else encoding).
  set (rest := cstrings [fromString "user"; fromString user;
                         fromString "database"; fromString database;
                         fromString "client_encoding"; fromString e]).
  assert (Hbody :
    (((((((int32BE 196608 ++ fromString "user" ++ [x00])
            ++ fromString user ++ [x00])
           ++ fromString "database" ++ [x00])
          ++ fromString database ++ [x00])
         ++ fromString "client_encoding" ++ [x00])
        ++ fromString e ++ [x00]) ++ [x00])
    = int32BE 196608 ++ rest).
  { subst rest. unfold cstrings, cstring. cbn [map concat].
    rewrite app_nil_r. by rewrite <- !app_assoc. }
  rewrite Hbody. clearbody rest. intros Hlen.
  rewrite !len_app, !len_int32BE in *.
  pose proof (len_nonneg rest).
  split; [|split].
  - rewrite (readInt32BE_at _ [] (int32BE 196608 ++ rest) (4 + len rest + 4) 0);
      [f_equal; lia|reflexivity|reflexivity|].
    unfold int32. change (2 ^ 31) with 2147483648 in *. lia.
  - by rewrite (readInt32BE_at _ (int32BE (4 + len rest + 4)) rest 196608 4).
  - rewrite (app_assoc (int32BE _) (int32BE _) rest).
    change 8 with (len (int32BE (4 + len rest + 4) ++ int32BE 196608)).
    apply sliceFrom_app.
Qed.

Lemma startup_packet_layout_witness :
  let p := createStartupPacket "alice" "shop" EmptyString in
  readInt32BE p 0 = Some (len p)
  /\ readInt32BE p 4 = Some 196608
  /\ sliceFrom p 8
     = cstrings [fromString "user"; fromString "alice";
                 fromString "database"; fromString "shop";
                 fromString "client_encoding"; fromString "utf8"].
Proof.
  apply (startup_packet_layout "alice" "shop" EmptyString).
  reflexivity.
Defined.

(** *** src/scramAuth.mjs *)

(** X13.  [saslName] escapes a user name so that it holds no comma and
    reads back to the name by the rule of RFC 5802 ([=2C] is a comma,
    [=3D] an equals sign): the two replacements are made in the order
    that keeps the escapes apart. *)
Theorem saslName_roundtrip (name : string) :
  hasChar "," (saslName name) = false
  /\ unescape (saslName name) = name.
Proof. split; [apply saslName_clean|apply unescape_saslName]. Qed.

(** X14.  [startSCRAMSHA256] builds a client-first-message that is the
    GS2 header [n,,] followed by the bare message, and the bare message
    splits at its commas into exactly the two attributes [n=] (the
    escaped user) and [r=] (the nonce, base64 of the random bytes),
    whatever the user name and the bytes drawn. *)
Theorem startSCRAMSHA256_first_message (random : Buffer) (st : scramState)
        (user : string) :
  let bare := ("n=" +:+ saslName user +:+ ",r="
                 +:+ Crypto.base64_encode random)%string in
  clientFirstMessageBare (startSCRAMSHA256 random st user) = Some bare
  /\ clientFirstMessage (startSCRAMSHA256 random st user)
     = Some ("n,," +:+ bare)%string
  /\ clientNonce (startSCRAMSHA256 random st user)
     = Some (Crypto.base64_encode random)
  /\ split "," bare
     = [("n=" +:+ saslName user)%string;
        ("r=" +:+ Crypto.base64_encode random)%string].
Proof.
  cbv zeta. split; [reflexivity|]. split; [reflexivity|].
  split; [reflexivity|].
  change ("n=" +:+ saslName user +:+ ",r=" +:+ Crypto.base64_encode random)
    with (("n=" +:+ saslName user)
            +:+ String "," ("r=" +:+ Crypto.base64_encode random)).
  rewrite split_cons.
  - rewrite split_clean; [reflexivity|].
    rewrite hasChar_app. by rewrite base64_encode_clean.
  - rewrite hasChar_app. by rewrite saslName_clean.
Qed.

(** X15.  [processSASLFinal] accepts (returns no error) exactly when
    the message does not start with [e=], carries a non-empty [v], the
    state holds the salted password and the auth message of the earlier
    step, and the base64 decoding of [v] is
    HMAC(HMAC(saltedPassword, "Server Key"), authMessage).  The state
    it leaves is the old one with the message stored. *)
Theorem processSASLFinal_verifies (st : scramState) (message : Buffer) :
  (forall st', processSASLFinal st message = Some (st', None) ->
     st' = withServerFinal st message
     /\ startsWith (toStringAll message) "e=" = false
     /\ exists v salted auth,
          obj_get "v" (parseSCRAMParams (toStringAll message)) = Some v
          /\ saltedPassword st = Some salted /\ authMessage st = Some auth
          /\ Crypto.base64_decode v = hmac (hmac salted "Server Key") auth)
  /\ (forall v salted auth,
        startsWith (toStringAll message) "e=" = false ->
        obj_get "v" (parseSCRAMParams (toStringAll message)) = Some v ->
        v <> EmptyString ->
        saltedPassword st = Some salted -> authMessage st = Some auth ->
        Crypto.base64_decode v = hmac (hmac salted "Server Key") auth ->
        processSASLFinal st message = Some (withServerFinal st message, None)).
Proof.
  split.
  - intros st'. unfold processSASLFinal.
    destruct (startsWith (toStringAll message) "e=") eqn:He; [done|].
    destruct (obj_get "v" (parseSCRAMParams (toStringAll message)))
      as [v|] eqn:Hv; cbn [default from_option id]; [|done].
    destruct (String.eqb v EmptyString); [done|].
    cbn [saltedPassword authMessage].
    destruct (saltedPassword st) as [salted|] eqn:Hs; [|done].
    destruct (authMessage st) as [auth|] eqn:Ha; [|done].
    cbn [mbind option_bind].
    destruct (equals _ _) eqn:Heq; [|done].
    intros [= <-]. apply equals_eq in Heq.
    split; [unfold withServerFinal; by rewrite Hs, Ha|].
    split; [reflexivity|].
    by exists v, salted, auth.
  - intros v salted auth He Hv Hne Hs Ha Hsig. unfold processSASLFinal.
    rewrite He, Hv. cbn [default from_option id].
    replace (String.eqb v EmptyString) with false
      by (symmetry; by apply String.eqb_neq).
    cbn [saltedPassword authMessage]. rewrite Hs, Ha.
    cbn [mbind option_bind]. rewrite Hsig.
    replace (equals _ _) with true by (symmetry; by apply equals_eq).
    unfold withServerFinal. by rewrite Hs, Ha.
Qed.

(** *** src/pgConnection.mjs *)

(** X16.  Whatever bytes have accumulated, one run of the framing loop
    of [_processIncomingData] ends, hands over only whole frames (at
    least five bytes, the length field equal to the size less one),
    leaves a suffix of the accumulator that holds no complete frame, and
    never hands over more bytes than it was given. *)
Theorem processIncomingData_leftover (buffer : Buffer) :
  exists ms rest,
    processIncomingData record buffer [] = Some (rest, ms)
    /\ frameTurn rest = Wait
    /\ (exists skipped, buffer = skipped ++ rest)
    /\ Forall (fun m => 5 <= len m /\ readInt32BE m 1 = Some (len m - 1)) ms
    /\ len (concat ms) + len rest <= len buffer.
Proof.
  destruct (frameLoop_record (length buffer) buffer []) as (ms & rest & H);
    [lia|].
  exists ms, rest. exact H.
Qed.

(** Evaluation of the first events of a connection. *)
Ltac start_eval :=
  cbv beta iota zeta delta
    [new connect onTcpConnected refused handleErrorResponse
     emitAuthenticationError emitError runError socketWrite on_sock
     with_sock with_buffer with_keys with_state with_readyForQuery
     with_currentQuery with_scram with_queries with_connecting with_draws
     write set_onReady set_onError set_onAuthError settle from_option
     fmap option_fmap option_map
     host port database user password sock buffer processId secretKey
     encoding state readyForQuery currentQuery scram queries connecting
     draws written onReady onError onAuthError removeFirst
     readyListener_eqb errorListener_eqb fold_left].

Section WithProviders.
Variable NFKC : string -> string.
Variable md5hex : Buffer -> string.
Variable randomBytes : nat -> Buffer.

(** X17.  Messages of a type the client does not act upon
    (NoticeResponse, ParameterStatus, NoData, any unknown type) leave no
    trace: a chunk of whole messages has the same effect on the
    connection as the chunk without them. *)
Theorem dropped_messages_leave_no_trace (ms : list message) (c : conn) :
  buffer c = [] -> Forall wellFormed ms ->
  onSocketData NFKC md5hex randomBytes (stream ms) c
  = onSocketData NFKC md5hex randomBytes (stream (List.filter relevant ms)) c.
Proof.
  intros Hb Hms.
  rewrite !onSocketData_stream by (done || by apply wellFormed_filter).
  by rewrite dispatchAll_relevant.
Qed.



(** X20.  The start-up with a clear-text password: [connect()] writes
    the start-up packet once the socket is connected, answers
    AuthenticationCleartextPassword with the password as a terminated
    password packet, keeps the process id and the secret key of
    BackendKeyData, and on ReadyForQuery resolves its promise and leaves
    the connection at rest. *)
Theorem connect_with_password (cfg : config) (pid key : Z) (status : byte) :
  int32 pid -> int32 key ->
  run NFKC md5hex randomBytes (new cfg)
      [Connect; TcpConnected; Data (stream passwordRequest);
       Data (stream (welcome pid key status))]
  = Some (established cfg pid key)
  /\ idle (established cfg pid key).
Proof.
  intros Hpid Hkey. split.
  2:{ unfold idle, established. cbn [readyForQuery currentQuery buffer sock].
      repeat split. eexists. split; [reflexivity|]. by split. }
  set (c1 := connect (new cfg)).
  set (c2 := onTcpConnected c1).
  set (c3 := with_buffer []
               (socketWrite (createPasswordPacket (password c2) true) c2)).
  assert (E1 : step NFKC md5hex randomBytes (new cfg) Connect = Some c1)
    by reflexivity.
  assert (E2 : step NFKC md5hex randomBytes c1 TcpConnected = Some c2)
    by reflexivity.
  assert (E3 : step NFKC md5hex randomBytes c2 (Data (stream passwordRequest))
               = Some c3).
  { change (step NFKC md5hex randomBytes c2 (Data (stream passwordRequest)))
      with (onSocketData NFKC md5hex randomBytes (stream passwordRequest) c2).
    rewrite onSocketData_stream; [|reflexivity|].
    2:{ constructor; [by apply small_wellFormed|constructor]. }
    unfold passwordRequest. cbn [map dispatchAll].
    unfold frameOf. cbn [fst snd].
    rewrite processMessage_R. unfold handleAuthenticationMessage.
    change (len (int32BE 3) <? 4) with false.
    rewrite (readInt32BE_at (int32BE 3) [] [] 3 0) by done.
    rewrite bind_Some. reflexivity. }
  assert (E4 : step NFKC md5hex randomBytes c3
                    (Data (stream (welcome pid key status)))
               = Some (established cfg pid key)).
  { change (step NFKC md5hex randomBytes c3
                 (Data (stream (welcome pid key status))))
      with (onSocketData NFKC md5hex randomBytes
              (stream (welcome pid key status)) c3).
    rewrite onSocketData_stream; [|reflexivity|].
    2:{ unfold welcome.
        do 3 (constructor;
              [apply small_wellFormed;
               rewrite ?len_app, ?len_int32BE; done|]).
        constructor. }
    unfold welcome. cbn [map dispatchAll]. unfold frameOf. cbn [fst snd].
    rewrite processMessage_R. unfold handleAuthenticationMessage.
    change (len (int32BE 0) <? 4) with false.
    rewrite (readInt32BE_at (int32BE 0) [] [] 0 0) by done.
    rewrite bind_Some. change (0 =? 0) with true. cbv iota.
    rewrite bind_Some.
    rewrite processMessage_K. unfold handleBackendKeyData.
    rewrite len_app, !len_int32BE. change (8 <=? 4 + 4) with true.
    rewrite (readInt32BE_at _ [] (int32BE key) pid 0) by done.
    rewrite (readInt32BE_at _ (int32BE pid) [] key 4)
      by (done || by rewrite app_nil_r).
    rewrite !bind_Some.
    rewrite processMessage_Z, !bind_Some. reflexivity. }
  cbn [run]. rewrite E1, bind_Some, E2, bind_Some, E3, bind_Some, E4.
  reflexivity.
Qed.

(** X21.  On AuthenticationSASL the client reads the mechanism names
    (ASCII C strings closed by a zero byte).  If SCRAM-SHA-256 is among
    them it draws a nonce, stores the SCRAM state and writes the
    SASLInitialResponse for that mechanism; otherwise it writes nothing
    and reports an authentication error that lists what was offered. *)
Theorem sasl_mechanism_choice (ms : list Buffer) (c : conn) :
  Forall mechanismFits ms ->
  let offered := map toStringAll ms in
  let reply := processMessage NFKC md5hex randomBytes
                 (frame "R" (int32BE 10 ++ cstrings ms)) c in
  (In "SCRAM-SHA-256"%string offered ->
   reply
   = Some (socketWrite
             (createSASLInitialResponsePacket "SCRAM-SHA-256"
                ("n,,n=" +:+ saslName (user c) +:+ ",r="
                   +:+ Crypto.base64_encode (randomBytes (draws c))))
             (with_scram
                (startSCRAMSHA256 (randomBytes (draws c)) (scram c) (user c))
                (with_draws (S (draws c)) c))))
  /\ (~ In "SCRAM-SHA-256"%string offered ->
      reply
      = Some (emitAuthenticationError
                (newError ("No supported SASL mechanism. Available: "
                             +:+ join ", " offered)) c)).
Proof.
  intros Hms. cbv zeta.
  rewrite processMessage_R. unfold handleAuthenticationMessage.
  assert (Hlen : (len (int32BE 10 ++ cstrings ms) <? 4) = false).
  { apply Z.ltb_ge. rewrite len_app, len_int32BE.
    pose proof (len_nonneg (cstrings ms)). lia. }
  rewrite Hlen.
  rewrite (readInt32BE_at _ [] (cstrings ms) 10 0) by done.
  rewrite bind_Some. change (10 =? 0) with false. change (10 =? 3) with false.
  change (10 =? 5) with false. change (10 =? 10) with true. cbv iota.
  change 4 with (len (int32BE 10)). rewrite sliceFrom_app.
  unfold handleSASLAuthentication. rewrite mechanisms_wire by done.
  destruct (existsb (String.eqb "SCRAM-SHA-256") (map toStringAll ms)) eqn:E.
  - split; [done|]. intros Hno. exfalso. apply Hno.
    apply existsb_exists in E as (x & Hx & Hxe).
    apply String.eqb_eq in Hxe. by subst.
  - split; [|done]. intros Hin. exfalso.
    assert (existsb (String.eqb "SCRAM-SHA-256") (map toStringAll ms) = true).
    { apply existsb_exists. exists "SCRAM-SHA-256"%string.
      split; [done|]. apply String.eqb_refl. }
    congruence.
Qed.


(** X23.  An authentication request the client does not know (any
    code other than 0, 3, 5, 10, 11, 12: Kerberos, GSS, SSPI, ...)
    rejects the promise of [connect()] with "Unsupported authentication
    type: <code>" and writes nothing more to the socket. *)
Theorem unsupported_authentication (cfg : config) (authType : Z) :
  int32 authType -> ~ In authType knownAuth ->
  run NFKC md5hex randomBytes (new cfg)
      [Connect; TcpConnected; Data (stream [("R"%byte, int32BE authType)])]
  = Some (refused cfg connected
            (newError ("Unsupported authentication type: "
                         +:+ pretty authType))).
Proof.
  intros Ht Hno.
  set (c1 := connect (new cfg)).
  set (c2 := onTcpConnected c1).
  assert (E1 : step NFKC md5hex randomBytes (new cfg) Connect = Some c1)
    by reflexivity.
  assert (E2 : step NFKC md5hex randomBytes c1 TcpConnected = Some c2)
    by reflexivity.
  cbn [run]. rewrite E1, bind_Some, E2, bind_Some.
  change (step NFKC md5hex randomBytes c2
               (Data (stream [("R"%byte, int32BE authType)])))
    with (onSocketData NFKC md5hex randomBytes
            (stream [("R"%byte, int32BE authType)]) c2).
  rewrite onSocketData_stream; [|reflexivity|].
  2:{ constructor; [|constructor]. apply small_wellFormed.
      rewrite len_int32BE. lia. }
  cbn [map dispatchAll]. unfold frameOf. cbn [fst snd].
  rewrite processMessage_R. unfold handleAuthenticationMessage.
  rewrite len_int32BE. change (4 <? 4) with false. cbv iota.
  rewrite (readInt32BE_at _ [] [] authType 0) by done.
  rewrite bind_Some.
  unfold knownAuth in Hno. cbn [In] in Hno.
  repeat match goal with
         | |- context [authType =? ?k] =>
             destruct (Z.eqb_spec authType k); [exfalso; lia|]
         end.
  rewrite !bind_Some.
  generalize (newError ("Unsupported authentication type: "
                          +:+ pretty authType)) as e. intros e.
  subst c2 c1. start_eval. reflexivity.
Qed.

(** X24.  How the bytes of whole messages are cut into chunks does not
    matter: the ["data"] listener run on the chunks one after the other
    leaves the connection as it would be had everything arrived in one
    chunk (and throws in the same cases). *)
Theorem chunking_is_irrelevant (chunks : list Buffer) (ms : list message)
        (c : conn) :
  buffer c = [] -> Forall wellFormed ms ->
  concat chunks = stream ms ->
  receive NFKC md5hex randomBytes chunks c
  = onSocketData NFKC md5hex randomBytes (stream ms) c.
Proof.
  intros Hb Hms Hchunks.
  rewrite receive_feed, onSocketData_stream by done. rewrite Hb.
  rewrite (feed_stream _ chunks ms [] c Hms); [|exact Hchunks|].
  - by destruct (dispatchAll _ _ c).
  - destruct ms as [|m ms']; [done|]. cbn [shortOf].
    unfold frameOf. rewrite len_frame. pose proof (len_nonneg (snd m)).
    change (len []) with 0. lia.
Qed.

End WithProviders.

Lemma chunking_is_irrelevant_witness :
  receive plainNFKC noMd5 fixedRandom
    [[x53; x00; x00]; [x00; x08; x61; x00; x62]; [x00; x5a; x00; x00; x00];
     [x05; x49]]
    (established sampleConfig 7 9)
  = onSocketData plainNFKC noMd5 fixedRandom
      (stream [("S"%byte, [x61; x00; x62; x00]); ("Z"%byte, [x49])])
      (established sampleConfig 7 9).
Proof.
  apply (chunking_is_irrelevant plainNFKC noMd5 fixedRandom
           [[x53; x00; x00]; [x00; x08; x61; x00; x62];
            [x00; x5a; x00; x00; x00]; [x05; x49]]
           [("S"%byte, [x61; x00; x62; x00]); ("Z"%byte, [x49])]
           (established sampleConfig 7 9)).
  - reflexivity.
  - concrete.
  - reflexivity.
Defined.


Lemma unsupported_authentication_witness :
  run plainNFKC noMd5 fixedRandom (new sampleConfig)
      [Connect; TcpConnected; Data (stream [("R"%byte, int32BE 7)])]
  = Some (refused sampleConfig connected
            (newError ("Unsupported authentication type: " +:+ pretty 7))).
Proof.
  apply (unsupported_authentication plainNFKC noMd5 fixedRandom sampleConfig 7).
  - concrete.
  - unfold knownAuth. cbn [In]. lia.
Defined.

Lemma dropped_messages_leave_no_trace_witness :
  onSocketData plainNFKC noMd5 fixedRandom
    (stream [("S"%byte, fromString "TimeZone" ++ [x00]);
             ("Z"%byte, fromString "I");
             ("N"%byte, encodePairs [("M"%byte, fromString "note")])])
    (established sampleConfig 7 9)
  = onSocketData plainNFKC noMd5 fixedRandom
      (stream (List.filter relevant
                 [("S"%byte, fromString "TimeZone" ++ [x00]);
                  ("Z"%byte, fromString "I");
                  ("N"%byte, encodePairs [("M"%byte, fromString "note")])]))
      (established sampleConfig 7 9).
Proof.
  apply (dropped_messages_leave_no_trace plainNFKC noMd5 fixedRandom
           [("S"%byte, fromString "TimeZone" ++ [x00]);
            ("Z"%byte, fromString "I");
            ("N"%byte, encodePairs [("M"%byte, fromString "note")])]
           (established sampleConfig 7 9)).
  - reflexivity.
  - concrete.
Defined.



Lemma connect_with_password_witness :
  run plainNFKC noMd5 fixedRandom (new sampleConfig)
      [Connect; TcpConnected; Data (stream passwordRequest);
       Data (stream (welcome 4711 (-5) "I"))]
  = Some (established sampleConfig 4711 (-5))
  /\ idle (established sampleConfig 4711 (-5)).
Proof.
  apply (connect_with_password plainNFKC noMd5 fixedRandom sampleConfig
           4711 (-5) "I").
  - concrete.
  - concrete.
Defined.

Lemma sasl_mechanism_choice_witness :
  let c := afterRun [Connect; TcpConnected] in
  let ms := [fromString "SCRAM-SHA-256-PLUS"; fromString "SCRAM-SHA-256"] in
  let offered := map toStringAll ms in
  let reply := processMessage plainNFKC noMd5 fixedRandom
                 (frame "R" (int32BE 10 ++ cstrings ms)) c in
  (In "SCRAM-SHA-256"%string offered ->
   reply
   = Some (socketWrite
             (createSASLInitialResponsePacket "SCRAM-SHA-256"
                ("n,,n=" +:+ saslName (user c) +:+ ",r="
                   +:+ Crypto.base64_encode (fixedRandom (draws c))))
             (with_scram
                (startSCRAMSHA256 (fixedRandom (draws c)) (scram c) (user c))
                (with_draws (S (draws c)) c))))
  /\ (~ In "SCRAM-SHA-256"%string offered ->
      reply
      = Some (emitAuthenticationError
                (newError ("No supported SASL mechanism. Available: "
                             +:+ join ", " offered)) c)).
Proof.
  apply (sasl_mechanism_choice plainNFKC noMd5 fixedRandom
           [fromString "SCRAM-SHA-256-PLUS"; fromString "SCRAM-SHA-256"]
           (afterRun [Connect; TcpConnected])).
  concrete.
Defined.

End Extras.
